(** * Verification of the dynamic request module (request.h)

    A shallow embedding of [http_request] and of the MQTT [REQUEST_SETUP]
    macro of request.h.  The network client (EthernetClient or WiFiClient,
    selected by network.h) and the PubSubClient are interfaces the header
    only consumes; they are type classes here, and every call the code makes
    on them is recorded in a log, so that statements about "what was written"
    or "how often stop was called" are statements about that log.

    Integer model: the targets named by the repository (ESP-32, ESP-8266)
    have 8-bit [byte], 32-bit [int] and 32-bit [long]; conversions between
    them are written out ([to_byte], [to_int]).  The Arduino [String]
    operations used by the code (concat, equals, length, indexOf, substring,
    toInt) belong to the Arduino core, not to this repository; they are
    given here with the behaviour the core documents, toInt being atol,
    which on these targets is newlib's strtol and saturates.

    DBG(...) expands to nothing unless DEBUG_MODE is 1, and then only
    prints to Serial; it has no part in the control flow.  In
    [http_request], whose log is that of the calls on the network client,
    it is left out.  In the macros whose log holds what goes to Serial, or
    where a call is made for DBG alone (NETWORK_SETUP and NETWORK_LOOP in
    WiFi mode, REQUEST_SEND in MQTT mode), DBG is modelled, with
    DEBUG_MODE as a parameter.
    Loops that the client may keep going for ever take fuel: a run that
    uses it up ends in [OutOfFuel], which says nothing about the program. *)

From Stdlib Require Import ZArith List Ascii String Bool Lia.
Import ListNotations.
Local Open Scope Z_scope.

(* ------------------------------------------------------------------ *)
(** ** Machine integers *)

Module MachInt.

Definition BYTE_MOD : Z := 256.
Definition INT_MIN : Z := - 2147483648.
Definition INT_MAX : Z := 2147483647.
Definition LONG_MIN : Z := INT_MIN.
Definition LONG_MAX : Z := INT_MAX.

(** Conversion of an [int] to [byte] (uint8_t): reduction modulo 256. *)
Definition to_byte (z : Z) : Z := z mod BYTE_MOD.

(** Conversion to a 32-bit two's complement [int]. *)
Definition to_int (z : Z) : Z := (z - INT_MIN) mod 4294967296 + INT_MIN.

(** What strtol returns for a mathematical value outside [long]. *)
Definition clamp_long (z : Z) : Z :=
  if z <? LONG_MIN then LONG_MIN
  else if LONG_MAX <? z then LONG_MAX
  else z.

End MachInt.
Import MachInt.

(* ------------------------------------------------------------------ *)
(** ** Arduino strings *)

(** An Arduino [String] is a sequence of 8-bit characters. *)
Definition Str : Type := list ascii.

(** A string literal of the source. *)
Definition lit (s : string) : Str := list_ascii_of_string s.

Definition NUL : ascii := Ascii.zero.
Definition SPACE : ascii := " "%char.
Definition CR : ascii := ascii_of_nat 13.
Definition LF : ascii := ascii_of_nat 10.

Definition code (c : ascii) : Z := Z.of_N (N_of_ascii c).

(** [(char) x] for an [int] x: the low eight bits. *)
Definition char_of_int (z : Z) : ascii := ascii_of_N (Z.to_N (to_byte z)).

Module AString.

(** [a.equals(b)] *)
Fixpoint equals (a b : Str) : bool :=
  match a, b with
  | [], [] => true
  | x :: a', y :: b' => Ascii.eqb x y && equals a' b'
  | _, _ => false
  end.

(** [s.length()] *)
Definition length (s : Str) : Z := Z.of_nat (List.length s).

(** [a.concat(b)], and [a + b] *)
Definition concat (a b : Str) : Str := a ++ b.

Fixpoint starts_with (p s : Str) : bool :=
  match p, s with
  | [], _ => true
  | x :: p', y :: s' => Ascii.eqb x y && starts_with p' s'
  | _ :: _, [] => false
  end.

(** strstr over the characters from position [pos] on. *)
Fixpoint find_from (needle hay : Str) (pos : Z) : Z :=
  match hay with
  | [] => -1
  | _ :: rest =>
      if starts_with needle hay then pos
      else find_from needle rest (pos + 1)
  end.

(** [hay.indexOf(needle)]: position of the first occurrence, or -1. *)
Definition indexOf (hay needle : Str) : Z := find_from needle hay 0.

(** [s.substring(left, right)]: swaps the bounds when left > right,
    empty when left is past the end, right cut to the length. *)
Definition substring (s : Str) (left right : Z) : Str :=
  let l := Z.min left right in
  let r := Z.max left right in
  if length s <=? l then []
  else
    let r' := Z.min r (length s) in
    firstn (Z.to_nat (r' - l)) (skipn (Z.to_nat l) s).

Definition isspace (c : ascii) : bool :=
  (code c =? 32) || ((9 <=? code c) && (code c <=? 13)).

Definition isdigit (c : ascii) : bool :=
  (48 <=? code c) && (code c <=? 57).

Fixpoint skip_space (s : Str) : Str :=
  match s with
  | c :: rest => if isspace c then skip_space rest else s
  | [] => []
  end.

(** Value of the leading run of decimal digits, continuing from [acc]. *)
Fixpoint digits_from (acc : Z) (s : Str) : Z :=
  match s with
  | c :: rest =>
      if isdigit c then digits_from (acc * 10 + (code c - 48)) rest
      else acc
  | [] => acc
  end.

(** strtol(s, NULL, 10): blanks, an optional sign, digits; out-of-range
    values come back as LONG_MIN or LONG_MAX; 0 when there is no digit. *)
Definition strtol10 (s : Str) : Z :=
  match skip_space s with
  | c :: rest =>
      if Ascii.eqb c "-" then clamp_long (- digits_from 0 rest)
      else if Ascii.eqb c "+" then clamp_long (digits_from 0 rest)
      else clamp_long (digits_from 0 (c :: rest))
  | [] => 0
  end.

(** [s.toInt()]: atol of the characters. *)
Definition toInt (s : Str) : Z := strtol10 s.

Definition digit_char (d : Z) : ascii := ascii_of_N (Z.to_N (48 + d)).

(** Decimal digits of [n], most significant first, in front of [acc]. *)
Fixpoint utoa_loop (fuel : nat) (n : Z) (acc : Str) : Str :=
  match fuel with
  | O => acc
  | S f =>
      let acc' := digit_char (n mod 10) :: acc in
      if n / 10 =? 0 then acc' else utoa_loop f (n / 10) acc'
  end.

(** utoa(n, buf, 10), which is what [concat(unsigned int)] appends. *)
Definition utoa (n : Z) : Str := utoa_loop (S (Z.to_nat n)) n [].

End AString.
Import AString.

(* ------------------------------------------------------------------ *)
(** ** The machine: a world, the global [_wait], and two logs *)

(** Outcome of running a piece of the program with bounded loop fuel.
    [Fault] is a memory error: a store outside [header_str], or a read of
    a cell that was never written. *)
Inductive result (A : Type) : Type :=
| Ret (a : A)
| Fault
| OutOfFuel.
Arguments Ret {A} a.
Arguments Fault {A}.
Arguments OutOfFuel {A}.

(** State passing with the three outcomes; [S] is the machine state. *)
Definition M (S A : Type) : Type := S -> result (A * S).

Definition ret {S A} (a : A) : M S A := fun m => Ret (a, m).

Definition bind {S A B} (c : M S A) (k : A -> M S B) : M S B :=
  fun m =>
    match c m with
    | Ret (a, m') => k a m'
    | Fault => Fault
    | OutOfFuel => OutOfFuel
    end.

Definition fault {S A} : M S A := fun _ => Fault.
Definition out_of_fuel {S A} : M S A := fun _ => OutOfFuel.

Declare Scope run_scope.
Delimit Scope run_scope with run.
Notation "x <- c ;; k" := (bind c (fun x => k))
  (at level 61, c at next level, right associativity) : run_scope.
Notation "c ;; k" := (bind c (fun _ => k))
  (at level 61, right associativity) : run_scope.

Module Http.

(** NETWORK_CLIENT of network.h: EthernetClient or WiFiClient.  [W] is
    the state of the world as the client sees it (socket, receive buffer,
    the peer); [sys_delay] is Arduino's delay(ms), during which that
    world moves on. *)
Class NetworkClient (W : Type) : Type := {
  net_connect : Str -> Z -> W -> Z * W;      (* int connect(host, port) *)
  net_connected : W -> bool * W;             (* connected() *)
  net_available : W -> Z * W;                (* int available() *)
  net_read : W -> Z * W;                     (* int read() *)
  net_println : Str -> W -> W;               (* println(String) *)
  net_stop : W -> W;                         (* stop() *)
  sys_delay : Z -> W -> W                    (* delay(ms) *)
}.

(** One entry per call the program makes, in program order. *)
Inductive event : Type :=
| EvConnect (host : Str) (port : Z) (r : Z)
| EvPrintln (s : Str)
| EvAvailable (n : Z)
| EvRead (r : Z)
| EvConnected (b : bool)
| EvStop
| EvDelay (ms : Z).

Record machine (W : Type) : Type := mkMachine {
  world : W;
  _wait : Z;                       (* int _wait = 0;  (file scope) *)
  calls : list event;              (* calls made so far *)
  stores : list (Z * ascii)        (* stores into header_str so far *)
}.
Arguments mkMachine {W}.
Arguments world {W}.
Arguments _wait {W}.
Arguments calls {W}.
Arguments stores {W}.

Local Open Scope run_scope.

Definition _HEADER_LEN : Z := 49.

(** The cells of [char header_str[_HEADER_LEN + 1]]; [None] is a cell
    that has not been written yet. *)
Definition buffer : Type := list (option ascii).

Definition fresh_buffer : buffer :=
  repeat None (Z.to_nat (_HEADER_LEN + 1)).

Fixpoint update (buf : buffer) (i : nat) (c : ascii) : buffer :=
  match buf, i with
  | [], _ => []
  | _ :: rest, O => Some c :: rest
  | x :: rest, S j => x :: update rest j c
  end.

(** Reading the array as a C string: up to the first NUL.  [None] when
    an unwritten cell or the end of the array comes first. *)
Fixpoint cstr (buf : buffer) : option Str :=
  match buf with
  | [] => None
  | None :: _ => None
  | Some c :: rest =>
      if Ascii.eqb c NUL then Some []
      else option_map (cons c) (cstr rest)
  end.

Section Program.

Context {W : Type} `{NetworkClient W}.

(** #define REQUEST_REPLY_WAIT (default 100) *)
Variable REQUEST_REPLY_WAIT : Z.

(** *** The calls, each leaving its entry in the log *)

Definition record (e : event) (w : W) (m : machine W) : machine W :=
  mkMachine w (_wait m) (calls m ++ [e]) (stores m).

Definition connect (host : Str) (port : Z) : M (machine W) Z := fun m =>
  let (r, w) := net_connect host port (world m) in
  Ret (r, record (EvConnect host port r) w m).

Definition connected : M (machine W) bool := fun m =>
  let (b, w) := net_connected (world m) in
  Ret (b, record (EvConnected b) w m).

Definition available : M (machine W) Z := fun m =>
  let (n, w) := net_available (world m) in
  Ret (n, record (EvAvailable n) w m).

Definition read : M (machine W) Z := fun m =>
  let (r, w) := net_read (world m) in
  Ret (r, record (EvRead r) w m).

Definition println (s : Str) : M (machine W) unit := fun m =>
  Ret (tt, record (EvPrintln s) (net_println s (world m)) m).

Definition stop : M (machine W) unit := fun m =>
  Ret (tt, record EvStop (net_stop (world m)) m).

Definition delay (ms : Z) : M (machine W) unit := fun m =>
  Ret (tt, record (EvDelay ms) (sys_delay ms (world m)) m).

(** [_wait++]: yields the old value. *)
Definition wait_post_increment : M (machine W) Z := fun m =>
  Ret (_wait m,
       mkMachine (world m) (to_int (_wait m + 1)) (calls m) (stores m)).

Definition wait_assign (v : Z) : M (machine W) unit := fun m =>
  Ret (tt, mkMachine (world m) v (calls m) (stores m)).

(** [header_str[i] = c] *)
Definition store (buf : buffer) (i : Z) (c : ascii) : M (machine W) buffer :=
  fun m =>
    if (0 <=? i) && (i <? _HEADER_LEN + 1) then
      Ret (update buf (Z.to_nat i) c,
           mkMachine (world m) (_wait m) (calls m) (stores m ++ [(i, c)]))
    else Fault.

(** *** Lines 180-195: the request text *)

Definition format_request (data method base_url path
                           additional_headers : Str) : Str :=
  let not_get := negb (equals method (lit "GET")) in
  let request := lit "" in
  let request := concat request method in
  let request := concat request (lit " " ++ path) in
  let request :=
    concat request (if not_get then lit "" else lit "?" ++ data) in
  let request := concat request (lit " HTTP/1.1" ++ [LF]) in
  let request := concat request (lit "Host: " ++ base_url ++ [LF]) in
  let request :=
    if not_get then
      let request := concat request (lit "Content-Length: ") in
      let request := concat request (utoa (length data)) in
      concat request [LF]
    else request in
  let request :=
    if negb (equals additional_headers (lit "")) then
      concat request additional_headers
    else request in
  if not_get then concat request ([LF] ++ data) else request.

(** *** Lines 206-213: wait for the first byte
    The result tells whether the loop was left through [break]. *)

Fixpoint wait_loop (fuel : nat) : M (machine W) bool :=
  match fuel with
  | O => out_of_fuel
  | S fuel' =>
      n <- available ;;
      if n =? 0 then
        delay 1 ;;
        old <- wait_post_increment ;;
        if old >? REQUEST_REPLY_WAIT then
          wait_assign 0 ;;
          ret true
        else wait_loop fuel'
      else ret false
  end.

(** *** Lines 216-231: capture the head of the response *)

Fixpoint read_loop (fuel : nat) (header_str : buffer) (header_str_i : Z)
  : M (machine W) (buffer * Z) :=
  match fuel with
  | O => out_of_fuel
  | S fuel' =>
      up <- connected ;;
      if up then
        n <- available ;;
        if negb (n =? 0) then
          r <- read ;;
          let c := char_of_int r in
          if header_str_i <? _HEADER_LEN then
            header_str' <- store header_str header_str_i c ;;
            read_loop fuel' header_str' (to_byte (header_str_i + 1))
          else read_loop fuel' header_str header_str_i
        else
          stop ;;
          read_loop fuel' header_str header_str_i
      else ret (header_str, header_str_i)
  end.

Definition read_header (fuel : nat) : M (machine W) Str :=
  bi <- read_loop fuel fresh_buffer 0 ;;
  header_str <- store (fst bi) (snd bi) NUL ;;
  stop ;;
  match cstr header_str with
  | Some header => ret header
  | None => fault
  end.

(** *** Lines 240-252: the status code out of the captured text *)

Definition parse_status (header : Str) : Z :=
  let first_space := to_byte (indexOf header (lit " ")) in
  if (first_space =? -1) || (first_space >? _HEADER_LEN) then 0
  else
    let possible_code := to_int (toInt (substring header 0 first_space)) in
    if possible_code =? 0 then
      to_int (toInt (substring header (first_space + 1)
                                      (first_space + 1 + 3)))
    else possible_code.

(** *** [http_request] *)

(** Lines 197-238: send the request, wait, capture: the [header] that
    the parse phase is given. *)
Definition http_exchange (fuel : nat) (request : Str) : M (machine W) Str :=
  println request ;;
  wait_loop fuel ;;
  read_header fuel.

Definition http_request (fuel : nat) (data method base_url path : Str)
                        (port : Z) (additional_headers : Str)
  : M (machine W) Z :=
  r <- connect base_url port ;;
  if r =? 0 then ret 0
  else
    header <- http_exchange fuel (format_request data method base_url path
                                                 additional_headers) ;;
    ret (parse_status header).

(** *** REQUEST_SEND (HTTP mode) *)

Variables REQUEST_METHOD REQUEST_URL REQUEST_PATH REQUEST_HEADERS : Str.
Variable REQUEST_PORT : Z.

Definition REQUEST_SEND (fuel : nat) (data : Str) : M (machine W) bool :=
  status <- http_request fuel data REQUEST_METHOD REQUEST_URL
                         (lit "/" ++ REQUEST_PATH) REQUEST_PORT
                         REQUEST_HEADERS ;;
  ret (negb (0 =? status)).

End Program.

End Http.

(* ------------------------------------------------------------------ *)
(** ** MQTT mode: REQUEST_SETUP *)

Module Mqtt.

(** The part of PubSubClient that REQUEST_SETUP calls, with delay(ms). *)
Class PubSubClient (W : Type) : Type := {
  mq_setServer : Str -> Z -> W -> W;
  mq_connected : W -> bool * W;
  mq_connect : Str -> Str -> Str -> W -> bool * W;
  mq_state : W -> Z * W;
  mq_delay : Z -> W -> W
}.

(** Calls on the client, on Serial and to delay, in program order. *)
Inductive event : Type :=
| MqSetServer (url : Str) (port : Z)
| MqConnected (b : bool)
| MqConnect (id user pass : Str) (ok : bool)
| MqState (st : Z)
| MqSerialPrint (s : Str)
| MqSerialPrintln (s : Str)
| MqSerialPrintlnInt (n : Z)
| MqDelay (ms : Z).

Record machine (W : Type) : Type := mkMachine {
  world : W;
  calls : list event
}.
Arguments mkMachine {W}.
Arguments world {W}.
Arguments calls {W}.

Local Open Scope run_scope.

Section Program.

Context {W : Type} `{PubSubClient W}.

Variables REQUEST_URL REQUEST_CLIENT_ID
          REQUEST_USERNAME REQUEST_PASSWORD : Str.
Variable REQUEST_PORT : Z.

Definition record (e : event) (w : W) (m : machine W) : machine W :=
  mkMachine w (calls m ++ [e]).

Definition setServer (url : Str) (port : Z) : M (machine W) unit :=
  fun m => Ret (tt, record (MqSetServer url port)
                           (mq_setServer url port (world m)) m).

Definition connected : M (machine W) bool := fun m =>
  let (b, w) := mq_connected (world m) in
  Ret (b, record (MqConnected b) w m).

Definition connect (id user pass : Str) : M (machine W) bool := fun m =>
  let (ok, w) := mq_connect id user pass (world m) in
  Ret (ok, record (MqConnect id user pass ok) w m).

Definition state : M (machine W) Z := fun m =>
  let (st, w) := mq_state (world m) in
  Ret (st, record (MqState st) w m).

Definition delay (ms : Z) : M (machine W) unit := fun m =>
  Ret (tt, record (MqDelay ms) (mq_delay ms (world m)) m).

(** Serial is a sink: the text goes to the log and nowhere else. *)
Definition serial (e : event) : M (machine W) unit := fun m =>
  Ret (tt, record e (world m) m).

(** The [while (!client.connected())] loop of the macro. *)
Fixpoint connect_loop (fuel : nat) : M (machine W) unit :=
  match fuel with
  | O => out_of_fuel
  | S fuel' =>
      up <- connected ;;
      if negb up then
        ok <- connect REQUEST_CLIENT_ID REQUEST_USERNAME
                      REQUEST_PASSWORD ;;
        if ok then
          serial (MqSerialPrintln (lit "MQTT broker connected")) ;;
          connect_loop fuel'
        else
          serial (MqSerialPrint (lit "failed with state ")) ;;
          st <- state ;;
          serial (MqSerialPrintlnInt st) ;;
          delay 1000 ;;
          connect_loop fuel'
      else ret tt
  end.

Definition REQUEST_SETUP (fuel : nat) : M (machine W) unit :=
  setServer REQUEST_URL REQUEST_PORT ;;
  connect_loop fuel.

End Program.

End Mqtt.

(* ------------------------------------------------------------------ *)
(** ** Two small worlds to run the program in *)

Module Sim.

(** A peer that accepts or refuses the connection and then delivers its
    answer in pieces: each delay() brings the next piece into the receive
    buffer, and a [None] piece is the peer closing the connection. *)
Record client : Type := mkClient {
  accept : Z;                    (* what connect() will return *)
  up : bool;
  rx : Str;
  feed : list (option Str);
  tx : list Str
}.

Definition sim_connect (host : Str) (port : Z) (w : client) : Z * client :=
  if accept w =? 0 then (0, w)
  else (accept w, mkClient (accept w) true (rx w) (feed w) (tx w)).

Definition sim_read (w : client) : Z * client :=
  match rx w with
  | c :: rest => (code c, mkClient (accept w) (up w) rest (feed w) (tx w))
  | [] => (-1, w)
  end.

Definition sim_delay (ms : Z) (w : client) : client :=
  match feed w with
  | Some piece :: later =>
      mkClient (accept w) (up w) (rx w ++ piece) later (tx w)
  | None :: later => mkClient (accept w) false (rx w) later (tx w)
  | [] => w
  end.

#[global] Instance client_is_network_client : Http.NetworkClient client := {
  Http.net_connect := sim_connect;
  Http.net_connected := fun w => (up w, w);
  Http.net_available := fun w => (AString.length (rx w), w);
  Http.net_read := sim_read;
  Http.net_println := fun s w =>
    mkClient (accept w) (up w) (rx w) (feed w) (tx w ++ [s ++ [CR; LF]]);
  Http.net_stop := fun w => mkClient (accept w) false [] (feed w) (tx w);
  Http.sys_delay := sim_delay
}.

Definition boot (w : client) : Http.machine client :=
  Http.mkMachine w 0 [] [].

(** A broker that refuses the first [refusals] connection attempts.
    [online] is set by a successful connect only, as in PubSubClient,
    whose connected() is true only in its MQTT_CONNECTED state. *)
Record broker : Type := mkBroker {
  refusals : nat;
  online : bool
}.

Definition broker_connect (id user pass : Str) (w : broker)
  : bool * broker :=
  match refusals w with
  | O => (true, mkBroker O true)
  | S n => (false, mkBroker n false)
  end.

#[global] Instance broker_is_pubsub : Mqtt.PubSubClient broker := {
  Mqtt.mq_setServer := fun _ _ w => w;
  Mqtt.mq_connected := fun w => (online w, w);
  Mqtt.mq_connect := broker_connect;
  Mqtt.mq_state := fun w => ((if online w then 0 else -2), w);
  Mqtt.mq_delay := fun _ w => w
}.

End Sim.

(* ------------------------------------------------------------------ *)
(** ** Vocabulary of the statements *)

(** The characters of [bytes] before its first NUL: what a C string reader
    sees when [bytes] sits in memory followed by a NUL. *)
Fixpoint c_string (bytes : list ascii) : Str :=
  match bytes with
  | [] => []
  | c :: rest => if Ascii.eqb c NUL then [] else c :: c_string rest
  end.

(** The store log of a loop that wrote [bytes] to the cells [start],
    [start + 1], ... in turn. *)
Fixpoint stored_from (start : Z) (bytes : list ascii) : list (Z * ascii) :=
  match bytes with
  | [] => []
  | c :: rest => (start, c) :: stored_from (start + 1) rest
  end.

(** [header_str] once [bytes] have been written to its first cells. *)
Definition image (bytes : list ascii) : Http.buffer :=
  map Some bytes
  ++ repeat None (Z.to_nat (Http._HEADER_LEN + 1) - List.length bytes).

Definition is_stop (e : Http.event) : bool :=
  match e with Http.EvStop => true | _ => false end.

Definition is_idle_poll (e : Http.event) : bool :=
  match e with Http.EvAvailable n => n =? 0 | _ => false end.

Definition is_delay (e : Http.event) : bool :=
  match e with Http.EvDelay _ => true | _ => false end.

Definition is_println (e : Http.event) : bool :=
  match e with Http.EvPrintln _ => true | _ => false end.

Definition count {E : Type} (p : E -> bool) (evs : list E) : Z :=
  Z.of_nat (List.length (filter p evs)).

(** One turn of the loop of REQUEST_SETUP that did call connect(): it was
    refused, the client then reporting state [st], or it was accepted. *)
Inductive round : Type :=
| Refused (st : Z)
| Accepted.

Definition round_events (id user pass : Str) (r : round) : list Mqtt.event :=
  match r with
  | Refused st =>
      [Mqtt.MqConnected false;
       Mqtt.MqConnect id user pass false;
       Mqtt.MqSerialPrint (lit "failed with state ");
       Mqtt.MqState st;
       Mqtt.MqSerialPrintlnInt st;
       Mqtt.MqDelay 1000]
  | Accepted =>
      [Mqtt.MqConnected false;
       Mqtt.MqConnect id user pass true;
       Mqtt.MqSerialPrintln (lit "MQTT broker connected")]
  end.

(** The log of a REQUEST_SETUP that went through [rounds] and then found
    the client connected. *)
Definition setup_events (url : Str) (port : Z) (id user pass : Str)
                        (rounds : list round) : list Mqtt.event :=
  Mqtt.MqSetServer url port
  :: List.concat (map (round_events id user pass) rounds)
  ++ [Mqtt.MqConnected true].

Definition is_mq_delay (e : Mqtt.event) : bool :=
  match e with Mqtt.MqDelay _ => true | _ => false end.

Definition is_refused_connect (e : Mqtt.event) : bool :=
  match e with Mqtt.MqConnect _ _ _ ok => negb ok | _ => false end.

(** What PubSubClient promises about connected(): as long as no connect()
    has succeeded on a client ([fresh]), connected() answers false, and
    nothing but a successful connect() ends that. *)
Definition connect_gated {W} {C : Mqtt.PubSubClient W}
                         (fresh : W -> Prop) : Prop :=
  (forall w, fresh w ->
             fst (Mqtt.mq_connected w) = false /\
             fresh (snd (Mqtt.mq_connected w))) /\
  (forall url port w, fresh w -> fresh (Mqtt.mq_setServer url port w)) /\
  (forall id user pass w,
      fresh w -> fst (Mqtt.mq_connect id user pass w) = false ->
      fresh (snd (Mqtt.mq_connect id user pass w))) /\
  (forall w, fresh w -> fresh (snd (Mqtt.mq_state w))) /\
  (forall ms w, fresh w -> fresh (Mqtt.mq_delay ms w)).

(** What the call that took the machine from [m] to [m'] added to the
    log of calls. *)
Definition new_calls {W} (m m' : Http.machine W) : list Http.event :=
  skipn (List.length (Http.calls m)) (Http.calls m').

(** The call that took the machine from [m] to [m'] stored [bytes] in
    the cells 0, 1, ... of header_str, and then the NUL behind them. *)
Definition captured {W} (m m' : Http.machine W) (bytes : list ascii) : Prop :=
  Http.stores m'
  = Http.stores m ++ stored_from 0 bytes ++ [(length bytes, NUL)].

(** The machine right after a connect and the println of [request]: the
    state in which the wait loop starts. *)
Definition after_send {W} {C : Http.NetworkClient W}
           (request base_url : Str) (port : Z) (m : Http.machine W)
  : Http.machine W :=
  let rw := Http.net_connect base_url port (Http.world m) in
  Http.record (Http.EvPrintln request) (Http.net_println request (snd rw))
              (Http.record (Http.EvConnect base_url port (fst rw)) (snd rw) m).

(** Shapes of the call log of the two loops of [http_request]. *)
Inductive wait_trace : bool -> list Http.event -> Prop :=
| wait_ready n :
    n <> 0 -> wait_trace false [Http.EvAvailable n]
| wait_timeout :
    wait_trace true [Http.EvAvailable 0; Http.EvDelay 1]
| wait_again b evs :
    wait_trace b evs ->
    wait_trace b (Http.EvAvailable 0 :: Http.EvDelay 1 :: evs).

Inductive read_trace : list Http.event -> Prop :=
| read_done :
    read_trace [Http.EvConnected false]
| read_byte n r evs :
    n <> 0 -> read_trace evs ->
    read_trace (Http.EvConnected true :: Http.EvAvailable n
                :: Http.EvRead r :: evs)
| read_idle evs :
    read_trace evs ->
    read_trace (Http.EvConnected true :: Http.EvAvailable 0
                :: Http.EvStop :: evs).

(** What a run of the read loop that started with [bytes] captured may
    end in: never a memory fault; when it returns, [more] bytes have been
    appended, one cell after the other, and never past cell 48; its first
    call was a connected() poll. *)
Definition read_loop_post {W} {C : Http.NetworkClient W}
           (bytes : list ascii) (m : Http.machine W)
           (r : result (Http.buffer * Z * Http.machine W)) : Prop :=
  match r with
  | Ret (buf', i', m') =>
      exists evs more,
        Http.calls m' = Http.calls m ++ evs /\
        read_trace evs /\
        Http._wait m' = Http._wait m /\
        (List.length (bytes ++ more) <= 49)%nat /\
        buf' = image (bytes ++ more) /\
        i' = length (bytes ++ more) /\
        Http.stores m' = Http.stores m ++ stored_from (length bytes) more /\
        hd_error evs
        = Some (Http.EvConnected (fst (Http.net_connected (Http.world m))))
  | Fault => False
  | OutOfFuel => True
  end.

(** The wait loop touches neither the buffer nor the connection; its
    log is a run of idle polls, each followed by delay(1). *)
Definition wait_loop_post {W} (m : Http.machine W)
                          (r : result (bool * Http.machine W)) : Prop :=
  match r with
  | Ret (b, m') =>
      exists evs,
        Http.calls m' = Http.calls m ++ evs /\
        wait_trace b evs /\
        Http.stores m' = Http.stores m
  | Fault => False
  | OutOfFuel => True
  end.

(** The counter.  [_wait] stays within 0 .. REQUEST_REPLY_WAIT + 1; a
    time-out resets it after REQUEST_REPLY_WAIT + 2 - [_wait] sleeps, any
    other exit leaves it raised by the number of sleeps. *)
Definition wait_counter_post {W} (REQUEST_REPLY_WAIT : Z)
                             (m : Http.machine W)
                             (r : result (bool * Http.machine W)) : Prop :=
  match r with
  | Ret (b, m') =>
      exists evs,
        Http.calls m' = Http.calls m ++ evs /\
        (if b then
           Http._wait m' = 0 /\
           count is_delay evs = REQUEST_REPLY_WAIT + 2 - Http._wait m
         else
           Http._wait m' = Http._wait m + count is_delay evs /\
           Http._wait m' <= REQUEST_REPLY_WAIT + 1)
  | Fault => False
  | OutOfFuel => True
  end.

(** The capture: the loop's stores, then the NUL right behind them, then
    the final stop; the header is read back up to the first NUL. *)
Definition read_header_post {W} (m : Http.machine W)
                            (r : result (Str * Http.machine W)) : Prop :=
  match r with
  | Ret (header, m') =>
      exists evs bytes,
        Http.calls m' = Http.calls m ++ evs ++ [Http.EvStop] /\
        read_trace evs /\
        Http._wait m' = Http._wait m /\
        (List.length bytes <= 49)%nat /\
        Http.stores m'
        = Http.stores m ++ stored_from 0 bytes ++ [(length bytes, NUL)] /\
        header = c_string bytes
  | Fault => False
  | OutOfFuel => True
  end.

(** A returning exchange, in full: one println, the wait, the capture. *)
Definition http_exchange_post {W} (request : Str) (m : Http.machine W)
                              (r : result (Str * Http.machine W)) : Prop :=
  match r with
  | Ret (header, m') =>
      exists b wevs revs bytes,
        Http.calls m'
        = Http.calls m
          ++ Http.EvPrintln request :: wevs ++ revs ++ [Http.EvStop] /\
        wait_trace b wevs /\
        read_trace revs /\
        (List.length bytes <= 49)%nat /\
        Http.stores m'
        = Http.stores m ++ stored_from 0 bytes ++ [(length bytes, NUL)] /\
        header = c_string bytes
  | Fault => False
  | OutOfFuel => True
  end.

(** Making the calls of a log on a client again, from the state [w]: the
    state they leave the client in, provided each answer in the log is
    the answer the client gives; [None] otherwise.  What goes to Serial
    does not reach the client. *)
Fixpoint replay {W} {C : Mqtt.PubSubClient W} (w : W)
                (evs : list Mqtt.event) : option W :=
  match evs with
  | [] => Some w
  | Mqtt.MqSetServer url port :: rest =>
      replay (Mqtt.mq_setServer url port w) rest
  | Mqtt.MqConnected b :: rest =>
      let (b', w') := Mqtt.mq_connected w in
      if Bool.eqb b b' then replay w' rest else None
  | Mqtt.MqConnect id user pass ok :: rest =>
      let (ok', w') := Mqtt.mq_connect id user pass w in
      if Bool.eqb ok ok' then replay w' rest else None
  | Mqtt.MqState st :: rest =>
      let (st', w') := Mqtt.mq_state w in
      if st =? st' then replay w' rest else None
  | Mqtt.MqSerialPrint _ :: rest => replay w rest
  | Mqtt.MqSerialPrintln _ :: rest => replay w rest
  | Mqtt.MqSerialPrintlnInt _ :: rest => replay w rest
  | Mqtt.MqDelay ms :: rest => replay (Mqtt.mq_delay ms w) rest
  end.

(** The loop of REQUEST_SETUP returns only on a connected() that answers
    true, after a whole number of rounds; the calls in its log are the
    calls it made on the client, with the answers the client gave; on a
    client on which no connect() had yet succeeded one of these rounds is
    an accepted connect(). *)
Definition connect_loop_post {W} {C : Mqtt.PubSubClient W}
           (id user pass : Str) (m : Mqtt.machine W)
           (r : result (unit * Mqtt.machine W)) : Prop :=
  match r with
  | Ret (_, m') =>
      exists rounds,
        Mqtt.calls m'
        = Mqtt.calls m ++ List.concat (map (round_events id user pass) rounds)
          ++ [Mqtt.MqConnected true] /\
        replay (Mqtt.world m)
               (List.concat (map (round_events id user pass) rounds)
                ++ [Mqtt.MqConnected true])
        = Some (Mqtt.world m') /\
        forall fresh,
          connect_gated fresh -> fresh (Mqtt.world m) -> In Accepted rounds
  | Fault => False
  | OutOfFuel => True
  end.

(** ** Peers to run the program against *)

(** A peer that refuses every connection. *)
Definition unreachable_peer : Sim.client :=
  Sim.mkClient 0 false [] [Some (lit "200 OK")] [].

(** A peer that answers with a single word. *)
Definition terse_peer : Sim.client :=
  Sim.mkClient 1 false [] [Some []; Some (lit "HTTP/1.1")] [].

(** A peer that answers with a full status line and more. *)
Definition not_found_peer : Sim.client :=
  Sim.mkClient 1 false []
    [Some []; Some (lit "HTTP/1.1 404 Not Found" ++ LF :: lit "Server: x")] [].


(** A peer that sends more than the buffer takes. *)
Definition verbose_peer : Sim.client :=
  Sim.mkClient 1 false []
    [Some (lit "HTTP/1.1 200 OK" ++ LF
           :: lit "Content-Type: application/json; charset=utf-8")] [].

(** A peer that accepts the connection and then stays silent. *)
Definition silent_peer : Sim.client := Sim.mkClient 1 false [] [] [].

(** A broker that turns the client away twice. *)
Definition busy_broker : Mqtt.machine Sim.broker :=
  Mqtt.mkMachine (Sim.mkBroker 2 false) [].

(** What the read loop can still get out of a simulated client: what
    sits in its receive buffer, plus one while it is up. *)
Definition sim_budget (w : Sim.client) : nat :=
  (List.length (Sim.rx w) + if Sim.up w then 1 else 0)%nat.

(** All a simulated peer will ever deliver, and one for the connection. *)
Fixpoint pieces_size (feed : list (option Str)) : nat :=
  match feed with
  | [] => 0
  | Some piece :: later => List.length piece + pieces_size later
  | None :: later => pieces_size later
  end.

Definition sim_size (w : Sim.client) : nat :=
  (List.length (Sim.rx w) + pieces_size (Sim.feed w) + 1)%nat.

(* ------------------------------------------------------------------ *)
(** ** More vocabulary: what a call read, and the debug override *)

(** The characters the read() calls of a log returned, in order. *)
Definition reads_of (evs : list Http.event) : list ascii :=
  flat_map (fun e => match e with
                     | Http.EvRead r => [char_of_int r]
                     | _ => []
                     end) evs.

Definition is_connect (e : Http.event) : bool :=
  match e with Http.EvConnect _ _ _ => true | _ => false end.

Definition is_read (e : Http.event) : bool :=
  match e with Http.EvRead _ => true | _ => false end.

(** A pass of the read loop that found [n] bytes waiting and read [r]. *)
Definition pass_events (p : Z * Z) : list Http.event :=
  [Http.EvConnected true; Http.EvAvailable (fst p); Http.EvRead (snd p)].

(** [s] ends with [suffix]. *)
Definition ends_with (suffix s : Str) : Prop :=
  exists front, s = front ++ suffix.

(** The stream the debug header talks to (Serial by default): what
    [http_request] calls on it, and delay(ms). *)
Class Stream (S : Type) : Type := {
  st_available : S -> Z * S;
  st_read : S -> Z * S;
  st_println : Str -> S -> S;
  st_delay : Z -> S -> S
}.

(** The debug override of the network macros:
      #define NETWORK_CONNECT(client, ...) true
      #define NETWORK_CONNECTED(client) false
      #define NETWORK_STOP(client) true
    with the client being the debug stream itself. *)
Definition debug_network {S : Type} (St : Stream S) : Http.NetworkClient S := {|
  Http.net_connect := fun _ _ s => (1, s);
  Http.net_connected := fun s => (false, s);
  Http.net_available := st_available;
  Http.net_read := st_read;
  Http.net_println := st_println;
  Http.net_stop := fun s => s;
  Http.sys_delay := st_delay
|}.

(** A stream that never has anything to read. *)
#[global] Instance mute_stream : Stream unit := {
  st_available := fun s => (0, s);
  st_read := fun s => (-1, s);
  st_println := fun _ s => s;
  st_delay := fun _ s => s
}.

(** A peer that sends more than the buffer takes before its first space. *)
Definition rambling_peer : Sim.client :=
  Sim.mkClient 1 false []
    [Some (lit "HTTP/1.1-with-a-very-long-protocol-token-and-no-blank-yet 200 OK")]
    [].

(** A peer that answers with a bare status line. *)
Definition bare_peer : Sim.client :=
  Sim.mkClient 1 false [] [Some (lit "204 No Content" ++ [LF])] [].

(** A peer whose answer is there at once. *)
Definition prompt_peer : Sim.client :=
  Sim.mkClient 1 false (lit "HTTP/1.1 503 Service Unavailable" ++ [LF]) [] [].

(** A peer that closes the connection without a word. *)
Definition closing_peer : Sim.client :=
  Sim.mkClient 1 false [] [None] [].

(* ------------------------------------------------------------------ *)
(** ** network.h: the MAC address as text *)

Module Network.

Local Open Scope run_scope.

(** The value of a [byte]. *)
Definition byte_value (b : Byte.byte) : Z := Z.of_N (Byte.to_N b).

(** A hexadecimal digit in lower case, as "%x" prints it. *)
Definition hex_digit (d : Z) : ascii :=
  if d <? 10 then ascii_of_N (Z.to_N (48 + d))
  else ascii_of_N (Z.to_N (87 + d)).

(** Hexadecimal digits of [n], most significant first, in front of [acc]. *)
Fixpoint utox_loop (fuel : nat) (n : Z) (acc : Str) : Str :=
  match fuel with
  | O => acc
  | S f =>
      let acc' := hex_digit (n mod 16) :: acc in
      if n / 16 =? 0 then acc' else utox_loop f (n / 16) acc'
  end.

(** What the conversion "%x" prints for an unsigned [n]. *)
Definition utox (n : Z) : Str := utox_loop (S (Z.to_nat n)) n [].

(** The outcome of a memory access, inside a run. *)
Definition lift {S A : Type} (r : result A) : M S A := fun s =>
  match r with
  | Ret a => Ret (a, s)
  | Fault => Fault
  | OutOfFuel => OutOfFuel
  end.

(** [macarr[i]]: outside the array it is a [Fault]. *)
Definition load (macarr : list Byte.byte) (i : Z) : result Byte.byte :=
  if i <? 0 then Fault
  else match nth_error macarr (Z.to_nat i) with
       | Some v => Ret v
       | None => Fault
       end.

(** Reading cell [i] of a [char] array: a [Fault] outside the array and
    on a cell that was never written. *)
Definition peek (arr : Http.buffer) (i : Z) : result ascii :=
  if i <? 0 then Fault
  else match nth_error arr (Z.to_nat i) with
       | Some (Some c) => Ret c
       | _ => Fault
       end.

(** Writing cell [i] of a [char] array: a [Fault] outside the array. *)
Definition poke (arr : Http.buffer) (i : Z) (c : ascii)
  : result Http.buffer :=
  if (0 <=? i) && (i <? Z.of_nat (List.length arr)) then
    Ret (Http.update arr (Z.to_nat i) c)
  else Fault.

Fixpoint write_chars (arr : Http.buffer) (i : Z) (s : Str)
  : result Http.buffer :=
  match s with
  | [] => Ret arr
  | c :: rest =>
      match poke arr i c with
      | Ret arr' => write_chars arr' (i + 1) rest
      | Fault => Fault
      | OutOfFuel => OutOfFuel
      end
  end.

(** [sprintf(hex, "%x", v)]: the digits and the closing NUL, from
    [hex[0]] on. *)
Definition sprintf_x (hex : Http.buffer) (v : Z) : result Http.buffer :=
  write_chars hex 0 (utox v ++ [NUL]).

(** [char hex[3];] *)
Definition fresh_hex : Http.buffer := repeat None 3.

(** [buf[i] = c]; the state of a run is the array [buf] points to. *)
Definition set_buf (i : Z) (c : ascii) : M Http.buffer unit := fun buf =>
  match poke buf i c with
  | Ret buf' => Ret (tt, buf')
  | Fault => Fault
  | OutOfFuel => OutOfFuel
  end.

(** The [for (int i = 0; i < 6; i++)] loop, from [i] on.  [macarr] and
    the local [hex] are objects of their own, apart from [buf]. *)
Fixpoint mac_loop (fuel : nat) (macarr : list Byte.byte) (i : Z)
  : M Http.buffer unit :=
  match fuel with
  | O => out_of_fuel
  | S fuel' =>
      if i <? 6 then
        v <- lift (load macarr i) ;;
        hex <- lift (sprintf_x fresh_hex (byte_value v)) ;;
        h0 <- lift (peek hex 0) ;;
        set_buf (i * 2) h0 ;;
        h1 <- lift (peek hex 1) ;;
        set_buf (i * 2 + 1) h1 ;;
        mac_loop fuel' macarr (to_int (i + 1))
      else ret tt
  end.

(** [_mac2str(buf, macarr)]; the pointer it returns is [buf] again.  The
    loop makes six turns and one last test, which seven units of fuel
    cover. *)
Definition _mac2str (macarr : list Byte.byte) : M Http.buffer unit :=
  mac_loop 7 macarr 0 ;;
  set_buf 12 NUL.

(** [_macstr], the thirteen bytes of malloc(13), none written yet. *)
Definition _macstr : Http.buffer := repeat None 13.

(** [String(_macstr)], the NETWORK_MAC of Ethernet mode and the MAC of
    the debug header, read after [_mac2str(_macstr, macarr)]. *)
Definition mac_string (macarr : list Byte.byte) : result Str :=
  match _mac2str macarr _macstr with
  | Ret (_, buf) =>
      match Http.cstr buf with
      | Some s => Ret s
      | None => Fault
      end
  | Fault => Fault
  | OutOfFuel => OutOfFuel
  end.

(** #define NETWORK_MAC { 0xDE, 0xAD, 0xDE, 0xAD, 0xBE, 0xEF } *)
Definition NETWORK_MAC : list Byte.byte :=
  [Byte.xde; Byte.xad; Byte.xde; Byte.xad; Byte.xbe; Byte.xef].

End Network.

(** The two characters one byte of the address leaves in [buf]: its two
    hexadecimal digits, or, below 16, its one digit and a NUL. *)
Definition hex_hi (v : Byte.byte) : ascii :=
  let n := Network.byte_value v in
  if n <? 16 then Network.hex_digit n else Network.hex_digit (n / 16).

Definition hex_lo (v : Byte.byte) : ascii :=
  let n := Network.byte_value v in
  if n <? 16 then NUL else Network.hex_digit (n mod 16).

Definition pair_chars (v : Byte.byte) : list ascii := [hex_hi v; hex_lo v].

(** A byte in two hexadecimal digits. *)
Definition two_digits (v : Byte.byte) : list ascii :=
  let n := Network.byte_value v in
  [Network.hex_digit (n / 16); Network.hex_digit (n mod 16)].

Definition two_digit_byte (v : Byte.byte) : bool :=
  16 <=? Network.byte_value v.

(* ------------------------------------------------------------------ *)
(** ** network.h in WiFi mode: NETWORK_SETUP and NETWORK_LOOP *)

Module WiFi.

(** An IPAddress: its four octets. *)
Definition IPAddress : Type := (Z * Z * Z * Z)%type.

(** What Serial.print writes for an IPAddress: the octets in decimal,
    with dots between them. *)
Definition ip_text (ip : IPAddress) : Str :=
  let '(a, b, c, d) := ip in
  utoa a ++ lit "." ++ utoa b ++ lit "." ++ utoa c ++ lit "." ++ utoa d.

(** The part of the WiFi object the two macros call, with delay(ms). *)
Class Station (W : Type) : Type := {
  wifi_begin : Str -> Str -> W -> W;   (* begin(ssid, passphrase) *)
  wifi_status : W -> Z * W;            (* status() *)
  wifi_localIP : W -> IPAddress * W;   (* localIP() *)
  wifi_delay : Z -> W -> W             (* delay(ms) *)
}.

(** Calls on the WiFi object, to delay and on Serial, in program
    order. *)
Inductive event : Type :=
| WfBegin (ssid pass : Str)
| WfStatus (st : Z)
| WfLocalIP (ip : IPAddress)
| WfDelay (ms : Z)
| WfSerialPrint (s : Str).

Record machine (W : Type) : Type := mkMachine {
  world : W;
  calls : list event
}.
Arguments mkMachine {W}.
Arguments world {W}.
Arguments calls {W}.

Local Open Scope run_scope.

Section Program.

Context {W : Type} `{Station W}.

(** #define DEBUG_MODE, as debug.h reads it. *)
Variable DEBUG_MODE : Z.

Variables NETWORK_SSID NETWORK_PASSWORD : Str.

(** WL_CONNECTED of the WiFi library's wl_status_t. *)
Variable WL_CONNECTED : Z.

Definition record (e : event) (w : W) (m : machine W) : machine W :=
  mkMachine w (calls m ++ [e]).

Definition begin (ssid pass : Str) : M (machine W) unit := fun m =>
  Ret (tt, record (WfBegin ssid pass) (wifi_begin ssid pass (world m)) m).

Definition status : M (machine W) Z := fun m =>
  let (st, w) := wifi_status (world m) in
  Ret (st, record (WfStatus st) w m).

Definition localIP : M (machine W) IPAddress := fun m =>
  let (ip, w) := wifi_localIP (world m) in
  Ret (ip, record (WfLocalIP ip) w m).

Definition delay (ms : Z) : M (machine W) unit := fun m =>
  Ret (tt, record (WfDelay ms) (wifi_delay ms (world m)) m).

(** Serial is a sink: the text goes to the log and nowhere else. *)
Definition serial_print (s : Str) : M (machine W) unit := fun m =>
  Ret (tt, record (WfSerialPrint s) (world m) m).

(** DBG(msg) of debug.h: Serial.print(msg) when DEBUG_MODE is 1, and
    nothing at all otherwise. *)
Definition DBG (msg : Str) : M (machine W) unit :=
  if DEBUG_MODE =? 1 then serial_print msg else ret tt.

(** DBG(NETWORK_IP), NETWORK_IP being WiFi.localIP(): the argument is
    evaluated only where DBG prints. *)
Definition DBG_NETWORK_IP : M (machine W) unit :=
  if DEBUG_MODE =? 1 then
    ip <- localIP ;;
    serial_print (ip_text ip)
  else ret tt.

(** The [while (WiFi.status() != WL_CONNECTED)] loop of NETWORK_SETUP. *)
Fixpoint status_loop (fuel : nat) : M (machine W) unit :=
  match fuel with
  | O => out_of_fuel
  | S fuel' =>
      st <- status ;;
      if negb (st =? WL_CONNECTED) then
        delay 500 ;;
        DBG (lit "Connecting to WiFi..." ++ [LF]) ;;
        status_loop fuel'
      else ret tt
  end.

Definition NETWORK_SETUP (fuel : nat) : M (machine W) unit :=
  begin NETWORK_SSID NETWORK_PASSWORD ;;
  status_loop fuel ;;
  DBG (lit "Connected to the WiFi network" ++ [LF]) ;;
  DBG (lit "IP: ") ;;
  DBG_NETWORK_IP ;;
  DBG [LF].

Definition NETWORK_LOOP (fuel : nat) : M (machine W) unit :=
  st <- status ;;
  if negb (st =? WL_CONNECTED) then
    DBG (lit "Disconnected Wifi... Trying to reconnect..." ++ [LF]) ;;
    NETWORK_SETUP fuel
  else ret tt.

End Program.

End WiFi.

(** A station that is connected once it has been given [w] more delays;
    its status is 3 when connected and 6 before. *)
#[global] Instance countdown_station : WiFi.Station nat := {
  WiFi.wifi_begin := fun _ _ w => w;
  WiFi.wifi_status := fun w => ((if (w =? 0)%nat then 3 else 6), w);
  WiFi.wifi_localIP := fun w => ((192, 168, 1, 155), w);
  WiFi.wifi_delay := fun _ w => Nat.pred w
}.

(** A station that stays out of reach. *)
Definition lost_station : WiFi.Station unit := {|
  WiFi.wifi_begin := fun _ _ w => w;
  WiFi.wifi_status := fun w => (6, w);
  WiFi.wifi_localIP := fun w => ((0, 0, 0, 0), w);
  WiFi.wifi_delay := fun _ w => w
|}.

(** What DBG(msg) adds to the log. *)
Definition dbg_events (DEBUG_MODE : Z) (msg : Str) : list WiFi.event :=
  if DEBUG_MODE =? 1 then [WiFi.WfSerialPrint msg] else [].

(** The polls of NETWORK_SETUP that found the station not connected,
    each with its delay and its debug message. *)
Definition failed_polls (DEBUG_MODE : Z) (failed : list Z)
  : list WiFi.event :=
  flat_map (fun st =>
              [WiFi.WfStatus st; WiFi.WfDelay 500]
              ++ dbg_events DEBUG_MODE (lit "Connecting to WiFi..." ++ [LF]))
           failed.

(** What NETWORK_SETUP does once connected: with DEBUG_MODE 1, four
    prints and the localIP() call whose answer the third one prints;
    nothing otherwise. *)
Definition connected_report (DEBUG_MODE : Z) (ip : WiFi.IPAddress)
  : list WiFi.event :=
  if DEBUG_MODE =? 1 then
    [WiFi.WfSerialPrint (lit "Connected to the WiFi network" ++ [LF]);
     WiFi.WfSerialPrint (lit "IP: ");
     WiFi.WfLocalIP ip;
     WiFi.WfSerialPrint (WiFi.ip_text ip);
     WiFi.WfSerialPrint [LF]]
  else [].

(** The whole log of a NETWORK_SETUP that went through the [failed]
    polls. *)
Definition wifi_setup_events (DEBUG_MODE : Z) (ssid pass : Str)
           (WL_CONNECTED : Z) (failed : list Z) (ip : WiFi.IPAddress)
  : list WiFi.event :=
  WiFi.WfBegin ssid pass
  :: failed_polls DEBUG_MODE failed
  ++ [WiFi.WfStatus WL_CONNECTED]
  ++ connected_report DEBUG_MODE ip.

(** Making the calls of a log on the station again, from the state [w]:
    the state they leave it in, provided each answer in the log is the
    answer the station gives; [None] otherwise. *)
Fixpoint wifi_replay {W} {St : WiFi.Station W} (w : W)
                     (evs : list WiFi.event) : option W :=
  match evs with
  | [] => Some w
  | WiFi.WfBegin ssid pass :: rest =>
      wifi_replay (WiFi.wifi_begin ssid pass w) rest
  | WiFi.WfStatus st :: rest =>
      let (st', w') := WiFi.wifi_status w in
      if st =? st' then wifi_replay w' rest else None
  | WiFi.WfLocalIP (a, b, c, d) :: rest =>
      let '((a', b', c', d'), w') := WiFi.wifi_localIP w in
      if (a =? a') && (b =? b') && (c =? c') && (d =? d')
      then wifi_replay w' rest else None
  | WiFi.WfDelay ms :: rest => wifi_replay (WiFi.wifi_delay ms w) rest
  | WiFi.WfSerialPrint _ :: rest => wifi_replay w rest
  end.

(* ------------------------------------------------------------------ *)
(** ** MQTT mode: REQUEST_LOOP and REQUEST_SEND *)

Module MqttSession.

(** What the two macros call on the PubSubClient beyond REQUEST_SETUP. *)
Class Publisher (W : Type) : Type := {
  mq_loop : W -> bool * W;                    (* loop() *)
  mq_publish : Str -> Str -> W -> bool * W    (* publish(topic, payload) *)
}.

(** The calls of REQUEST_SETUP, the two new ones, and what DBG prints to
    Serial. *)
Inductive event : Type :=
| Setup (e : Mqtt.event)
| Loop (ok : bool)
| Publish (topic payload : Str) (ok : bool)
| SerialPrint (s : Str).

Record machine (W : Type) : Type := mkMachine {
  world : W;
  calls : list event
}.
Arguments mkMachine {W}.
Arguments world {W}.
Arguments calls {W}.

Local Open Scope run_scope.

Section Program.

Context {W : Type} {C : Mqtt.PubSubClient W} {P : Publisher W}.

Variables REQUEST_URL REQUEST_PATH REQUEST_CLIENT_ID
          REQUEST_USERNAME REQUEST_PASSWORD : Str.
Variable REQUEST_PORT : Z.

(** REQUEST_SETUP, run on the client of this machine. *)
Definition REQUEST_SETUP (fuel : nat) : M (machine W) unit := fun m =>
  match Mqtt.REQUEST_SETUP REQUEST_URL REQUEST_CLIENT_ID REQUEST_USERNAME
                           REQUEST_PASSWORD REQUEST_PORT fuel
                           (Mqtt.mkMachine (world m) []) with
  | Ret (_, s) =>
      Ret (tt, mkMachine (Mqtt.world s) (calls m ++ map Setup (Mqtt.calls s)))
  | Fault => Fault
  | OutOfFuel => OutOfFuel
  end.

Definition loop : M (machine W) bool := fun m =>
  let (ok, w) := mq_loop (world m) in
  Ret (ok, mkMachine w (calls m ++ [Loop ok])).

Definition publish (topic payload : Str) : M (machine W) bool := fun m =>
  let (ok, w) := mq_publish topic payload (world m) in
  Ret (ok, mkMachine w (calls m ++ [Publish topic payload ok])).

(** REQUEST_LOOP(client): [REQUEST_SETUP(client); client.loop()] *)
Definition REQUEST_LOOP (fuel : nat) : M (machine W) bool :=
  REQUEST_SETUP fuel ;;
  loop.

(** #define DEBUG_MODE, as debug.h reads it. *)
Variable DEBUG_MODE : Z.

(** DBG(msg) of debug.h: Serial.print(msg) when DEBUG_MODE is 1, and
    nothing at all otherwise.  Serial is a sink. *)
Definition DBG (msg : Str) : M (machine W) unit := fun m =>
  if DEBUG_MODE =? 1 then
    Ret (tt, mkMachine (world m) (calls m ++ [SerialPrint msg]))
  else Ret (tt, m).

(** REQUEST_SEND(client, data): [client.publish(REQUEST_PATH,
    data.c_str()); DBG("Sent " + data + ...)].  The payload is what a
    reader of the C string sees, and the value is that of publish, the
    first of the two statements. *)
Definition REQUEST_SEND (data : Str) : M (machine W) bool :=
  sent <- publish REQUEST_PATH (c_string data) ;;
  DBG (lit "Sent " ++ data ++ lit " to " ++ REQUEST_PATH
       ++ lit " topic on " ++ REQUEST_URL ++ [LF]) ;;
  ret sent.

End Program.

End MqttSession.

(** The simulated broker takes what it is sent while it is online. *)
#[global] Instance broker_is_publisher : MqttSession.Publisher Sim.broker := {
  MqttSession.mq_loop := fun w => (Sim.online w, w);
  MqttSession.mq_publish := fun _ _ w => (Sim.online w, w)
}.

(** A broker that takes no connection at all; its state() is -2. *)
Definition deaf_broker : Mqtt.PubSubClient unit := {|
  Mqtt.mq_setServer := fun _ _ w => w;
  Mqtt.mq_connected := fun w => (false, w);
  Mqtt.mq_connect := fun _ _ _ w => (false, w);
  Mqtt.mq_state := fun w => (-2, w);
  Mqtt.mq_delay := fun _ w => w
|}.



(* ------------------------------------------------------------------ *)
(** * Proofs *)

(** ** Machine integers *)

Lemma to_byte_small z : 0 <= z < 256 -> to_byte z = z.
Proof. intros Hz. unfold to_byte, BYTE_MOD. now apply Z.mod_small. Qed.

Lemma to_byte_minus_one : to_byte (-1) = 255.
Proof. reflexivity. Qed.

Lemma to_int_small z : INT_MIN <= z <= INT_MAX -> to_int z = z.
Proof.
  unfold to_int, INT_MIN, INT_MAX. intros Hz.
  rewrite Z.mod_small; lia.
Qed.

Lemma clamp_long_range z : LONG_MIN <= clamp_long z <= LONG_MAX.
Proof.
  unfold clamp_long, LONG_MIN, LONG_MAX, INT_MIN, INT_MAX.
  destruct (Z.ltb_spec z (-2147483648)); [lia|].
  destruct (Z.ltb_spec 2147483647 z); lia.
Qed.

Lemma clamp_long_nonneg z : 0 <= z -> 0 <= clamp_long z.
Proof.
  unfold clamp_long, LONG_MIN, LONG_MAX, INT_MIN, INT_MAX. intros Hz.
  destruct (Z.ltb_spec z (-2147483648)); [lia|].
  destruct (Z.ltb_spec 2147483647 z); lia.
Qed.

(** ** Characters and strings *)

Lemma code_char_of_small z : 0 <= z < 256 -> code (ascii_of_N (Z.to_N z)) = z.
Proof.
  intros Hz. unfold code. rewrite N_ascii_embedding by lia. lia.
Qed.

Lemma equals_eq a b : equals a b = true <-> a = b.
Proof.
  revert b. induction a as [|x a IH]; intros [|y b]; simpl;
    try (split; [discriminate | discriminate]); try tauto.
  rewrite andb_true_iff, Ascii.eqb_eq, IH. split.
  - intros [-> ->]. reflexivity.
  - intros E. inversion E. auto.
Qed.

Lemma equals_neq a b : equals a b = false <-> a <> b.
Proof.
  rewrite <- equals_eq. destruct (equals a b); split; congruence.
Qed.

Lemma length_nonneg (s : Str) : 0 <= length s.
Proof. unfold length. lia. Qed.

Lemma length_app (a b : Str) : length (a ++ b) = length a + length b.
Proof. unfold length. rewrite List.length_app. lia. Qed.

Lemma length_cons c (s : Str) : length (c :: s) = 1 + length s.
Proof. unfold length. simpl List.length. lia. Qed.

(** Absence of a character, by running the check. *)
Lemma absent_by_check (c : ascii) (s : Str) :
  existsb (Ascii.eqb c) s = false -> ~ In c s.
Proof.
  intros Hcheck Hin.
  assert (Hex : existsb (Ascii.eqb c) s = true).
  { apply existsb_exists. exists c. split; [exact Hin | apply Ascii.eqb_refl]. }
  congruence.
Qed.


(** *** indexOf for the one-character needle " " *)

Lemma find_space_cons c hay pos :
  find_from (lit " ") (c :: hay) pos
  = if Ascii.eqb SPACE c then pos else find_from (lit " ") hay (pos + 1).
Proof.
  unfold lit, SPACE. cbn [list_ascii_of_string find_from starts_with].
  destruct hay; now rewrite andb_true_r.
Qed.

Lemma find_space_absent hay pos :
  ~ In SPACE hay -> find_from (lit " ") hay pos = -1.
Proof.
  revert pos. induction hay as [|c hay IH]; intros pos Hno.
  - reflexivity.
  - rewrite find_space_cons.
    destruct (Ascii.eqb_spec SPACE c) as [E|E].
    + exfalso. apply Hno. left. symmetry. exact E.
    + apply IH. intros Hin. apply Hno. now right.
Qed.

Lemma find_space_first token rest pos :
  ~ In SPACE token ->
  find_from (lit " ") (token ++ SPACE :: rest) pos = pos + length token.
Proof.
  revert pos. induction token as [|c token IH]; intros pos Hno.
  - cbn [app]. rewrite find_space_cons, Ascii.eqb_refl.
    unfold length. simpl. lia.
  - cbn [app]. rewrite find_space_cons.
    destruct (Ascii.eqb_spec SPACE c) as [E|E].
    + exfalso. apply Hno. left. symmetry. exact E.
    + rewrite IH.
      * rewrite length_cons. lia.
      * intros Hin. apply Hno. now right.
Qed.


(** *** substring *)

Lemma firstn_min_length {A} n (l : list A) :
  firstn (Nat.min n (List.length l)) l = firstn n l.
Proof.
  destruct (Nat.le_ge_cases n (List.length l)) as [Hle|Hge].
  - now rewrite Nat.min_l.
  - rewrite Nat.min_r by assumption.
    rewrite firstn_all. symmetry. now apply firstn_all2.
Qed.

Lemma substring_prefix token rest :
  substring (token ++ rest) 0 (length token) = token.
Proof.
  unfold substring.
  pose proof (length_nonneg token) as Ht.
  rewrite Z.min_l, Z.max_r by lia.
  destruct (Z.leb_spec (length (token ++ rest)) 0) as [Hz|Hz].
  - rewrite length_app in Hz. pose proof (length_nonneg rest).
    assert (E : length token = 0) by lia.
    unfold length in E. destruct token; [reflexivity | simpl in E; lia].
  - rewrite length_app. pose proof (length_nonneg rest).
    rewrite Z.min_l by lia. simpl skipn. rewrite Z.sub_0_r.
    unfold length. rewrite Nat2Z.id.
    rewrite firstn_app, Nat.sub_diag, firstn_all. simpl. now rewrite app_nil_r.
Qed.

Lemma substring_after token c rest :
  substring (token ++ c :: rest) (length token + 1) (length token + 1 + 3)
  = firstn 3 rest.
Proof.
  unfold substring.
  pose proof (length_nonneg token) as Ht.
  pose proof (length_nonneg rest) as Hr.
  rewrite Z.min_l, Z.max_r by lia.
  rewrite length_app, length_cons.
  destruct (Z.leb_spec (length token + (1 + length rest)) (length token + 1))
    as [Hz|Hz].
  - assert (E : length rest = 0) by lia.
    unfold length in E. destruct rest; [reflexivity | simpl in E; lia].
  - assert (Hs : skipn (Z.to_nat (length token + 1)) (token ++ c :: rest) = rest).
    { unfold length. replace (Z.to_nat (Z.of_nat (List.length token) + 1))
        with (List.length token + 1)%nat by lia.
      rewrite skipn_app.
      rewrite skipn_all2 by lia.
      replace (List.length token + 1 - List.length token)%nat with 1%nat by lia.
      reflexivity. }
    rewrite Hs.
    replace (Z.to_nat (Z.min (length token + 1 + 3)
                             (length token + (1 + length rest))
                       - (length token + 1)))
      with (Nat.min 3 (List.length rest)) by (unfold length in *; lia).
    apply firstn_min_length.
Qed.

(** *** toInt *)

Lemma digits_from_nonneg s acc : 0 <= acc -> 0 <= digits_from acc s.
Proof.
  revert acc. induction s as [|c s IH]; intros acc Hacc; simpl.
  - exact Hacc.
  - destruct (isdigit c) eqn:Hd; [|exact Hacc].
    apply IH. unfold isdigit in Hd.
    apply andb_true_iff in Hd. destruct Hd as [Hlo _].
    apply Z.leb_le in Hlo. lia.
Qed.

Lemma toInt_range s : LONG_MIN <= toInt s <= LONG_MAX.
Proof.
  unfold toInt, strtol10.
  destruct (skip_space s) as [|c rest].
  - unfold LONG_MIN, LONG_MAX, INT_MIN, INT_MAX. lia.
  - destruct (Ascii.eqb c "-"); [apply clamp_long_range|].
    destruct (Ascii.eqb c "+"); apply clamp_long_range.
Qed.

Lemma to_int_toInt s : to_int (toInt s) = toInt s.
Proof. apply to_int_small. apply toInt_range. Qed.

Lemma skip_space_suffix s c rest : skip_space s = c :: rest -> In c s.
Proof.
  induction s as [|x s IH]; simpl; intros E.
  - discriminate.
  - destruct (isspace x).
    + right. now apply IH.
    + inversion E. now left.
Qed.

(** Without a minus sign in sight the value is never negative. *)
Lemma toInt_nonneg s : ~ In "-"%char s -> 0 <= toInt s.
Proof.
  intros Hno. unfold toInt, strtol10.
  destruct (skip_space s) as [|c rest] eqn:E; [lia|].
  destruct (Ascii.eqb_spec c "-") as [Hc|Hc].
  - exfalso. apply Hno. subst c. eapply skip_space_suffix. exact E.
  - destruct (Ascii.eqb c "+"); apply clamp_long_nonneg;
      apply digits_from_nonneg; lia.
Qed.

(** *** utoa *)

Lemma digit_char_code d : 0 <= d <= 9 -> code (digit_char d) = 48 + d.
Proof.
  intros Hd. unfold digit_char. apply code_char_of_small. lia.
Qed.

Lemma digit_char_isdigit d : 0 <= d <= 9 -> isdigit (digit_char d) = true.
Proof.
  intros Hd. unfold isdigit. rewrite digit_char_code by assumption.
  apply andb_true_iff. split; apply Z.leb_le; lia.
Qed.

Lemma digits_from_digit acc d rest :
  0 <= d <= 9 ->
  digits_from acc (digit_char d :: rest) = digits_from (acc * 10 + d) rest.
Proof.
  intros Hd. cbn [digits_from].
  rewrite digit_char_isdigit, digit_char_code by assumption.
  f_equal. lia.
Qed.

(** The loop puts the decimal digits of [n] in front of [acc]: reading
    them back after any accumulated value [a] gives [a * k + n], where [k]
    is the power of ten of their number. *)
Lemma utoa_loop_digits fuel :
  forall n acc, 0 <= n < Z.of_nat fuel ->
  exists ds k,
    utoa_loop fuel n acc = ds ++ acc /\
    ds <> [] /\
    forallb isdigit ds = true /\
    forall a rest, digits_from a (ds ++ rest) = digits_from (a * k + n) rest.
Proof.
  induction fuel as [|fuel IH]; intros n acc Hn; [lia|].
  cbn [utoa_loop].
  assert (Hmod : 0 <= n mod 10 <= 9) by (pose proof (Z.mod_pos_bound n 10); lia).
  destruct (Z.eqb_spec (n / 10) 0) as [Hq|Hq].
  - exists [digit_char (n mod 10)], 10. repeat split.
    + discriminate.
    + cbn [forallb]. now rewrite digit_char_isdigit.
    + intros a rest. cbn [app]. rewrite digits_from_digit by assumption.
      f_equal. pose proof (Z.div_mod n 10). lia.
  - assert (Hq' : 0 <= n / 10 < Z.of_nat fuel).
    { split; [apply Z.div_pos; lia|].
      assert (Hpos : 0 < n).
      { destruct (Z.eq_dec n 0) as [->|]; [now compute in Hq | lia]. }
      assert (n / 10 < n) by (apply Z.div_lt; lia). lia. }
    destruct (IH (n / 10) (digit_char (n mod 10) :: acc) Hq')
      as (ds & k & E & _ & Hall & Hval).
    exists (ds ++ [digit_char (n mod 10)]), (k * 10). repeat split.
    + rewrite E, <- app_assoc. reflexivity.
    + destruct ds; discriminate.
    + rewrite forallb_app, Hall. cbn [forallb].
      now rewrite digit_char_isdigit.
    + intros a rest. rewrite <- app_assoc. cbn [app].
      rewrite Hval, digits_from_digit by assumption.
      f_equal. pose proof (Z.div_mod n 10). lia.
Qed.

(** [utoa n] is a non-empty string of decimal digits whose value is [n]. *)
Lemma utoa_decimal n :
  0 <= n ->
  utoa n <> [] /\ forallb isdigit (utoa n) = true /\ digits_from 0 (utoa n) = n.
Proof.
  intros Hn. unfold utoa.
  destruct (utoa_loop_digits (S (Z.to_nat n)) n []) as (ds & k & E & Hne & Hall & Hval);
    [lia|].
  rewrite E, app_nil_r. repeat split; try assumption.
  specialize (Hval 0 []). rewrite app_nil_r in Hval. rewrite Hval. reflexivity.
Qed.

(** ** The parse phase *)

Lemma parse_status_no_space header :
  ~ In SPACE header -> Http.parse_status header = 0.
Proof.
  intros Hno. unfold Http.parse_status, indexOf.
  rewrite find_space_absent by assumption.
  rewrite to_byte_minus_one. reflexivity.
Qed.

Lemma parse_status_split token rest :
  ~ In SPACE token ->
  length (token ++ SPACE :: rest) <= Http._HEADER_LEN ->
  Http.parse_status (token ++ SPACE :: rest)
  = if toInt token =? 0 then toInt (firstn 3 rest) else toInt token.
Proof.
  intros Hno Hlen. unfold Http.parse_status, indexOf.
  rewrite find_space_first by assumption.
  rewrite length_app, length_cons in Hlen.
  pose proof (length_nonneg token) as Ht.
  pose proof (length_nonneg rest) as Hr.
  unfold Http._HEADER_LEN in *.
  rewrite Z.add_0_l, to_byte_small by lia.
  destruct (Z.eqb_spec (length token) (-1)) as [E|_]; [lia|].
  destruct (Z.gtb_spec (length token) 49) as [E|_]; [lia|].
  cbn [orb].
  rewrite substring_prefix, substring_after, !to_int_toInt.
  reflexivity.
Qed.

(** ** Running the machine *)

Lemma bind_Ret {S A B} (c : M S A) (k : A -> M S B) m b m' :
  bind c k m = Ret (b, m') ->
  exists a m1, c m = Ret (a, m1) /\ k a m1 = Ret (b, m').
Proof.
  unfold bind. destruct (c m) as [[a m1]| |]; try discriminate. eauto.
Qed.

Lemma count_app {E} (p : E -> bool) a b :
  count p (a ++ b) = count p a + count p b.
Proof. unfold count. rewrite filter_app, List.length_app. lia. Qed.

Lemma count_nonneg {E} (p : E -> bool) evs : 0 <= count p evs.
Proof. unfold count. lia. Qed.

Lemma wait_trace_counts b evs :
  wait_trace b evs ->
  count is_stop evs = 0 /\ count is_println evs = 0 /\ 1 <= count is_idle_poll evs + (if b then 0 else 1).
Proof.
  induction 1 as [n Hn | | b evs _ (IH1 & IH2 & IH3)].
  - split; [reflexivity | split; [reflexivity | ]].
    pose proof (count_nonneg is_idle_poll [Http.EvAvailable n]). lia.
  - split; [reflexivity | split; [reflexivity | ]].
    unfold count. cbn. lia.
  - change (Http.EvAvailable 0 :: Http.EvDelay 1 :: evs)
      with ([Http.EvAvailable 0; Http.EvDelay 1] ++ evs).
    rewrite !count_app, IH1, IH2.
    split; [reflexivity | split; [reflexivity | ]].
    pose proof (count_nonneg is_idle_poll [Http.EvAvailable 0; Http.EvDelay 1]).
    lia.
Qed.

(** In the read phase stop is called once per idle poll, and nothing is
    written or slept. *)
Lemma read_trace_counts evs :
  read_trace evs ->
  count is_stop evs = count is_idle_poll evs /\
  count is_println evs = 0 /\
  count is_delay evs = 0.
Proof.
  induction 1 as [| n r evs Hn _ (IH1 & IH2 & IH3) | evs _ (IH1 & IH2 & IH3)].
  - repeat split; reflexivity.
  - change (Http.EvConnected true :: Http.EvAvailable n :: Http.EvRead r :: evs)
      with ([Http.EvConnected true; Http.EvAvailable n; Http.EvRead r] ++ evs).
    rewrite !count_app, IH1, IH2, IH3. repeat split; try reflexivity.
    f_equal. unfold count. cbn.
    destruct (Z.eqb_spec n 0); [contradiction | reflexivity].
  - change (Http.EvConnected true :: Http.EvAvailable 0 :: Http.EvStop :: evs)
      with ([Http.EvConnected true; Http.EvAvailable 0; Http.EvStop] ++ evs).
    rewrite !count_app, IH1, IH2, IH3. repeat split; reflexivity.
Qed.

(** ** The header buffer *)

Lemma update_at_end (bytes : list ascii) c x (rest : Http.buffer) :
  Http.update (map Some bytes ++ x :: rest) (List.length bytes) c
  = map Some bytes ++ Some c :: rest.
Proof.
  induction bytes as [|b bytes IH]; cbn [map app List.length Http.update].
  - reflexivity.
  - now rewrite IH.
Qed.

Lemma image_unfold bytes :
  (List.length bytes <= 49)%nat ->
  image bytes = map Some bytes ++ None :: repeat None (49 - List.length bytes).
Proof.
  intros Hlen. unfold image. f_equal.
  change (Z.to_nat (Http._HEADER_LEN + 1)) with 50%nat.
  replace (50 - List.length bytes)%nat with (S (49 - List.length bytes)) by lia.
  reflexivity.
Qed.

Lemma update_image bytes c :
  (List.length bytes < 49)%nat ->
  Http.update (image bytes) (List.length bytes) c = image (bytes ++ [c]).
Proof.
  intros Hlen. rewrite image_unfold by lia. rewrite update_at_end.
  rewrite image_unfold by (rewrite List.length_app; simpl; lia).
  rewrite map_app, <- app_assoc. cbn [map app]. do 2 f_equal.
  rewrite List.length_app. simpl List.length.
  replace (49 - List.length bytes)%nat
    with (S (49 - (List.length bytes + 1))) by lia.
  reflexivity.
Qed.

(** A NUL right after [bytes] makes the array read as [c_string bytes],
    whatever the cells behind it hold. *)
Lemma cstr_terminated bytes (rest : Http.buffer) :
  Http.cstr (map Some bytes ++ Some NUL :: rest) = Some (c_string bytes).
Proof.
  induction bytes as [|b bytes IH]; cbn [map app Http.cstr c_string].
  - now rewrite Ascii.eqb_refl.
  - destruct (Ascii.eqb b NUL); [reflexivity|].
    rewrite IH. reflexivity.
Qed.

Lemma c_string_length bytes : length (c_string bytes) <= length bytes.
Proof.
  induction bytes as [|b bytes IH]; cbn [c_string].
  - lia.
  - destruct (Ascii.eqb b NUL).
    + pose proof (length_nonneg (b :: bytes)). unfold length at 1. simpl. lia.
    + rewrite !length_cons. lia.
Qed.

Lemma c_string_incl bytes c : In c (c_string bytes) -> In c bytes.
Proof.
  induction bytes as [|b bytes IH]; cbn [c_string]; [tauto|].
  destruct (Ascii.eqb b NUL); [intros []|].
  intros [E|Hin]; [now left | right; auto].
Qed.

Lemma c_string_no_nul bytes : ~ In NUL bytes -> c_string bytes = bytes.
Proof.
  induction bytes as [|b bytes IH]; cbn [c_string]; intros Hno; [reflexivity|].
  destruct (Ascii.eqb_spec b NUL) as [E|E].
  - exfalso. apply Hno. now left.
  - f_equal. apply IH. intros Hin. apply Hno. now right.
Qed.

(** ** The loops of http_request, for any client *)

Section Loops.

Import Http.
Context {W : Type} {C : NetworkClient W}.
Variable REQUEST_REPLY_WAIT : Z.

Lemma read_loop_run fuel :
  forall bytes m,
    (List.length bytes <= 49)%nat ->
    read_loop_post bytes m (read_loop fuel (image bytes) (length bytes) m).
Proof.
  induction fuel as [|fuel IH]; intros bytes m Hlen; [exact I|].
  cbn [read_loop]. unfold bind at 1, connected.
  destruct (net_connected (world m)) as [up w1] eqn:Hup.
  destruct up.
  2:{ cbn. exists [EvConnected false], [].
      rewrite app_nil_r, Hup. cbn [stored_from]. rewrite app_nil_r.
      repeat split; auto. constructor. }
  unfold bind at 1, available. cbn [world record].
  destruct (net_available w1) as [n w2].
  destruct (Z.eqb_spec n 0) as [Hn|Hn]; cbn [negb].
  - (* nothing to read: stop, and around again *)
    unfold bind at 1, stop. cbn [world record].
    match goal with |- read_loop_post _ _ (read_loop _ _ _ ?m2) =>
      specialize (IH bytes m2 Hlen);
      destruct (read_loop fuel (image bytes) (length bytes) m2)
        as [[[buf' i'] m']| |]; try exact IH
    end.
    destruct IH as (evs & more & Hc & Ht & Hw & Hl & Hb & Hi & Hs & _).
    cbn [calls _wait stores record] in Hc, Hw, Hs.
    exists (EvConnected true :: EvAvailable n :: EvStop :: evs), more.
    rewrite Hc, Hup, <- !app_assoc. subst n.
    repeat split; auto. now constructor.
  - (* a byte *)
    unfold bind at 1, read. cbn [world record].
    destruct (net_read w2) as [r w3].
    destruct (Z.ltb_spec (length bytes) _HEADER_LEN) as [Hroom|Hfull].
    + unfold _HEADER_LEN in Hroom. unfold length in Hroom.
      unfold bind at 1, store.
      replace ((0 <=? length bytes) && (length bytes <? _HEADER_LEN + 1))
        with true.
      2:{ symmetry. apply andb_true_iff. unfold length, _HEADER_LEN.
          split; [apply Z.leb_le | apply Z.ltb_lt]; lia. }
      cbn [world _wait calls stores record].
      assert (Hlen' : (List.length (bytes ++ [char_of_int r]) <= 49)%nat)
        by (rewrite List.length_app; simpl; lia).
      assert (Hi' : to_byte (length bytes + 1)
                    = length (bytes ++ [char_of_int r])).
      { rewrite length_app. unfold length. simpl List.length.
        rewrite to_byte_small; lia. }
      unfold length at 1. rewrite Nat2Z.id, update_image by lia.
      rewrite Hi'.
      match goal with |- read_loop_post _ _ (read_loop _ _ _ ?m2) =>
        specialize (IH (bytes ++ [char_of_int r]) m2 Hlen');
        destruct (read_loop fuel (image (bytes ++ [char_of_int r]))
                            (length (bytes ++ [char_of_int r])) m2)
          as [[[buf' i'] m']| |]; try exact IH
      end.
      destruct IH as (evs & more & Hc & Ht & Hw & Hl & Hb & Hi & Hs & _).
      cbn [calls _wait stores record] in Hc, Hw, Hs.
      exists (EvConnected true :: EvAvailable n :: EvRead r :: evs),
             (char_of_int r :: more).
      rewrite <- app_assoc in Hl, Hb, Hi. cbn [app] in Hl, Hb, Hi.
      rewrite Hc, Hs, Hup, <- !app_assoc. cbn [app stored_from].
      rewrite (length_app bytes [char_of_int r]).
      change (length [char_of_int r]) with 1.
      repeat split; auto. now constructor.
    + (* the buffer is full: the byte is dropped *)
      match goal with |- read_loop_post _ _ (read_loop _ _ _ ?m2) =>
        specialize (IH bytes m2 Hlen);
        destruct (read_loop fuel (image bytes) (length bytes) m2)
          as [[[buf' i'] m']| |]; try exact IH
      end.
      destruct IH as (evs & more & Hc & Ht & Hw & Hl & Hb & Hi & Hs & _).
      cbn [calls _wait stores record] in Hc, Hw, Hs.
      exists (EvConnected true :: EvAvailable n :: EvRead r :: evs), more.
      rewrite Hc, Hup, <- !app_assoc.
      repeat split; auto. now constructor.
Qed.

Lemma wait_loop_run fuel :
  forall m, wait_loop_post m (wait_loop REQUEST_REPLY_WAIT fuel m).
Proof.
  induction fuel as [|fuel IH]; intros m; [exact I|].
  cbn [wait_loop]. unfold bind at 1, available.
  destruct (net_available (world m)) as [n w1].
  destruct (Z.eqb_spec n 0) as [Hn|Hn].
  2:{ cbn. exists [EvAvailable n]. repeat split; auto. now constructor. }
  subst n.
  unfold bind at 1, delay. cbn [world record].
  unfold bind at 1, wait_post_increment. cbn [world _wait calls stores record].
  destruct (_wait m >? REQUEST_REPLY_WAIT).
  - cbn. exists [EvAvailable 0; EvDelay 1].
    rewrite <- app_assoc. repeat split; auto. constructor.
  - match goal with |- wait_loop_post _ (wait_loop _ _ ?m2) =>
      specialize (IH m2);
      destruct (wait_loop REQUEST_REPLY_WAIT fuel m2) as [[b m']| |];
        try exact IH
    end.
    destruct IH as (evs & Hc & Ht & Hs).
    cbn [calls stores] in Hc, Hs.
    exists (EvAvailable 0 :: EvDelay 1 :: evs).
    rewrite Hc, <- !app_assoc. repeat split; auto. now constructor.
Qed.

Hypothesis wait_in_range : 0 <= REQUEST_REPLY_WAIT <= INT_MAX - 2.

Lemma wait_loop_counter fuel :
  forall m,
    0 <= _wait m <= REQUEST_REPLY_WAIT + 1 ->
    wait_counter_post REQUEST_REPLY_WAIT m
      (wait_loop REQUEST_REPLY_WAIT fuel m).
Proof.
  induction fuel as [|fuel IH]; intros m Hw; [exact I|].
  cbn [wait_loop]. unfold bind at 1, available.
  destruct (net_available (world m)) as [n w1].
  destruct (Z.eqb_spec n 0) as [Hn|Hn].
  2:{ cbn. exists [EvAvailable n]. split; [reflexivity|].
      change (count is_delay [EvAvailable n]) with 0. lia. }
  subst n.
  unfold bind at 1, delay. cbn [world record].
  unfold bind at 1, wait_post_increment. cbn [world _wait calls stores record].
  assert (Hinc : to_int (_wait m + 1) = _wait m + 1).
  { pose proof wait_in_range as Hr. apply to_int_small.
    unfold INT_MIN, INT_MAX in *. lia. }
  rewrite Hinc.
  destruct (Z.gtb_spec (_wait m) REQUEST_REPLY_WAIT) as [Hgt|Hle].
  - cbn. exists [EvAvailable 0; EvDelay 1].
    rewrite <- app_assoc. split; [reflexivity|].
    change (count is_delay [EvAvailable 0; EvDelay 1]) with 1. lia.
  - match goal with |- wait_counter_post _ _ (wait_loop _ _ ?m2) =>
      assert (Hw2 : 0 <= _wait m2 <= REQUEST_REPLY_WAIT + 1)
        by (cbn [_wait]; lia);
      specialize (IH m2 Hw2);
      destruct (wait_loop REQUEST_REPLY_WAIT fuel m2) as [[b m']| |];
        try exact IH
    end.
    destruct IH as (evs & Hc & Hb).
    cbn [calls _wait] in Hc, Hb.
    exists (EvAvailable 0 :: EvDelay 1 :: evs).
    rewrite Hc, <- !app_assoc. split; [reflexivity|].
    change (EvAvailable 0 :: EvDelay 1 :: evs)
      with ([EvAvailable 0; EvDelay 1] ++ evs).
    rewrite count_app.
    change (count is_delay [EvAvailable 0; EvDelay 1]) with 1.
    destruct b; lia.
Qed.

(** The wait loop needs no more passes than the counter allows. *)
Lemma wait_loop_total fuel :
  forall m,
    0 <= _wait m <= REQUEST_REPLY_WAIT + 1 ->
    REQUEST_REPLY_WAIT + 2 - _wait m <= Z.of_nat fuel ->
    exists b m', wait_loop REQUEST_REPLY_WAIT fuel m = Ret (b, m').
Proof.
  induction fuel as [|fuel IH]; intros m Hw Hfuel; [lia|].
  cbn [wait_loop]. unfold bind at 1, available.
  destruct (net_available (world m)) as [n w1].
  destruct (Z.eqb_spec n 0) as [Hn|Hn];
    [|exists false; eexists; reflexivity].
  unfold bind at 1, delay. cbn [world record].
  unfold bind at 1, wait_post_increment. cbn [world _wait calls stores record].
  assert (Hinc : to_int (_wait m + 1) = _wait m + 1).
  { pose proof wait_in_range as Hr. apply to_int_small.
    unfold INT_MIN, INT_MAX in *. lia. }
  rewrite Hinc.
  destruct (Z.gtb_spec (_wait m) REQUEST_REPLY_WAIT) as [Hgt|Hle].
  - exists true. eexists. reflexivity.
  - apply IH; cbn [_wait]; lia.
Qed.

End Loops.

(** ** The phases of http_request, for any client *)

Section Request.

Import Http.
Context {W : Type} {C : NetworkClient W}.
Variable REQUEST_REPLY_WAIT : Z.

Lemma read_header_run fuel m : read_header_post m (read_header fuel m).
Proof.
  unfold read_header. unfold bind at 1.
  pose proof (read_loop_run fuel [] m) as Hloop.
  change (image []) with fresh_buffer in Hloop.
  change (length []) with 0 in Hloop.
  destruct (read_loop fuel fresh_buffer 0 m) as [[[buf i] m1]| |];
    [| apply Hloop; simpl; lia | exact I].
  destruct Hloop as (evs & bytes & Hc & Ht & Hw & Hl & Hb & Hi & Hs & _);
    [simpl; lia|].
  cbn [app] in Hl, Hb, Hi. cbn [fst snd]. subst buf i.
  unfold bind at 1, store.
  replace ((0 <=? length bytes) && (length bytes <? _HEADER_LEN + 1)) with true.
  2:{ symmetry. apply andb_true_iff. unfold length, _HEADER_LEN.
      split; [apply Z.leb_le | apply Z.ltb_lt]; lia. }
  unfold bind at 1, stop. cbn [world _wait calls stores record].
  unfold length at 1. rewrite Nat2Z.id, image_unfold, update_at_end by lia.
  rewrite cstr_terminated. cbn.
  exists evs, bytes. rewrite Hc, Hs, <- !app_assoc.
  repeat split; auto.
Qed.

Lemma http_exchange_Ret fuel request m header m' :
  http_exchange REQUEST_REPLY_WAIT fuel request m = Ret (header, m') ->
  exists b m2,
    wait_loop REQUEST_REPLY_WAIT fuel
      (record (EvPrintln request) (net_println request (world m)) m)
    = Ret (b, m2) /\
    read_header fuel m2 = Ret (header, m').
Proof.
  unfold http_exchange. unfold bind at 1, println.
  intros Hrun. apply bind_Ret in Hrun. destruct Hrun as (b & m2 & Hw & Hr).
  eauto.
Qed.

Lemma http_exchange_run fuel request m :
  http_exchange_post request m
    (http_exchange REQUEST_REPLY_WAIT fuel request m).
Proof.
  unfold http_exchange. unfold bind at 1, println.
  unfold bind at 1.
  match goal with |- context [wait_loop _ _ ?m1] =>
    pose proof (wait_loop_run REQUEST_REPLY_WAIT fuel m1) as Hwait;
    destruct (wait_loop REQUEST_REPLY_WAIT fuel m1) as [[b m2]| |];
      try exact Hwait
  end.
  destruct Hwait as (wevs & Hc & Ht & Hs). cbn [calls stores record] in Hc, Hs.
  pose proof (read_header_run fuel m2) as Hread.
  destruct (read_header fuel m2) as [[header m']| |]; try exact Hread.
  destruct Hread as (revs & bytes & Hc' & Ht' & _ & Hl & Hs' & Hh).
  exists b, wevs, revs, bytes.
  rewrite Hc', Hc, Hs', Hs, <- !app_assoc.
  repeat split; auto.
Qed.

(** The two ways [http_request] returns. *)
Lemma http_request_Ret fuel data method base_url path port hdrs m status m' :
  http_request REQUEST_REPLY_WAIT fuel data method base_url path port hdrs m
  = Ret (status, m') ->
  let r := fst (net_connect base_url port (world m)) in
  let m1 := record (EvConnect base_url port r)
                   (snd (net_connect base_url port (world m))) m in
  (r = 0 /\ status = 0 /\ m' = m1) \/
  (r <> 0 /\
   exists header,
     http_exchange REQUEST_REPLY_WAIT fuel
       (format_request data method base_url path hdrs) m1 = Ret (header, m') /\
     status = parse_status header).
Proof.
  unfold http_request. unfold bind at 1, connect.
  destruct (net_connect base_url port (world m)) as [r w1]. cbn [fst snd].
  destruct (Z.eqb_spec r 0) as [Hr|Hr].
  - unfold ret. intros E. inversion E. left. auto.
  - intros Hrun. apply bind_Ret in Hrun.
    destruct Hrun as (header & m2 & Hx & Hret).
    unfold ret in Hret. inversion Hret. subst. right. eauto.
Qed.

(** No run of [http_request], however short of fuel and whatever the
    client does, ends in a memory fault. *)
Lemma http_request_no_fault fuel data method base_url path port hdrs m :
  http_request REQUEST_REPLY_WAIT fuel data method base_url path port hdrs m
  <> Fault.
Proof.
  unfold http_request. unfold bind at 1, connect.
  destruct (net_connect base_url port (world m)) as [r w1].
  destruct (r =? 0); [discriminate|].
  unfold bind.
  match goal with |- context [http_exchange _ _ ?req ?m1] =>
    pose proof (http_exchange_run fuel req m1) as Hx;
    destruct (http_exchange REQUEST_REPLY_WAIT fuel req m1) as [[h m2]| |]
  end; [discriminate | contradiction | discriminate].
Qed.

End Request.

(** ** What was captured *)

Lemma stored_from_values start bytes :
  map snd (stored_from start bytes) = bytes.
Proof.
  revert start. induction bytes as [|c bytes IH]; intros start;
    cbn [stored_from map snd]; [reflexivity | now rewrite IH].
Qed.

Lemma stored_from_cells start bytes i c :
  In (i, c) (stored_from start bytes) -> start <= i < start + length bytes.
Proof.
  revert start. induction bytes as [|b bytes IH]; intros start;
    cbn [stored_from]; [intros []|].
  rewrite length_cons. pose proof (length_nonneg bytes).
  intros [E|Hin].
  - inversion E. lia.
  - apply IH in Hin. lia.
Qed.

Lemma captured_unique {W} (m m' : Http.machine W) b1 b2 :
  captured m m' b1 -> captured m m' b2 -> b1 = b2.
Proof.
  unfold captured. intros H1 H2. rewrite H1 in H2.
  apply app_inv_head in H2.
  apply (f_equal (map snd)) in H2.
  rewrite !map_app, !stored_from_values in H2. cbn [map snd] in H2.
  now apply app_inj_tail in H2.
Qed.

Lemma http_exchange_captured {W} {C : Http.NetworkClient W}
      RW fuel request (m : Http.machine W) header m' :
  Http.http_exchange RW fuel request m = Ret (header, m') ->
  exists bytes,
    captured m m' bytes /\
    (List.length bytes <= 49)%nat /\
    header = c_string bytes.
Proof.
  intros Hrun. pose proof (http_exchange_run RW fuel request m) as Hpost.
  rewrite Hrun in Hpost.
  destruct Hpost as (b & wevs & revs & bytes & _ & _ & _ & Hl & Hs & Hh).
  exists bytes. auto.
Qed.

Lemma header_fits {W} {C : Http.NetworkClient W}
      RW fuel request (m : Http.machine W) header m' :
  Http.http_exchange RW fuel request m = Ret (header, m') ->
  length header <= Http._HEADER_LEN.
Proof.
  intros Hrun. apply http_exchange_captured in Hrun.
  destruct Hrun as (bytes & _ & Hl & ->).
  pose proof (c_string_length bytes) as Hc.
  unfold Http._HEADER_LEN, length in *. lia.
Qed.

(** [http_request] once connect() has succeeded and the exchange has
    come back with [header]. *)
Lemma http_request_parses {W} {C : Http.NetworkClient W}
      RW fuel data method base_url path port hdrs (m : Http.machine W)
      r w1 header m' :
  Http.net_connect base_url port (Http.world m) = (r, w1) ->
  r <> 0 ->
  Http.http_exchange RW fuel
    (Http.format_request data method base_url path hdrs)
    (Http.record (Http.EvConnect base_url port r) w1 m) = Ret (header, m') ->
  Http.http_request RW fuel data method base_url path port hdrs m
  = Ret (Http.parse_status header, m').
Proof.
  intros Hconn Hr Hx. unfold Http.http_request.
  unfold bind at 1, Http.connect. rewrite Hconn.
  destruct (Z.eqb_spec r 0) as [E|_]; [contradiction|].
  unfold bind. rewrite Hx. reflexivity.
Qed.

(* ------------------------------------------------------------------ *)
(** * The claims *)

(** ** C2: a failed connect *)

(** C2.  Whenever connect() returns 0 (false), [http_request] returns
    status 0 and REQUEST_SEND returns false, for any loop fuel; the only
    call made is that connect: the log gains this one entry, no println
    among them, and the world is left exactly as connect() left it. *)
Theorem connect_failure_returns_zero_without_writing :
  forall (W : Type) (C : Http.NetworkClient W) (RW : Z) (fuel : nat)
         (data method base_url path hdrs : Str) (port : Z)
         (m : Http.machine W) (w1 : W),
    Http.net_connect base_url port (Http.world m) = (0, w1) ->
    exists m',
      Http.http_request RW fuel data method base_url path port hdrs m
      = Ret (0, m') /\
      Http.REQUEST_SEND RW method base_url path hdrs port fuel data m
      = Ret (false, m') /\
      Http.calls m' = Http.calls m ++ [Http.EvConnect base_url port 0] /\
      count is_println (Http.calls m') = count is_println (Http.calls m) /\
      Http.world m' = w1 /\
      Http.stores m' = Http.stores m /\
      Http._wait m' = Http._wait m.
Proof.
  intros W C RW fuel data method base_url path hdrs port m w1 Hconn.
  exists (Http.record (Http.EvConnect base_url port 0) w1 m).
  assert (Hreq : forall p,
             Http.http_request RW fuel data method base_url p port hdrs m
             = Ret (0, Http.record (Http.EvConnect base_url port 0) w1 m)).
  { intros p. unfold Http.http_request. unfold bind at 1, Http.connect.
    rewrite Hconn. reflexivity. }
  split; [apply Hreq|].
  split.
  { unfold Http.REQUEST_SEND. unfold bind. rewrite Hreq. reflexivity. }
  cbn [Http.record Http.calls Http.world Http.stores Http._wait].
  rewrite count_app. change (count is_println [Http.EvConnect base_url port 0]) with 0.
  repeat split; auto. lia.
Qed.

Lemma connect_failure_witness :
  exists m',
    Http.http_request 100 0 (lit "t=21") (lit "POST") (lit "example.org")
                      (lit "/post") 80 (lit "") (Sim.boot unreachable_peer)
    = Ret (0, m') /\
    Http.calls m' = [Http.EvConnect (lit "example.org") 80 0].
Proof.
  destruct (connect_failure_returns_zero_without_writing
              Sim.client Sim.client_is_network_client 100 0%nat
              (lit "t=21") (lit "POST")
              (lit "example.org") (lit "/post") (lit "") 80
              (Sim.boot unreachable_peer) unreachable_peer eq_refl)
    as (m' & Hreq & _ & Hcalls & _).
  exists m'. split; [exact Hreq | exact Hcalls].
Defined.

(** ** C3: no space in the captured header *)

(** C3.  Once connect() has succeeded and the exchange has come back, the
    captured header is at most 49 characters long, and if it holds no space
    [http_request] returns status 0.  The same holds when none of the bytes
    stored in header_str is a space. *)
Theorem header_without_space_gives_zero :
  forall (W : Type) (C : Http.NetworkClient W) (RW : Z) (fuel : nat)
         (data method base_url path hdrs : Str) (port : Z)
         (m : Http.machine W) (r : Z) (w1 : W) (header : Str)
         (m' : Http.machine W),
    Http.net_connect base_url port (Http.world m) = (r, w1) ->
    r <> 0 ->
    Http.http_exchange RW fuel
      (Http.format_request data method base_url path hdrs)
      (Http.record (Http.EvConnect base_url port r) w1 m) = Ret (header, m') ->
    length header <= 49 /\
    (~ In SPACE header ->
     Http.http_request RW fuel data method base_url path port hdrs m
     = Ret (0, m')) /\
    (forall bytes,
        captured m m' bytes -> ~ In SPACE bytes ->
        Http.http_request RW fuel data method base_url path port hdrs m
        = Ret (0, m')).
Proof.
  intros W C RW fuel data method base_url path hdrs port m r w1 header m'
         Hconn Hr Hx.
  pose proof (http_request_parses RW fuel data method base_url path port hdrs
                                  m r w1 header m' Hconn Hr Hx) as Hreq.
  assert (Hzero : ~ In SPACE header ->
                  Http.http_request RW fuel data method base_url path port
                                    hdrs m = Ret (0, m')).
  { intros Hno. rewrite Hreq, parse_status_no_space by assumption.
    reflexivity. }
  split; [exact (header_fits _ _ _ _ _ _ Hx)|].
  split; [exact Hzero|].
  intros bytes Hcap Hno. apply Hzero.
  destruct (http_exchange_captured _ _ _ _ _ _ Hx) as (bytes' & Hcap' & _ & ->).
  assert (bytes' = bytes) by (eapply captured_unique; [exact Hcap' | exact Hcap]).
  subst bytes'. intros Hin. apply Hno. now apply c_string_incl.
Qed.

Lemma header_without_space_witness :
  exists m',
    Http.http_request 3 20 (lit "t=21") (lit "GET") (lit "example.org")
                      (lit "/get") 80 (lit "") (Sim.boot terse_peer)
    = Ret (0, m').
Proof.
  edestruct (fun header m' =>
               header_without_space_gives_zero
                 Sim.client Sim.client_is_network_client 3 20%nat
                 (lit "t=21") (lit "GET") (lit "example.org") (lit "/get")
                 (lit "") 80 (Sim.boot terse_peer) 1 _ header m' eq_refl
                 ltac:(discriminate))
    as (_ & Hzero & _).
  - vm_compute. reflexivity.
  - eexists. apply Hzero. apply absent_by_check. reflexivity.
Defined.

(** ** C1: the status out of a header with a space *)



(** ** C5: the sign of the status *)






(** ** C10: the stores into header_str *)

(** C10.  No run of [http_request] ends in a memory fault, whatever the
    client delivers and however long the run.  When it returns after a
    successful connect, the stores it made are: the captured bytes, at the
    cells 0, 1, 2, ... in turn and all below cell 49; then one NUL, in the
    cell right behind them, which is cell 49 at most.  The header parsed is
    what precedes the first NUL. *)
Theorem header_buffer_stores_in_bounds :
  forall (W : Type) (C : Http.NetworkClient W) (RW : Z) (fuel : nat)
         (data method base_url path hdrs : Str) (port : Z)
         (m : Http.machine W),
    Http.http_request RW fuel data method base_url path port hdrs m <> Fault /\
    forall status m',
      Http.http_request RW fuel data method base_url path port hdrs m
      = Ret (status, m') ->
      (fst (Http.net_connect base_url port (Http.world m)) = 0 /\
       Http.stores m' = Http.stores m) \/
      exists bytes,
        Http.stores m'
        = Http.stores m ++ stored_from 0 bytes ++ [(length bytes, NUL)] /\
        (forall i c, In (i, c) (stored_from 0 bytes) -> 0 <= i < 49) /\
        0 <= length bytes <= 49 /\
        status = Http.parse_status (c_string bytes).
Proof.
  intros W C RW fuel data method base_url path hdrs port m.
  split; [apply http_request_no_fault|].
  intros status m' Hrun.
  apply http_request_Ret in Hrun. cbn zeta in Hrun.
  destruct Hrun as [(Hr & _ & ->) | (Hr & header & Hx & ->)].
  - left. split; [exact Hr | reflexivity].
  - right. apply http_exchange_captured in Hx.
    destruct Hx as (bytes & Hcap & Hl & ->).
    exists bytes. unfold captured in Hcap. cbn [Http.stores Http.record] in Hcap.
    split; [exact Hcap|].
    split; [|split; [unfold length; lia | reflexivity]].
    intros i c Hin. apply stored_from_cells in Hin. unfold length in Hin. lia.
Qed.

Lemma header_buffer_witness :
  exists bytes m',
    Http.http_request 3 80 (lit "t=21") (lit "POST") (lit "example.org")
                      (lit "/post") 80 (lit "") (Sim.boot verbose_peer)
    = Ret (200, m') /\
    Http.stores m' = stored_from 0 bytes ++ [(length bytes, NUL)] /\
    0 <= length bytes <= 49.
Proof.
  destruct (header_buffer_stores_in_bounds
              Sim.client Sim.client_is_network_client 3 80%nat
              (lit "t=21") (lit "POST") (lit "example.org") (lit "/post")
              (lit "") 80 (Sim.boot verbose_peer)) as (_ & Hstores).
  edestruct (Hstores 200) as [(Hrefused & _) | (bytes & Hs & _ & Hl & _)].
  - vm_compute. reflexivity.
  - discriminate Hrefused.
  - exists bytes. eexists. split; [vm_compute; reflexivity|].
    split; [exact Hs | exact Hl].
Defined.

(** ** The request text *)

(** The text of lines 180-195 in one piece. *)
Lemma format_request_eq data method base_url path hdrs :
  Http.format_request data method base_url path hdrs
  = method ++ lit " " ++ path
    ++ (if equals method (lit "GET") then lit "?" ++ data else [])
    ++ lit " HTTP/1.1" ++ [LF]
    ++ lit "Host: " ++ base_url ++ [LF]
    ++ (if equals method (lit "GET") then []
        else lit "Content-Length: " ++ utoa (length data) ++ [LF])
    ++ hdrs
    ++ (if equals method (lit "GET") then [] else LF :: data).
Proof.
  unfold Http.format_request, concat.
  destruct (equals method (lit "GET"));
    destruct (equals hdrs (lit "")) eqn:E; cbn [negb];
    try (apply equals_eq in E; subst hdrs);
    cbn [lit list_ascii_of_string];
    repeat (first [rewrite <- app_assoc | rewrite app_nil_r
                  | progress (cbn [app])]);
    reflexivity.
Qed.

(** ** C4: Content-Length *)

(** C4.  For a method other than "GET" the request text is: the request
    line, the Host line, then the line "Content-Length: " followed by
    [utoa] of the number of characters of the body, then the caller's
    headers, a newline and the body.  The value printed is a non-empty run
    of decimal digits that reads back as exactly that number. *)
Theorem content_length_for_non_get :
  forall (data method base_url path hdrs : Str),
    method <> lit "GET" ->
    let n := Z.of_nat (List.length data) in
    Http.format_request data method base_url path hdrs
    = (method ++ lit " " ++ path ++ lit " HTTP/1.1" ++ [LF]
       ++ lit "Host: " ++ base_url ++ [LF])
      ++ lit "Content-Length: " ++ utoa n ++ [LF]
      ++ (hdrs ++ LF :: data) /\
    utoa n <> [] /\
    forallb isdigit (utoa n) = true /\
    digits_from 0 (utoa n) = n.
Proof.
  intros data method base_url path hdrs Hm n.
  split.
  - rewrite format_request_eq. apply equals_neq in Hm. rewrite Hm.
    fold (length data). subst n. fold (length data).
    repeat (first [rewrite <- app_assoc | progress (cbn [app])]).
    reflexivity.
  - apply utoa_decimal. subst n. lia.
Qed.

Lemma content_length_witness :
  Http.format_request (lit "hello world!") (lit "POST") (lit "httpbin.org")
                      (lit "/post") (lit "")
  = lit "POST /post HTTP/1.1" ++ LF
    :: lit "Host: httpbin.org" ++ LF
    :: lit "Content-Length: 12" ++ LF
    :: LF :: lit "hello world!".
Proof.
  destruct (content_length_for_non_get
              (lit "hello world!") (lit "POST") (lit "httpbin.org")
              (lit "/post") (lit "") ltac:(discriminate)) as (Htext & _).
  rewrite Htext. reflexivity.
Defined.

(** ** C7: carriage returns *)

Lemma new_calls_app {W} (m m' : Http.machine W) evs :
  Http.calls m' = Http.calls m ++ evs -> new_calls m m' = evs.
Proof.
  intros Hc. unfold new_calls. rewrite Hc, skipn_app, skipn_all, Nat.sub_diag.
  reflexivity.
Qed.

Lemma present_by_check (c : ascii) (s : Str) :
  existsb (Ascii.eqb c) s = true -> In c s.
Proof.
  intros Hcheck. apply existsb_exists in Hcheck.
  destruct Hcheck as (x & Hin & Hx). apply Ascii.eqb_eq in Hx. now subst x.
Qed.










(** ** C6: stop after a time-out *)

(** C6, as stated, fails: with a silent peer the wait times out (102
    sleeps for the default budget of 100), the read loop finds the client
    connected with nothing to read and calls stop, and stop is called
    again after the loop: twice, not once. *)
Lemma stop_is_called_twice_after_timeout :
  exists m2 status m',
    Http.wait_loop 100 200
      (after_send (Http.format_request (lit "t=21") (lit "GET")
                     (lit "example.org") (lit "/get") (lit ""))
                  (lit "example.org") 80 (Sim.boot silent_peer))
    = Ret (true, m2) /\
    Http.http_request 100 200 (lit "t=21") (lit "GET") (lit "example.org")
                      (lit "/get") 80 (lit "") (Sim.boot silent_peer)
    = Ret (status, m') /\
    count is_stop (new_calls (Sim.boot silent_peer) m') = 2.
Proof.
  eexists. eexists. eexists.
  split; [vm_compute; reflexivity|].
  split; [vm_compute; reflexivity|].
  vm_compute. reflexivity.
Qed.

(** One pass of the read loop, from the client's answers. *)
Lemma read_loop_disconnected {W} {C : Http.NetworkClient W}
      fuel buf i (m : Http.machine W) res m' :
  Http.read_loop fuel buf i m = Ret (res, m') ->
  fst (Http.net_connected (Http.world m)) = false ->
  Http.calls m' = Http.calls m ++ [Http.EvConnected false].
Proof.
  destruct fuel as [|fuel]; [discriminate|].
  cbn [Http.read_loop]. unfold bind at 1, Http.connected.
  destruct (Http.net_connected (Http.world m)) as [up w1]. cbn [fst].
  intros Hrun ->. unfold ret in Hrun. inversion Hrun. reflexivity.
Qed.

Lemma read_loop_idle {W} {C : Http.NetworkClient W}
      fuel buf i (m : Http.machine W) res m' w3 w4 :
  Http.read_loop fuel buf i m = Ret (res, m') ->
  Http.net_connected (Http.world m) = (true, w3) ->
  Http.net_available w3 = (0, w4) ->
  exists fuel' m3,
    Http.read_loop fuel' buf i m3 = Ret (res, m') /\
    Http.world m3 = Http.net_stop w4 /\
    Http.calls m3
    = Http.calls m
      ++ [Http.EvConnected true; Http.EvAvailable 0; Http.EvStop].
Proof.
  destruct fuel as [|fuel]; [discriminate|].
  cbn [Http.read_loop]. unfold bind at 1, Http.connected.
  intros Hrun Hup Hav. rewrite Hup in Hrun.
  unfold bind at 1, Http.available in Hrun.
  cbn [Http.world Http.record] in Hrun. rewrite Hav in Hrun.
  cbn [Z.eqb negb] in Hrun.
  unfold bind at 1, Http.stop in Hrun. cbn [Http.world Http.record] in Hrun.
  eexists. eexists. split; [exact Hrun|].
  cbn [Http.world Http.calls Http.record]. rewrite <- !app_assoc.
  split; reflexivity.
Qed.

(** The capture phase, split at the end of its loop. *)
Lemma read_header_Ret {W} {C : Http.NetworkClient W}
      fuel (m : Http.machine W) header m' :
  Http.read_header fuel m = Ret (header, m') ->
  exists res m3,
    Http.read_loop fuel Http.fresh_buffer 0 m = Ret (res, m3) /\
    Http.calls m' = Http.calls m3 ++ [Http.EvStop].
Proof.
  unfold Http.read_header. intros Hread.
  apply bind_Ret in Hread. destruct Hread as (res & m3 & Hloop & Hrest).
  apply bind_Ret in Hrest. destruct Hrest as (buf' & m4 & Hstore & Hrest).
  apply bind_Ret in Hrest. destruct Hrest as ([] & m5 & Hstop & Hrest).
  exists res, m3. split; [exact Hloop|].
  destruct (Http.cstr buf'); [|discriminate].
  unfold ret in Hrest. inversion Hrest. subst m5.
  unfold Http.stop in Hstop. inversion Hstop.
  unfold Http.store in Hstore.
  destruct ((0 <=? snd res) && (snd res <? Http._HEADER_LEN + 1));
    [|discriminate].
  inversion Hstore. reflexivity.
Qed.

(** C6, amended.  When the wait loop has timed out, [http_request] still
    runs the read phase, starting with a connected() poll, and its last
    call on the client is stop.  Over the whole call, stop is called once
    after the read loop and once more for every pass of that loop that
    finds the client connected with nothing to read.  So it is called
    exactly once if and only if the read loop makes no such pass (as when
    the client reports disconnected at the first poll of the read phase,
    or delivers bytes and then reports disconnected); and it is called
    at least twice when the client is connected with nothing to read as
    the read phase starts, exactly twice if it then reports disconnected
    after that stop. *)
Theorem stop_calls_after_timeout :
  forall (W : Type) (C : Http.NetworkClient W) (RW : Z) (fuel : nat)
         (data method base_url path hdrs : Str) (port : Z)
         (m m2 : Http.machine W) (status : Z) (m' : Http.machine W),
    fst (Http.net_connect base_url port (Http.world m)) <> 0 ->
    Http.wait_loop RW fuel
      (after_send (Http.format_request data method base_url path hdrs)
                  base_url port m) = Ret (true, m2) ->
    Http.http_request RW fuel data method base_url path port hdrs m
    = Ret (status, m') ->
    exists wevs evs,
      new_calls m m'
      = Http.EvConnect base_url port
          (fst (Http.net_connect base_url port (Http.world m)))
        :: Http.EvPrintln (Http.format_request data method base_url path hdrs)
        :: wevs ++ evs ++ [Http.EvStop] /\
      wait_trace true wevs /\
      read_trace evs /\
      hd_error evs
      = Some (Http.EvConnected (fst (Http.net_connected (Http.world m2)))) /\
      count is_stop (new_calls m m') = 1 + count is_idle_poll evs /\
      (count is_stop (new_calls m m') = 1 <-> count is_idle_poll evs = 0) /\
      (fst (Http.net_connected (Http.world m2)) = false ->
       count is_stop (new_calls m m') = 1) /\
      (forall w3 w4,
          Http.net_connected (Http.world m2) = (true, w3) ->
          Http.net_available w3 = (0, w4) ->
          2 <= count is_stop (new_calls m m') /\
          (fst (Http.net_connected (Http.net_stop w4)) = false ->
           count is_stop (new_calls m m') = 2)).
Proof.
  intros W C RW fuel data method base_url path hdrs port m m2 status m'
         Hr Hwait Hrun.
  apply http_request_Ret in Hrun. cbn zeta in Hrun.
  destruct Hrun as [(Hz & _) | (_ & header & Hx & _)]; [contradiction|].
  apply http_exchange_Ret in Hx. destruct Hx as (b & m2' & Hwait' & Hread).
  unfold after_send in Hwait. cbn zeta in Hwait.
  cbn [Http.world Http.record] in Hwait'.
  rewrite Hwait in Hwait'. inversion Hwait'. subst b m2'. clear Hwait'.
  (* the wait *)
  match type of Hwait with
  | Http.wait_loop _ _ ?m1 = _ =>
      pose proof (wait_loop_run RW fuel m1) as Hshape
  end.
  rewrite Hwait in Hshape. destruct Hshape as (wevs & Hc2 & Htw & _).
  cbn [Http.calls Http.record] in Hc2. rewrite <- !app_assoc in Hc2.
  cbn [app] in Hc2.
  destruct (wait_trace_counts _ _ Htw) as (Hwstops & _ & _).
  (* the read phase *)
  apply read_header_Ret in Hread.
  destruct Hread as ([buf i] & m3 & Hloop & Hlast).
  pose proof (read_loop_run fuel [] m2) as Hpost.
  change (image []) with Http.fresh_buffer in Hpost.
  change (length []) with 0 in Hpost.
  rewrite Hloop in Hpost.
  destruct Hpost as (evs & more & Hc3 & Ht & _ & _ & _ & _ & _ & Hhd);
    [simpl; lia|].
  destruct (read_trace_counts evs Ht) as (Hstops & _ & _).
  assert (Hnew : new_calls m m'
                 = Http.EvConnect base_url port
                     (fst (Http.net_connect base_url port (Http.world m)))
                   :: Http.EvPrintln
                        (Http.format_request data method base_url path hdrs)
                   :: wevs ++ evs ++ [Http.EvStop]).
  { apply new_calls_app. rewrite Hlast, Hc3, Hc2, <- !app_assoc.
    reflexivity. }
  assert (Hcount : count is_stop (new_calls m m')
                   = count is_stop (evs ++ [Http.EvStop])).
  { rewrite Hnew.
    match goal with |- count _ (?e1 :: ?e2 :: ?rest) = _ =>
      change (e1 :: e2 :: rest) with ([e1; e2] ++ rest)
    end.
    rewrite !count_app, Hwstops.
    match goal with |- count is_stop ?l + _ = _ =>
      change (count is_stop l) with 0
    end.
    lia. }
  exists wevs, evs.
  split; [exact Hnew|]. split; [exact Htw|]. split; [exact Ht|].
  split; [exact Hhd|]. rewrite Hcount.
  assert (Hsum : count is_stop (evs ++ [Http.EvStop])
                 = 1 + count is_idle_poll evs).
  { rewrite count_app, Hstops.
    change (count is_stop [Http.EvStop]) with 1. lia. }
  split; [exact Hsum|]. split; [lia|]. split.
  - intros Hdown.
    pose proof (read_loop_disconnected _ _ _ _ _ _ Hloop Hdown) as Hc.
    rewrite Hc3 in Hc. apply app_inv_head in Hc. subst evs. reflexivity.
  - intros w3 w4 Hup Hav.
    destruct (read_loop_idle _ _ _ _ _ _ _ _ Hloop Hup Hav)
      as (fuel' & m4 & Hloop' & Hw4 & Hc4).
    split.
    + pose proof (read_loop_run fuel' [] m4) as Hpost'.
      change (image []) with Http.fresh_buffer in Hpost'.
      change (length []) with 0 in Hpost'.
      rewrite Hloop' in Hpost'.
      destruct Hpost' as (evs' & more' & Hc5 & _); [simpl; lia|].
      rewrite Hc4, Hc3, <- app_assoc in Hc5. apply app_inv_head in Hc5.
      rewrite Hsum, Hc5, count_app.
      change (count is_idle_poll
                [Http.EvConnected true; Http.EvAvailable 0; Http.EvStop])
        with 1.
      pose proof (count_nonneg is_idle_poll evs'). lia.
    + intros Hdown. rewrite <- Hw4 in Hdown.
      pose proof (read_loop_disconnected _ _ _ _ _ _ Hloop' Hdown) as Hc.
      rewrite Hc4, Hc3, <- app_assoc in Hc. apply app_inv_head in Hc.
      subst evs. reflexivity.
Qed.

Lemma stop_calls_witness :
  exists status m',
    Http.http_request 100 200 (lit "t=21") (lit "GET") (lit "example.org")
                      (lit "/get") 80 (lit "") (Sim.boot silent_peer)
    = Ret (status, m') /\
    count is_stop (new_calls (Sim.boot silent_peer) m') = 2.
Proof.
  eexists. eexists. split; [vm_compute; reflexivity|].
  edestruct (fun m2 => stop_calls_after_timeout
               Sim.client Sim.client_is_network_client 100 200%nat
               (lit "t=21") (lit "GET") (lit "example.org") (lit "/get")
               (lit "") 80 (Sim.boot silent_peer) m2)
    as (wevs & evs & _ & _ & _ & _ & _ & _ & _ & Hidle).
  - discriminate.
  - vm_compute. reflexivity.
  - vm_compute. reflexivity.
  - edestruct Hidle as (_ & Htwice); [reflexivity | reflexivity |].
    apply Htwice. reflexivity.
Defined.

(** ** C8: the wait counter across calls *)

(** C8, as stated, fails: after a call whose wait timed out the counter
    is back at 0, and the next call waits exactly as long as the first
    (102 sleeps each for the default budget of 100). *)
Lemma timeout_leaves_no_residue :
  exists mw status1 m1 status2 m2,
    Http.wait_loop 100 200
      (after_send (Http.format_request (lit "t=21") (lit "GET")
                     (lit "example.org") (lit "/get") (lit ""))
                  (lit "example.org") 80 (Sim.boot silent_peer))
    = Ret (true, mw) /\
    Http.http_request 100 200 (lit "t=21") (lit "GET") (lit "example.org")
                      (lit "/get") 80 (lit "") (Sim.boot silent_peer)
    = Ret (status1, m1) /\
    count is_delay (Http.calls m1) = 102 /\
    Http._wait m1 = 0 /\
    Http.http_request 100 200 (lit "t=22") (lit "GET") (lit "example.org")
                      (lit "/get") 80 (lit "") m1
    = Ret (status2, m2) /\
    count is_delay (Http.calls m2) = 102 + 102.
Proof.
  do 5 eexists.
  split; [vm_compute; reflexivity|].
  split; [vm_compute; reflexivity|].
  split; [vm_compute; reflexivity|].
  split; [vm_compute; reflexivity|].
  split; vm_compute; reflexivity.
Qed.

(** C8, amended.  [_wait] is one variable for all calls: a call starts
    its wait with the value the previous call left.  A wait that times
    out resets it to 0, after REQUEST_REPLY_WAIT + 2 - [_wait] sleeps, the
    budget being shortened by what the counter held on entry.  A wait that
    ends because a byte has arrived leaves the counter raised by the number
    of sleeps made: that is the value that leaks into the next call.  The
    counter stays within 0 .. REQUEST_REPLY_WAIT + 1. *)
Theorem wait_counter_across_calls :
  forall (W : Type) (C : Http.NetworkClient W) (RW : Z) (fuel : nat)
         (data method base_url path hdrs : Str) (port : Z)
         (m : Http.machine W) (status : Z) (m' : Http.machine W),
    0 <= RW <= INT_MAX - 2 ->
    0 <= Http._wait m <= RW + 1 ->
    fst (Http.net_connect base_url port (Http.world m)) <> 0 ->
    Http.http_request RW fuel data method base_url path port hdrs m
    = Ret (status, m') ->
    let m1 := after_send (Http.format_request data method base_url path hdrs)
                         base_url port m in
    exists b m2 wevs,
      Http.wait_loop RW fuel m1 = Ret (b, m2) /\
      Http.calls m2 = Http.calls m1 ++ wevs /\
      wait_trace b wevs /\
      Http._wait m' = Http._wait m2 /\
      (b = true ->
       Http._wait m' = 0 /\
       count is_delay wevs = RW + 2 - Http._wait m) /\
      (b = false ->
       Http._wait m' = Http._wait m + count is_delay wevs) /\
      0 <= Http._wait m' <= RW + 1.
Proof.
  intros W C RW fuel data method base_url path hdrs port m status m'
         Hrw Hw Hr Hrun m1.
  apply http_request_Ret in Hrun. cbn zeta in Hrun.
  destruct Hrun as [(Hz & _) | (_ & header & Hx & _)]; [contradiction|].
  apply http_exchange_Ret in Hx. destruct Hx as (b & m2 & Hwait & Hread).
  cbn [Http.world Http.record] in Hwait.
  change (Http.wait_loop RW fuel m1 = Ret (b, m2)) in Hwait.
  assert (Hw1 : 0 <= Http._wait m1 <= RW + 1) by exact Hw.
  pose proof (wait_loop_counter RW Hrw fuel m1 Hw1) as Hcount.
  pose proof (wait_loop_run RW fuel m1) as Hshape.
  rewrite Hwait in Hcount, Hshape.
  destruct Hcount as (wevs & Hc & Hb).
  destruct Hshape as (wevs' & Hc' & Ht & _).
  assert (wevs' = wevs) by (rewrite Hc in Hc'; now apply app_inv_head in Hc').
  subst wevs'.
  pose proof (read_header_run fuel m2) as Hpost. rewrite Hread in Hpost.
  destruct Hpost as (_ & _ & _ & _ & Hsame & _).
  change (Http._wait m1) with (Http._wait m) in Hb.
  pose proof (count_nonneg is_delay wevs) as Hd.
  exists b, m2, wevs.
  split; [exact Hwait|]. split; [exact Hc|]. split; [exact Ht|].
  split; [exact Hsame|].
  rewrite Hsame. destruct b.
  - destruct Hb as (Hzero & Hsleeps).
    split; [auto|]. split; [discriminate|]. lia.
  - destruct Hb as (Hleft & Hbound).
    split; [discriminate|]. split; [auto|]. lia.
Qed.

Lemma wait_counter_witness :
  exists status m',
    Http.http_request 100 200 (lit "t=21") (lit "POST") (lit "example.org")
                      (lit "/post") 80 (lit "") (Sim.boot not_found_peer)
    = Ret (status, m') /\
    Http._wait m' = 2 /\
    0 <= Http._wait m' <= 100 + 1.
Proof.
  eexists. eexists. split; [vm_compute; reflexivity|].
  split; [vm_compute; reflexivity|].
  edestruct (wait_counter_across_calls
               Sim.client Sim.client_is_network_client 100 200%nat
               (lit "t=21") (lit "POST") (lit "example.org") (lit "/post")
               (lit "") 80 (Sim.boot not_found_peer))
    as (b & m2 & wevs & _ & _ & _ & _ & _ & _ & Hrange).
  - unfold INT_MAX. lia.
  - simpl. lia.
  - discriminate.
  - vm_compute. reflexivity.
  - exact Hrange.
Defined.

(** ** C9: REQUEST_SETUP in MQTT mode *)

Section Setup.

Import Mqtt.
Context {W : Type} {C : PubSubClient W}.
Variables URL ID USER PASS : Str.
Variable PORT : Z.

Lemma connect_loop_run fuel :
  forall m,
    connect_loop_post ID USER PASS m (connect_loop ID USER PASS fuel m).
Proof.
  induction fuel as [|fuel IH]; intros m; [exact I|].
  cbn [connect_loop]. unfold bind at 1, connected.
  destruct (mq_connected (world m)) as [up w1] eqn:Hup.
  destruct up; cbn [negb].
  { (* connected: the loop is left *)
    cbn. exists []. split; [reflexivity|]. split.
    { cbn. rewrite Hup. reflexivity. }
    intros fresh (Hconn & _) Hfresh.
    destruct (Hconn _ Hfresh) as (Hfalse & _).
    rewrite Hup in Hfalse. discriminate Hfalse. }
  unfold bind at 1, connect. cbn [world record].
  destruct (mq_connect ID USER PASS w1) as [ok w2] eqn:Hok.
  destruct ok.
  - (* accepted *)
    unfold bind at 1, serial. cbn [world record].
    match goal with |- connect_loop_post _ _ _ _ (connect_loop _ _ _ _ ?m2) =>
      specialize (IH m2);
      destruct (connect_loop ID USER PASS fuel m2) as [[[] m']| |];
        try exact IH
    end.
    destruct IH as (rounds & Hc & Hre & _).
    cbn [calls world record] in Hc, Hre.
    exists (Accepted :: rounds). split; [|split].
    + rewrite Hc, <- !app_assoc. reflexivity.
    + cbn [map List.concat round_events app replay].
      rewrite Hup, Hok. exact Hre.
    + intros. now left.
  - (* refused *)
    unfold bind at 1, serial. cbn [world record].
    unfold bind at 1, state. cbn [world record].
    destruct (mq_state w2) as [st w3] eqn:Hst.
    unfold bind at 1, serial. cbn [world record].
    unfold bind at 1, delay. cbn [world record].
    match goal with |- connect_loop_post _ _ _ _ (connect_loop _ _ _ _ ?m2) =>
      specialize (IH m2);
      destruct (connect_loop ID USER PASS fuel m2) as [[[] m']| |];
        try exact IH
    end.
    destruct IH as (rounds & Hc & Hre & Hacc).
    cbn [calls world record] in Hc, Hre, Hacc.
    exists (Refused st :: rounds). split; [|split].
    + rewrite Hc, <- !app_assoc. reflexivity.
    + cbn [map List.concat round_events app replay].
      rewrite Hup, Hok, Hst, Z.eqb_refl. exact Hre.
    + intros fresh Hgated Hfresh. right. apply (Hacc fresh Hgated).
      destruct Hgated as (Hconn & _ & Hrefused & Hstate & Hdelay).
      apply Hdelay.
      replace w3 with (snd (mq_state w2)) by now rewrite Hst.
      apply Hstate.
      replace w2 with (snd (mq_connect ID USER PASS w1)) by now rewrite Hok.
      apply Hrefused; [|now rewrite Hok].
      replace w1 with (snd (mq_connected (world m))) by now rewrite Hup.
      now apply Hconn.
Qed.

End Setup.

Lemma rounds_delay_once_per_refusal id user pass rounds :
  count is_mq_delay (List.concat (map (round_events id user pass) rounds))
  = count is_refused_connect (List.concat (map (round_events id user pass) rounds))
  /\
  forall ms,
    In (Mqtt.MqDelay ms) (List.concat (map (round_events id user pass) rounds)) ->
    ms = 1000.
Proof.
  induction rounds as [|r rounds (IHc & IHd)]; cbn [map List.concat].
  - split; [reflexivity | intros ms []].
  - rewrite !count_app. split.
    + destruct r; cbn [round_events];
        [change (count is_mq_delay _ + ?x = count is_refused_connect _ + ?y)
           with (1 + x = 1 + y)
        |change (count is_mq_delay _ + ?x = count is_refused_connect _ + ?y)
           with (0 + x = 0 + y)]; lia.
    + intros ms Hin. apply in_app_or in Hin. destruct Hin as [Hin|Hin]; [|auto].
      destruct r; cbn [round_events] in Hin; simpl in Hin;
        repeat (destruct Hin as [Hin|Hin]; try discriminate Hin);
        try contradiction.
      now inversion Hin.
Qed.

Lemma replay_app {W} {C : Mqtt.PubSubClient W} (evs more : list Mqtt.event) :
  forall w : W,
    replay w (evs ++ more)
    = match replay w evs with
      | Some w1 => replay w1 more
      | None => None
      end.
Proof.
  induction evs as [|e evs IH]; intros w; [reflexivity|].
  destruct e; cbn [app replay]; try apply IH.
  - destruct (Mqtt.mq_connected w) as [b' w'].
    destruct (Bool.eqb b b'); [apply IH | reflexivity].
  - destruct (Mqtt.mq_connect id user pass w) as [ok' w'].
    destruct (Bool.eqb ok ok'); [apply IH | reflexivity].
  - destruct (Mqtt.mq_state w) as [st' w'].
    destruct (st =? st'); [apply IH | reflexivity].
Qed.

(** A log that replays and ends with connected() = true leaves the
    client in the state that answer left it in. *)
Lemma replay_ends_connected {W} {C : Mqtt.PubSubClient W}
      (evs : list Mqtt.event) (w w' : W) :
  replay w (evs ++ [Mqtt.MqConnected true]) = Some w' ->
  exists w0, replay w evs = Some w0 /\ Mqtt.mq_connected w0 = (true, w').
Proof.
  rewrite replay_app. destruct (replay w evs) as [w0|]; [|discriminate].
  cbn [replay]. destruct (Mqtt.mq_connected w0) as [b' w1] eqn:Hup.
  destruct b'; cbn [Bool.eqb]; [|discriminate].
  intros E. injection E as <-. exists w0. split; [reflexivity | exact Hup].
Qed.

(** C9.  REQUEST_SETUP returns only on a connected() that answers true.
    Its log is: setServer; then, for each turn of the loop, connected()
    answering false and a connect(), which if refused is followed by the
    failure message, exactly one delay(1000) and the next connected()
    poll; and at last the connected() that answers true.  These are the
    calls it made on the client, in this order, each with the answer the
    client gave, and the client is left in the state the last of them,
    the connected() that answered true, left it in.  So there are as many
    delays as refused connects, each of 1000.  On a PubSubClient, whose
    connected() is false until a connect() has succeeded, a setup entered
    before any connect() succeeded returns only after one of its own
    connects was accepted.  (Entered on a client that is connected
    already, as from REQUEST_LOOP, it makes no round at all: the connect
    that succeeded is an earlier one.) *)
Theorem setup_retries_until_connected :
  forall (W : Type) (C : Mqtt.PubSubClient W) (url id user pass : Str)
         (port : Z) (fuel : nat) (m m' : Mqtt.machine W),
    Mqtt.REQUEST_SETUP url id user pass port fuel m = Ret (tt, m') ->
    exists rounds,
      Mqtt.calls m'
      = Mqtt.calls m ++ setup_events url port id user pass rounds /\
      replay (Mqtt.world m) (setup_events url port id user pass rounds)
      = Some (Mqtt.world m') /\
      (exists w, Mqtt.mq_connected w = (true, Mqtt.world m')) /\
      (forall fresh,
          connect_gated fresh -> fresh (Mqtt.world m) ->
          In Accepted rounds) /\
      count is_mq_delay (setup_events url port id user pass rounds)
      = count is_refused_connect (setup_events url port id user pass rounds) /\
      (forall ms,
          In (Mqtt.MqDelay ms) (setup_events url port id user pass rounds) ->
          ms = 1000).
Proof.
  intros W C url id user pass port fuel m m' Hrun.
  unfold Mqtt.REQUEST_SETUP in Hrun. unfold bind at 1, Mqtt.setServer in Hrun.
  match type of Hrun with
  | Mqtt.connect_loop _ _ _ _ ?m1 = _ =>
      pose proof (connect_loop_run id user pass fuel m1) as Hpost
  end.
  rewrite Hrun in Hpost. destruct Hpost as (rounds & Hc & Hre & Hacc).
  cbn [Mqtt.calls Mqtt.world Mqtt.record] in Hc, Hre, Hacc.
  destruct (rounds_delay_once_per_refusal id user pass rounds) as (Hn & Hms).
  exists rounds. unfold setup_events.
  split; [|split; [|split; [|split; [|split]]]].
  - rewrite Hc, <- app_assoc. reflexivity.
  - cbn [replay]. exact Hre.
  - destruct (replay_ends_connected _ _ _ Hre) as (w0 & _ & Hlast).
    exists w0. exact Hlast.
  - intros fresh Hgated Hfresh. apply (Hacc fresh Hgated).
    destruct Hgated as (_ & Hset & _). now apply Hset.
  - change (Mqtt.MqSetServer url port
            :: List.concat (map (round_events id user pass) rounds)
            ++ [Mqtt.MqConnected true])
      with ([Mqtt.MqSetServer url port]
            ++ List.concat (map (round_events id user pass) rounds)
            ++ [Mqtt.MqConnected true]).
    rewrite !count_app, Hn. reflexivity.
  - intros ms [E|Hin]; [discriminate E|].
    apply in_app_or in Hin. destruct Hin as [Hin|[E|[]]]; [auto | discriminate E].
Qed.

Lemma setup_retries_witness :
  exists m',
    Mqtt.REQUEST_SETUP (lit "broker.emqx.io") (lit "esp-client-") (lit "emqx")
                       (lit "123") 1883 5 busy_broker = Ret (tt, m') /\
    exists rounds,
      Mqtt.calls m'
      = setup_events (lit "broker.emqx.io") 1883 (lit "esp-client-")
                     (lit "emqx") (lit "123") rounds /\
      replay (Mqtt.world busy_broker)
             (setup_events (lit "broker.emqx.io") 1883 (lit "esp-client-")
                           (lit "emqx") (lit "123") rounds)
      = Some (Mqtt.world m') /\
      In Accepted rounds.
Proof.
  eexists. split; [vm_compute; reflexivity|].
  edestruct (setup_retries_until_connected
               Sim.broker Sim.broker_is_pubsub (lit "broker.emqx.io")
               (lit "esp-client-") (lit "emqx") (lit "123") 1883 5%nat
               busy_broker)
    as (rounds & Hcalls & Hreplay & _ & Haccepted & _).
  - vm_compute. reflexivity.
  - exists rounds. split; [exact Hcalls|]. split; [exact Hreplay|].
    apply (Haccepted (fun w => Sim.online w = false)); [|reflexivity].
    unfold connect_gated. cbn.
    split; [auto|]. split; [auto|]. split; [|auto].
    intros i u p [[|n] b] Hfresh; cbn; [discriminate | reflexivity].
Defined.

(* ------------------------------------------------------------------ *)
(** * When http_request returns *)

(** The read loop ends when the client lets it: each pass that finds the
    client connected must bring it closer to being disconnected, a read
    by using up what the peer can still deliver, a stop by closing.  With
    such a client, enough fuel always gives a result. *)
Section Termination.

Import Http.
Context {W : Type} {C : NetworkClient W}.
Variable budget : W -> nat.

Hypothesis read_pass_consumes :
  forall w w1 n w2,
    net_connected w = (true, w1) ->
    net_available w1 = (n, w2) ->
    (n = 0 -> (budget (net_stop w2) < budget w)%nat) /\
    (n <> 0 -> (budget (snd (net_read w2)) < budget w)%nat).

Lemma read_loop_returns fuel :
  forall buf i m,
    (budget (world m) < fuel)%nat ->
    read_loop fuel buf i m <> OutOfFuel.
Proof.
  induction fuel as [|fuel IH]; intros buf i m Hfuel; [lia|].
  cbn [read_loop]. unfold bind at 1, connected.
  destruct (net_connected (world m)) as [up w1] eqn:Hup.
  destruct up; [|discriminate].
  unfold bind at 1, available. cbn [world record].
  destruct (net_available w1) as [n w2] eqn:Hav.
  destruct (read_pass_consumes _ _ _ _ Hup Hav) as (Hidle & Hbyte).
  destruct (Z.eqb_spec n 0) as [Hn|Hn]; cbn [negb].
  - unfold bind at 1, stop. cbn [world record].
    apply IH. cbn [world record]. specialize (Hidle Hn). lia.
  - unfold bind at 1, read. cbn [world record].
    specialize (Hbyte Hn).
    destruct (net_read w2) as [r w3]. cbn [snd] in Hbyte.
    destruct (i <? _HEADER_LEN).
    + unfold bind at 1, store.
      destruct ((0 <=? i) && (i <? _HEADER_LEN + 1)); [|discriminate].
      apply IH. cbn [world record]. lia.
    + apply IH. cbn [world record]. lia.
Qed.

Lemma read_header_returns fuel m :
  (budget (world m) < fuel)%nat ->
  exists header m', read_header fuel m = Ret (header, m').
Proof.
  intros Hfuel.
  pose proof (read_header_run fuel m) as Hpost.
  destruct (read_header fuel m) as [[header m']| |] eqn:Hread.
  - eauto.
  - contradiction.
  - exfalso. unfold read_header in Hread.
    unfold bind at 1 in Hread.
    pose proof (read_loop_returns fuel fresh_buffer 0 m Hfuel) as Hloop.
    destruct (read_loop fuel fresh_buffer 0 m) as [[[buf i] m1]| |];
      [|discriminate Hread|contradiction].
    unfold bind at 1, store in Hread.
    destruct ((0 <=? snd (buf, i)) && (snd (buf, i) <? _HEADER_LEN + 1));
      [|discriminate Hread].
    unfold bind at 1, stop in Hread.
    destruct (cstr (update (fst (buf, i)) (Z.to_nat (snd (buf, i))) NUL));
      discriminate Hread.
Qed.

(** Enough fuel gives [http_request] its result: as much as the wait
    counter allows passes, and more than the client's budget once the wait
    is over. *)
Lemma http_request_returns RW fuel data method base_url path port hdrs m :
  0 <= RW <= INT_MAX - 2 ->
  0 <= _wait m <= RW + 1 ->
  RW + 2 - _wait m <= Z.of_nat fuel ->
  (forall b m2,
      wait_loop RW fuel
        (after_send (format_request data method base_url path hdrs)
                    base_url port m) = Ret (b, m2) ->
      (budget (world m2) < fuel)%nat) ->
  exists status m',
    http_request RW fuel data method base_url path port hdrs m
    = Ret (status, m').
Proof.
  intros Hrw Hw Hfuel Hbudget.
  destruct (net_connect base_url port (world m)) as [r w1] eqn:Hconn.
  destruct (Z.eqb_spec r 0) as [Hr|Hr].
  - unfold http_request. unfold bind at 1, connect. rewrite Hconn.
    subst r. unfold ret. cbn [Z.eqb]. eauto.
  - unfold after_send in Hbudget. rewrite Hconn in Hbudget.
    cbn zeta in Hbudget. cbn [fst snd] in Hbudget.
    match type of Hbudget with
    | forall b m2, wait_loop RW fuel ?m1 = _ -> _ =>
        destruct (wait_loop_total RW Hrw fuel m1 Hw Hfuel) as (b & m2 & Hwait)
    end.
    destruct (read_header_returns fuel m2 (Hbudget b m2 Hwait))
      as (header & m' & Hread).
    exists (parse_status header), m'.
    apply (http_request_parses RW fuel data method base_url path port hdrs
                               m r w1 header m' Hconn Hr).
    unfold http_exchange. unfold bind at 1, println. cbn [world record].
    unfold bind at 1. rewrite Hwait. exact Hread.
Qed.

End Termination.

Lemma sim_read_pass_consumes :
  forall (w w1 : Sim.client) n w2,
    Http.net_connected w = (true, w1) ->
    Http.net_available w1 = (n, w2) ->
    (n = 0 -> (sim_budget (Http.net_stop w2) < sim_budget w)%nat) /\
    (n <> 0 -> (sim_budget (snd (Http.net_read w2)) < sim_budget w)%nat).
Proof.
  intros [a u rx feed tx] w1 n w2 Hup Hav.
  cbn in Hup. inversion Hup. subst u w1.
  cbn in Hav. inversion Hav. subst n w2.
  unfold sim_budget. cbn. split.
  - lia.
  - intros Hn. destruct rx as [|c rx]; [contradiction|]. cbn. lia.
Qed.

(** What holds of the world before the wait and is kept by available()
    and delay(1) holds after it. *)
Lemma wait_loop_keeps {W} {C : Http.NetworkClient W} (P : W -> Prop) RW :
  (forall w, P w -> P (snd (Http.net_available w))) ->
  (forall w, P w -> P (Http.sys_delay 1 w)) ->
  forall fuel (m : Http.machine W) b m2,
    P (Http.world m) ->
    Http.wait_loop RW fuel m = Ret (b, m2) ->
    P (Http.world m2).
Proof.
  intros Hav Hdelay.
  induction fuel as [|fuel IH]; intros m b m2 HP Hrun; [discriminate|].
  cbn [Http.wait_loop] in Hrun. unfold bind at 1, Http.available in Hrun.
  specialize (Hav _ HP).
  destruct (Http.net_available (Http.world m)) as [n w1]. cbn [snd] in Hav.
  destruct (n =? 0).
  - unfold bind at 1, Http.delay in Hrun. cbn [Http.world Http.record] in Hrun.
    unfold bind at 1, Http.wait_post_increment in Hrun.
    cbn [Http.world Http._wait Http.calls Http.stores Http.record] in Hrun.
    specialize (Hdelay _ Hav).
    destruct (Http._wait m >? RW).
    + unfold bind, Http.wait_assign, ret in Hrun. inversion Hrun.
      exact Hdelay.
    + eapply IH; [|exact Hrun]. exact Hdelay.
  - unfold ret in Hrun. inversion Hrun. exact Hav.
Qed.

Lemma sim_budget_le_size w : (sim_budget w <= sim_size w)%nat.
Proof.
  unfold sim_budget, sim_size. destruct (Sim.up w); lia.
Qed.

Lemma sim_delay_size ms w : sim_size (Sim.sim_delay ms w) = sim_size w.
Proof.
  unfold sim_size, Sim.sim_delay.
  destruct w as [a u rx [|[piece|] later] tx]; cbn; try reflexivity.
  rewrite List.length_app. lia.
Qed.

(** On every simulated peer, with the default budget of 100 and for
    every request, [http_request] returns once given enough fuel. *)
Lemma sim_http_request_returns (w : Sim.client)
      (data method base_url path hdrs : Str) (port : Z) :
  exists fuel status m',
    Http.http_request 100 fuel data method base_url path port hdrs
                      (Sim.boot w)
    = Ret (status, m').
Proof.
  exists (102 + sim_size w)%nat.
  apply (http_request_returns sim_budget sim_read_pass_consumes).
  - unfold INT_MAX. lia.
  - cbn. lia.
  - cbn [Sim.boot Http._wait]. lia.
  - intros b m2 Hwait.
    assert (Hsize : (sim_size (Http.world m2) <= sim_size w)%nat).
    { apply (wait_loop_keeps (fun x => (sim_size x <= sim_size w)%nat) 100)
        with (fuel := (102 + sim_size w)%nat) (b := b)
             (m := after_send
                     (Http.format_request data method base_url path hdrs)
                     base_url port (Sim.boot w)).
      - intros x Hx. exact Hx.
      - intros x Hx. cbn [Http.sys_delay Sim.client_is_network_client].
        now rewrite sim_delay_size.
      - unfold after_send. cbn. unfold Sim.sim_connect.
        destruct (Sim.accept w =? 0); cbn; unfold sim_size; cbn; lia.
      - exact Hwait. }
    pose proof (sim_budget_le_size (Http.world m2)). lia.
Qed.

(* ------------------------------------------------------------------ *)
(** * Further properties of http_request *)

(** ** What is kept of what is read *)

Lemma reads_of_app a b : reads_of (a ++ b) = reads_of a ++ reads_of b.
Proof. unfold reads_of. apply flat_map_app. Qed.

Lemma firstn_full_app {A} n (l more : list A) :
  List.length l = n -> firstn n (l ++ more) = l.
Proof.
  intros <-. rewrite firstn_app, Nat.sub_diag, firstn_all. cbn.
  apply app_nil_r.
Qed.

Lemma wait_trace_no_read b evs : wait_trace b evs -> reads_of evs = [].
Proof. induction 1; cbn; auto. Qed.

(** The read loop keeps the first 49 characters of what it had and what
    it reads, and reads on past them. *)
Lemma read_loop_keeps_first {W} {C : Http.NetworkClient W} fuel :
  forall bytes (m : Http.machine W),
    (List.length bytes <= 49)%nat ->
    match Http.read_loop fuel (image bytes) (length bytes) m with
    | Ret (buf', i', m') =>
        exists evs more,
          Http.calls m' = Http.calls m ++ evs /\
          Http.stores m' = Http.stores m ++ stored_from (length bytes) more /\
          buf' = image (bytes ++ more) /\
          i' = length (bytes ++ more) /\
          bytes ++ more = firstn 49 (bytes ++ reads_of evs)
    | _ => True
    end.
Proof.
  induction fuel as [|fuel IH]; intros bytes m Hlen; [exact I|].
  cbn [Http.read_loop]. unfold bind at 1, Http.connected.
  destruct (Http.net_connected (Http.world m)) as [up w1].
  destruct up.
  2:{ unfold ret. cbn [Http.calls Http.stores Http.record].
      exists [Http.EvConnected false], [].
      cbn [reads_of flat_map stored_from]. rewrite !app_nil_r.
      repeat split; auto. symmetry. now apply firstn_all2. }
  unfold bind at 1, Http.available. cbn [Http.world Http.record].
  destruct (Http.net_available w1) as [n w2].
  destruct (Z.eqb_spec n 0) as [Hn|Hn]; cbn [negb].
  - unfold bind at 1, Http.stop. cbn [Http.world Http.record].
    match goal with |- match Http.read_loop _ _ _ ?m2 with _ => _ end =>
      specialize (IH bytes m2 Hlen);
      destruct (Http.read_loop fuel (image bytes) (length bytes) m2)
        as [[[buf' i'] m']| |]; try exact I
    end.
    destruct IH as (evs & more & Hc & Hs & Hb & Hi & Hkeep).
    cbn [Http.calls Http.stores Http.record] in Hc, Hs.
    exists (Http.EvConnected true :: Http.EvAvailable n :: Http.EvStop :: evs),
           more.
    rewrite Hc, <- !app_assoc. repeat split; auto.
  - unfold bind at 1, Http.read. cbn [Http.world Http.record].
    destruct (Http.net_read w2) as [r w3].
    destruct (Z.ltb_spec (length bytes) Http._HEADER_LEN) as [Hroom|Hfull].
    + unfold Http._HEADER_LEN in Hroom. unfold length in Hroom.
      unfold bind at 1, Http.store.
      replace ((0 <=? length bytes) && (length bytes <? Http._HEADER_LEN + 1))
        with true.
      2:{ symmetry. apply andb_true_iff. unfold length, Http._HEADER_LEN.
          split; [apply Z.leb_le | apply Z.ltb_lt]; lia. }
      cbn [Http.world Http._wait Http.calls Http.stores Http.record].
      assert (Hlen' : (List.length (bytes ++ [char_of_int r]) <= 49)%nat)
        by (rewrite List.length_app; simpl; lia).
      assert (Hi' : to_byte (length bytes + 1)
                    = length (bytes ++ [char_of_int r])).
      { rewrite length_app. unfold length. simpl List.length.
        rewrite to_byte_small; lia. }
      unfold length at 1. rewrite Nat2Z.id, update_image by lia.
      rewrite Hi'.
      match goal with |- match Http.read_loop _ _ _ ?m2 with _ => _ end =>
        specialize (IH (bytes ++ [char_of_int r]) m2 Hlen');
        destruct (Http.read_loop fuel (image (bytes ++ [char_of_int r]))
                                 (length (bytes ++ [char_of_int r])) m2)
          as [[[buf' i'] m']| |]; try exact I
      end.
      destruct IH as (evs & more & Hc & Hs & Hb & Hi & Hkeep).
      cbn [Http.calls Http.stores Http.record] in Hc, Hs.
      exists (Http.EvConnected true :: Http.EvAvailable n
              :: Http.EvRead r :: evs),
             (char_of_int r :: more).
      rewrite <- !app_assoc in Hkeep, Hb, Hi. cbn [app] in Hkeep, Hb, Hi.
      rewrite Hc, Hs, <- !app_assoc. cbn [app stored_from].
      rewrite (length_app bytes [char_of_int r]).
      change (length [char_of_int r]) with 1.
      repeat split; auto.
      change (reads_of (Http.EvConnected true :: Http.EvAvailable n
                        :: Http.EvRead r :: evs))
        with (char_of_int r :: reads_of evs).
      rewrite Hkeep, <- app_assoc. reflexivity.
    + match goal with |- match Http.read_loop _ _ _ ?m2 with _ => _ end =>
        specialize (IH bytes m2 Hlen);
        destruct (Http.read_loop fuel (image bytes) (length bytes) m2)
          as [[[buf' i'] m']| |]; try exact I
      end.
      destruct IH as (evs & more & Hc & Hs & Hb & Hi & Hkeep).
      cbn [Http.calls Http.stores Http.record] in Hc, Hs.
      exists (Http.EvConnected true :: Http.EvAvailable n
              :: Http.EvRead r :: evs), more.
      assert (Hfull' : List.length bytes = 49%nat).
      { unfold Http._HEADER_LEN, length in Hfull. lia. }
      rewrite Hc, <- !app_assoc. repeat split; auto.
      rewrite Hkeep. rewrite !firstn_full_app by assumption. reflexivity.
Qed.

(** The capture phase keeps the first 49 characters it reads. *)
Lemma read_header_keeps_first {W} {C : Http.NetworkClient W}
      fuel (m : Http.machine W) :
  match Http.read_header fuel m with
  | Ret (header, m') =>
      exists evs,
        Http.calls m' = Http.calls m ++ evs ++ [Http.EvStop] /\
        captured m m' (firstn 49 (reads_of evs)) /\
        header = c_string (firstn 49 (reads_of evs))
  | _ => True
  end.
Proof.
  unfold Http.read_header. unfold bind at 1.
  pose proof (read_loop_keeps_first fuel [] m) as Hloop.
  change (image []) with Http.fresh_buffer in Hloop.
  change (length []) with 0 in Hloop.
  destruct (Http.read_loop fuel Http.fresh_buffer 0 m) as [[[buf i] m1]| |];
    try exact I.
  destruct Hloop as (evs & bytes & Hc & Hs & Hb & Hi & Hkeep); [simpl; lia|].
  cbn [app] in Hb, Hi, Hkeep. cbn [fst snd]. subst buf i.
  assert (Hl : (List.length bytes <= 49)%nat).
  { rewrite Hkeep. rewrite List.length_firstn. lia. }
  unfold bind at 1, Http.store.
  replace ((0 <=? length bytes) && (length bytes <? Http._HEADER_LEN + 1))
    with true.
  2:{ symmetry. apply andb_true_iff. unfold length, Http._HEADER_LEN.
      split; [apply Z.leb_le | apply Z.ltb_lt]; lia. }
  unfold bind at 1, Http.stop.
  cbn [Http.world Http._wait Http.calls Http.stores Http.record].
  unfold length at 1. rewrite Nat2Z.id, image_unfold, update_at_end by lia.
  rewrite cstr_terminated. unfold ret.
  exists evs. unfold captured.
  cbn [Http.calls Http.stores Http.record].
  rewrite Hc, Hs, <- Hkeep, <- !app_assoc. repeat split; auto.
Qed.

(** What a returning call whose connect() succeeded captured, in terms of
    what it read. *)
Lemma http_request_keeps_first {W} {C : Http.NetworkClient W}
      RW fuel data method base_url path port hdrs (m : Http.machine W)
      status m' :
  Http.http_request RW fuel data method base_url path port hdrs m
  = Ret (status, m') ->
  fst (Http.net_connect base_url port (Http.world m)) <> 0 ->
  captured m m' (firstn 49 (reads_of (new_calls m m'))) /\
  status = Http.parse_status (c_string (firstn 49 (reads_of (new_calls m m')))).
Proof.
  intros Hrun Hr.
  apply http_request_Ret in Hrun. cbn zeta in Hrun.
  destruct Hrun as [(Hz & _) | (_ & header & Hx & ->)]; [contradiction|].
  apply http_exchange_Ret in Hx. destruct Hx as (b & m2 & Hwait & Hread).
  match type of Hwait with
  | Http.wait_loop _ _ ?m1 = _ =>
      pose proof (wait_loop_run RW fuel m1) as Hshape
  end.
  rewrite Hwait in Hshape. destruct Hshape as (wevs & Hc2 & Htw & Hs2).
  cbn [Http.calls Http.stores Http.world Http.record] in Hc2, Hs2.
  pose proof (read_header_keeps_first fuel m2) as Hkeep.
  rewrite Hread in Hkeep. destruct Hkeep as (evs & Hc3 & Hcap & Hh).
  assert (Hnew : new_calls m m'
                 = (Http.EvConnect base_url port
                      (fst (Http.net_connect base_url port (Http.world m)))
                    :: Http.EvPrintln
                         (Http.format_request data method base_url path hdrs)
                    :: wevs) ++ evs ++ [Http.EvStop]).
  { apply new_calls_app. rewrite Hc3, Hc2, <- !app_assoc. reflexivity. }
  assert (Hreads : reads_of (new_calls m m') = reads_of evs).
  { rewrite Hnew, !reads_of_app.
    change (reads_of [Http.EvStop]) with (@nil ascii). rewrite app_nil_r.
    match goal with |- reads_of (?e1 :: ?e2 :: wevs) ++ _ = _ =>
      change (reads_of (e1 :: e2 :: wevs)) with (reads_of wevs)
    end.
    now rewrite (wait_trace_no_read _ _ Htw). }
  rewrite Hreads. split; [|now rewrite <- Hh].
  unfold captured in *. rewrite Hcap, Hs2. reflexivity.
Qed.

(** X1.  A returning call whose connect() succeeded has stored in
    header_str exactly the first 49 characters it read, in the order read;
    what it read beyond them was read and dropped.  The status is parsed
    from those characters up to their first NUL. *)
Theorem buffer_keeps_first_49_read :
  forall (W : Type) (C : Http.NetworkClient W) (RW : Z) (fuel : nat)
         (data method base_url path hdrs : Str) (port : Z)
         (m : Http.machine W) (status : Z) (m' : Http.machine W),
    Http.http_request RW fuel data method base_url path port hdrs m
    = Ret (status, m') ->
    fst (Http.net_connect base_url port (Http.world m)) <> 0 ->
    let kept := firstn 49 (reads_of (new_calls m m')) in
    captured m m' kept /\
    status = Http.parse_status (c_string kept).
Proof.
  intros W C RW fuel data method base_url path hdrs port m status m'
         Hrun Hr.
  exact (http_request_keeps_first RW fuel data method base_url path port hdrs
                                  m status m' Hrun Hr).
Qed.

Lemma buffer_keeps_first_witness :
  exists status m',
    Http.http_request 3 80 (lit "t=21") (lit "POST") (lit "example.org")
                      (lit "/post") 80 (lit "") (Sim.boot verbose_peer)
    = Ret (status, m') /\
    List.length (reads_of (new_calls (Sim.boot verbose_peer) m')) = 61%nat /\
    captured (Sim.boot verbose_peer) m'
      (lit "HTTP/1.1 200 OK" ++ LF :: lit "Content-Type: application/json; c").
Proof.
  eexists. eexists. split; [vm_compute; reflexivity|].
  split; [vm_compute; reflexivity|].
  edestruct (buffer_keeps_first_49_read
               Sim.client Sim.client_is_network_client 3 80%nat
               (lit "t=21") (lit "POST") (lit "example.org") (lit "/post")
               (lit "") 80 (Sim.boot verbose_peer)) as (Hcap & _).
  - vm_compute. reflexivity.
  - discriminate.
  - exact Hcap.
Defined.

(** X2.  When there is no space among the first 49 characters a call
    read, it returns status 0, whatever came after them: a first token
    that does not fit the buffer is never parsed. *)
Theorem long_first_token_gives_zero :
  forall (W : Type) (C : Http.NetworkClient W) (RW : Z) (fuel : nat)
         (data method base_url path hdrs : Str) (port : Z)
         (m : Http.machine W) (status : Z) (m' : Http.machine W),
    Http.http_request RW fuel data method base_url path port hdrs m
    = Ret (status, m') ->
    ~ In SPACE (firstn 49 (reads_of (new_calls m m'))) ->
    status = 0.
Proof.
  intros W C RW fuel data method base_url path hdrs port m status m'
         Hrun Hno.
  destruct (Z.eq_dec (fst (Http.net_connect base_url port (Http.world m))) 0)
    as [Hz|Hr].
  - apply http_request_Ret in Hrun. cbn zeta in Hrun.
    destruct Hrun as [(_ & Hs & _) | (Hr & _)]; [exact Hs | contradiction].
  - destruct (http_request_keeps_first RW fuel data method base_url path port
                                       hdrs m status m' Hrun Hr) as (_ & ->).
    apply parse_status_no_space. intros Hin. apply Hno.
    now apply c_string_incl.
Qed.

Lemma long_first_token_witness :
  exists status m',
    Http.http_request 3 80 (lit "t=21") (lit "GET") (lit "example.org")
                      (lit "/get") 80 (lit "") (Sim.boot rambling_peer)
    = Ret (status, m') /\
    In SPACE (reads_of (new_calls (Sim.boot rambling_peer) m')) /\
    status = 0.
Proof.
  eexists. eexists. split; [vm_compute; reflexivity|].
  split; [apply present_by_check; vm_compute; reflexivity|].
  eapply (long_first_token_gives_zero
            Sim.client Sim.client_is_network_client 3 80%nat
            (lit "t=21") (lit "GET") (lit "example.org") (lit "/get")
            (lit "") 80 (Sim.boot rambling_peer)).
  - vm_compute. reflexivity.
  - apply absent_by_check. vm_compute. reflexivity.
Defined.

(** ** The calls of one http_request *)

(** A returning call whose connect() succeeded, phase by phase. *)
Lemma http_request_phases {W} {C : Http.NetworkClient W}
      RW fuel data method base_url path port hdrs (m : Http.machine W)
      status m' :
  Http.http_request RW fuel data method base_url path port hdrs m
  = Ret (status, m') ->
  fst (Http.net_connect base_url port (Http.world m)) <> 0 ->
  let request := Http.format_request data method base_url path hdrs in
  let m1 := after_send request base_url port m in
  exists b m2 wevs evs header,
    Http.wait_loop RW fuel m1 = Ret (b, m2) /\
    Http.calls m2 = Http.calls m1 ++ wevs /\
    wait_trace b wevs /\
    Http.read_header fuel m2 = Ret (header, m') /\
    Http.calls m' = Http.calls m2 ++ evs ++ [Http.EvStop] /\
    read_trace evs /\
    Http._wait m' = Http._wait m2 /\
    status = Http.parse_status header /\
    new_calls m m'
    = Http.EvConnect base_url port
        (fst (Http.net_connect base_url port (Http.world m)))
      :: Http.EvPrintln request :: wevs ++ evs ++ [Http.EvStop].
Proof.
  intros Hrun Hr request m1.
  apply http_request_Ret in Hrun. cbn zeta in Hrun.
  destruct Hrun as [(Hz & _) | (_ & header & Hx & Hst)]; [contradiction|].
  apply http_exchange_Ret in Hx. destruct Hx as (b & m2 & Hwait & Hread).
  cbn [Http.world Http.record] in Hwait.
  change (Http.wait_loop RW fuel m1 = Ret (b, m2)) in Hwait.
  pose proof (wait_loop_run RW fuel m1) as Hshape.
  rewrite Hwait in Hshape. destruct Hshape as (wevs & Hc2 & Htw & _).
  pose proof (read_header_run fuel m2) as Hpost. rewrite Hread in Hpost.
  destruct Hpost as (evs & bytes & Hc3 & Ht & Hw & _).
  exists b, m2, wevs, evs, header.
  repeat (split; [assumption|]).
  apply new_calls_app. rewrite Hc3, Hc2. subst m1. unfold after_send.
  cbn [Http.calls Http.record]. rewrite <- !app_assoc. reflexivity.
Qed.

Lemma wait_trace_only_polls b evs :
  wait_trace b evs ->
  count is_connect evs = 0 /\ count is_read evs = 0 /\
  forall ms, In (Http.EvDelay ms) evs -> ms = 1.
Proof.
  induction 1 as [n Hn | | b evs _ (IH1 & IH2 & IH3)].
  - repeat split; try reflexivity. intros ms [E|[]]. discriminate E.
  - repeat split; try reflexivity.
    intros ms [E|[E|[]]]; [discriminate E | now inversion E].
  - change (Http.EvAvailable 0 :: Http.EvDelay 1 :: evs)
      with ([Http.EvAvailable 0; Http.EvDelay 1] ++ evs).
    rewrite !count_app, IH1, IH2. repeat split; try reflexivity.
    intros ms Hin. apply in_app_or in Hin.
    destruct Hin as [[E|[E|[]]]|Hin];
      [discriminate E | now inversion E | auto].
Qed.

Lemma read_trace_no_connect evs :
  read_trace evs ->
  count is_connect evs = 0 /\ forall ms, ~ In (Http.EvDelay ms) evs.
Proof.
  induction 1 as [| n r evs Hn _ (IH1 & IH2) | evs _ (IH1 & IH2)].
  - split; [reflexivity|]. intros ms [E|[]]. discriminate E.
  - change (Http.EvConnected true :: Http.EvAvailable n :: Http.EvRead r :: evs)
      with ([Http.EvConnected true; Http.EvAvailable n; Http.EvRead r] ++ evs).
    rewrite count_app, IH1. split; [reflexivity|].
    intros ms Hin. apply in_app_or in Hin.
    destruct Hin as [[E|[E|[E|[]]]]|Hin]; try discriminate E.
    exact (IH2 ms Hin).
  - change (Http.EvConnected true :: Http.EvAvailable 0 :: Http.EvStop :: evs)
      with ([Http.EvConnected true; Http.EvAvailable 0; Http.EvStop] ++ evs).
    rewrite count_app, IH1. split; [reflexivity|].
    intros ms Hin. apply in_app_or in Hin.
    destruct Hin as [[E|[E|[E|[]]]]|Hin]; try discriminate E.
    exact (IH2 ms Hin).
Qed.



(** ** How long a call sleeps *)

Lemma wait_loop_ready {W} {C : Http.NetworkClient W} RW fuel
      (m : Http.machine W) b m2 :
  Http.wait_loop RW fuel m = Ret (b, m2) ->
  fst (Http.net_available (Http.world m)) <> 0 ->
  b = false /\ Http._wait m2 = Http._wait m /\
  Http.calls m2
  = Http.calls m
    ++ [Http.EvAvailable (fst (Http.net_available (Http.world m)))].
Proof.
  destruct fuel as [|fuel]; [discriminate|].
  cbn [Http.wait_loop]. unfold bind at 1, Http.available.
  destruct (Http.net_available (Http.world m)) as [n w1]. cbn [fst].
  intros Hrun Hn. destruct (Z.eqb_spec n 0) as [E|_]; [contradiction|].
  unfold ret in Hrun. inversion Hrun. auto.
Qed.

(** X4.  With the wait counter in its range, a returning call sleeps at
    most REQUEST_REPLY_WAIT + 2 - [_wait] times, each time by delay(1), and
    all of it while waiting for the first byte; with a byte there at the
    first poll it does not sleep at all and leaves [_wait] as it was. *)
Theorem sleep_is_bounded :
  forall (W : Type) (C : Http.NetworkClient W) (RW : Z) (fuel : nat)
         (data method base_url path hdrs : Str) (port : Z)
         (m : Http.machine W) (status : Z) (m' : Http.machine W),
    0 <= RW <= INT_MAX - 2 ->
    0 <= Http._wait m <= RW + 1 ->
    Http.http_request RW fuel data method base_url path port hdrs m
    = Ret (status, m') ->
    count is_delay (new_calls m m') <= RW + 2 - Http._wait m /\
    (forall ms, In (Http.EvDelay ms) (new_calls m m') -> ms = 1) /\
    (fst (Http.net_available
            (Http.world
               (after_send (Http.format_request data method base_url path hdrs)
                           base_url port m))) <> 0 ->
     count is_delay (new_calls m m') = 0 /\
     Http._wait m' = Http._wait m).
Proof.
  intros W C RW fuel data method base_url path hdrs port m status m'
         Hrw Hw Hrun.
  destruct (Z.eq_dec (fst (Http.net_connect base_url port (Http.world m))) 0)
    as [Hz|Hr].
  - apply http_request_Ret in Hrun. cbn zeta in Hrun.
    destruct Hrun as [(_ & _ & ->) | (Hr & _)]; [|contradiction].
    match goal with |- context [new_calls m ?mm] =>
      assert (Hnew : new_calls m mm
                     = [Http.EvConnect base_url port
                          (fst (Http.net_connect base_url port (Http.world m)))])
        by (apply new_calls_app; reflexivity)
    end.
    rewrite Hnew. change (count is_delay [_]) with 0.
    split; [lia|]. split.
    + intros ms [E|[]]. discriminate E.
    + intros _. split; reflexivity.
  - destruct (http_request_phases RW fuel data method base_url path port hdrs
                                  m status m' Hrun Hr)
      as (b & m2 & wevs & evs & header & Hwait & Hc2 & Htw & _ & _ & Ht
          & Hsame & _ & Hnew).
    destruct (wait_trace_only_polls _ _ Htw) as (_ & _ & Hone).
    destruct (read_trace_counts _ Ht) as (_ & _ & Hrd).
    destruct (read_trace_no_connect _ Ht) as (_ & Hnod).
    assert (Hsleeps : count is_delay (new_calls m m') = count is_delay wevs).
    { rewrite Hnew.
      match goal with |- count _ (?e1 :: ?e2 :: ?l) = _ =>
        change (e1 :: e2 :: l) with ([e1; e2] ++ l)
      end.
      rewrite !count_app, Hrd.
      change (count is_delay [Http.EvStop]) with 0.
      match goal with |- count is_delay ?l + _ = _ =>
        change (count is_delay l) with 0
      end.
      lia. }
    set (m1 := after_send (Http.format_request data method base_url path hdrs)
                          base_url port m) in *.
    assert (Hw1 : 0 <= Http._wait m1 <= RW + 1) by exact Hw.
    pose proof (wait_loop_counter RW Hrw fuel m1 Hw1) as Hcount.
    rewrite Hwait in Hcount. destruct Hcount as (wevs' & Hc' & Hb).
    assert (wevs' = wevs) by (rewrite Hc2 in Hc'; now apply app_inv_head in Hc').
    subst wevs'. change (Http._wait m1) with (Http._wait m) in Hb.
    pose proof (count_nonneg is_delay wevs) as Hd.
    rewrite Hsleeps. split; [destruct b; lia|]. split.
    + intros ms Hin. rewrite Hnew in Hin.
      destruct Hin as [E|[E|Hin]]; try discriminate E.
      apply in_app_or in Hin. destruct Hin as [Hin|Hin]; [now apply Hone|].
      apply in_app_or in Hin. destruct Hin as [Hin|[E|[]]];
        [exfalso; exact (Hnod ms Hin) | discriminate E].
    + intros Hready.
      destruct (wait_loop_ready RW fuel m1 b m2 Hwait Hready)
        as (-> & Hkeep & Hc1).
      rewrite Hc2 in Hc1. apply app_inv_head in Hc1. subst wevs.
      split; [reflexivity|]. rewrite Hsame, Hkeep. reflexivity.
Qed.

Lemma sleep_is_bounded_witness :
  exists status m',
    Http.http_request 100 200 (lit "t=21") (lit "GET") (lit "example.org")
                      (lit "/get") 80 (lit "") (Sim.boot prompt_peer)
    = Ret (status, m') /\
    count is_delay (new_calls (Sim.boot prompt_peer) m') = 0 /\
    Http._wait m' = 0.
Proof.
  eexists. eexists. split; [vm_compute; reflexivity|].
  edestruct (sleep_is_bounded
               Sim.client Sim.client_is_network_client 100 200%nat
               (lit "t=21") (lit "GET") (lit "example.org") (lit "/get")
               (lit "") 80 (Sim.boot prompt_peer)) as (_ & _ & Hready).
  - unfold INT_MAX. lia.
  - simpl. lia.
  - vm_compute. reflexivity.
  - apply Hready. vm_compute. discriminate.
Defined.

(** ** More on the request text *)

(** X5.  For a method other than "GET", the request text ends with an
    empty line followed by the body exactly when the caller's headers are
    empty or end with a newline; headers that end otherwise, as the header
    asks them to, are followed by the body after a single newline. *)
Theorem body_follows_blank_line_iff :
  forall (data method base_url path hdrs : Str),
    method <> lit "GET" ->
    (ends_with (LF :: LF :: data)
               (Http.format_request data method base_url path hdrs)
     <-> hdrs = [] \/ ends_with [LF] hdrs) /\
    ends_with (hdrs ++ LF :: data)
              (Http.format_request data method base_url path hdrs).
Proof.
  intros data method base_url path hdrs Hm.
  assert (Htext : exists front,
             Http.format_request data method base_url path hdrs
             = (front ++ [LF]) ++ hdrs ++ LF :: data).
  { rewrite format_request_eq. apply equals_neq in Hm. rewrite Hm.
    exists (method ++ lit " " ++ path ++ lit " HTTP/1.1" ++ [LF]
            ++ lit "Host: " ++ base_url ++ [LF]
            ++ lit "Content-Length: " ++ utoa (length data)).
    repeat (first [rewrite <- app_assoc | progress (cbn [app])]).
    reflexivity. }
  destruct Htext as (front & Htext). rewrite Htext. split.
  - split.
    + intros (f & Hf).
      destruct hdrs as [|c hdrs0]; [now left|]. right.
      destruct (exists_last (l := c :: hdrs0)) as (h & x & Hh);
        [discriminate|].
      rewrite Hh in *. exists h. f_equal.
      assert (E : ((front ++ [LF]) ++ h) ++ [x] = (f ++ [LF])).
      { apply (app_inv_tail (LF :: data)).
        rewrite <- !app_assoc. rewrite <- !app_assoc in Hf. exact Hf. }
      apply app_inj_tail in E. destruct E as (_ & ->). reflexivity.
    + intros [-> | (h & ->)].
      * exists front. cbn [app]. rewrite <- app_assoc. reflexivity.
      * exists ((front ++ [LF]) ++ h). rewrite <- !app_assoc. reflexivity.
  - exists (front ++ [LF]). reflexivity.
Qed.

Lemma body_follows_blank_line_witness :
  ends_with (LF :: LF :: lit "hello world!")
            (Http.format_request (lit "hello world!") (lit "POST")
                                 (lit "httpbin.org") (lit "/post") (lit "")) /\
  ~ ends_with (LF :: LF :: lit "hello world!")
              (Http.format_request (lit "hello world!") (lit "POST")
                                   (lit "httpbin.org") (lit "/post")
                                   (lit "Authorization: bear")).
Proof.
  split.
  - apply (body_follows_blank_line_iff
             (lit "hello world!") (lit "POST") (lit "httpbin.org")
             (lit "/post") (lit "") ltac:(discriminate)).
    left. reflexivity.
  - intros Hends.
    apply (body_follows_blank_line_iff
             (lit "hello world!") (lit "POST") (lit "httpbin.org")
             (lit "/post") (lit "Authorization: bear") ltac:(discriminate))
      in Hends.
    destruct Hends as [E | (h & E)]; [discriminate E|].
    apply (f_equal (@rev ascii)) in E. rewrite rev_app_distr in E.
    cbn in E. discriminate E.
Defined.



(** ** Status lines *)

Lemma isdigit_code c : isdigit c = true -> 48 <= code c <= 57.
Proof.
  unfold isdigit. intros H. apply andb_true_iff in H.
  destruct H as (Hlo & Hhi). apply Z.leb_le in Hlo, Hhi. lia.
Qed.

Lemma toInt_of_digits ds :
  ds <> [] -> forallb isdigit ds = true ->
  toInt ds = clamp_long (digits_from 0 ds).
Proof.
  destruct ds as [|c t]; [congruence|]. intros _ Hall.
  cbn [forallb] in Hall. apply andb_true_iff in Hall. destruct Hall as (Hc & _).
  apply isdigit_code in Hc.
  unfold toInt, strtol10. cbn [skip_space].
  assert (Hsp : isspace c = false).
  { unfold isspace. apply orb_false_iff. split.
    - apply Z.eqb_neq. lia.
    - apply andb_false_iff. right. apply Z.leb_gt. lia. }
  rewrite Hsp.
  destruct (Ascii.eqb_spec c "-") as [E|_].
  { subst c. compute in Hc. destruct Hc as (Hc & _). now elim Hc. }
  destruct (Ascii.eqb_spec c "+") as [E|_].
  { subst c. compute in Hc. destruct Hc as (Hc & _). now elim Hc. }
  reflexivity.
Qed.

(** What utoa prints, toInt reads back. *)
Lemma toInt_utoa n : 0 <= n <= LONG_MAX -> toInt (utoa n) = n.
Proof.
  intros Hn. destruct (utoa_decimal n) as (Hne & Hall & Hval); [lia|].
  rewrite toInt_of_digits, Hval by assumption.
  unfold clamp_long, LONG_MIN, LONG_MAX, INT_MIN, INT_MAX in *.
  destruct (Z.ltb_spec n (-2147483648)); [lia|].
  destruct (Z.ltb_spec 2147483647 n); lia.
Qed.

Lemma utoa_holds_no_space n : 0 <= n -> ~ In SPACE (utoa n).
Proof.
  intros Hn Hin. destruct (utoa_decimal n Hn) as (_ & Hall & _).
  rewrite forallb_forall in Hall. specialize (Hall SPACE Hin).
  discriminate Hall.
Qed.

Lemma utoa_three_digits n : 100 <= n <= 999 -> List.length (utoa n) = 3%nat.
Proof.
  intros Hn. unfold utoa.
  destruct (Z.to_nat n) as [|[|k]] eqn:Hk; try lia.
  cbn [utoa_loop].
  destruct (Z.eqb_spec (n / 10) 0) as [E|_].
  { exfalso. assert (10 <= n / 10) by (apply Z.div_le_lower_bound; lia). lia. }
  destruct (Z.eqb_spec (n / 10 / 10) 0) as [E|_].
  { exfalso. rewrite Z.div_div in E by lia.
    assert (1 <= n / (10 * 10)) by (apply Z.div_le_lower_bound; lia). lia. }
  destruct (Z.eqb_spec (n / 10 / 10 / 10) 0) as [_|E]; [reflexivity|].
  exfalso. apply E. rewrite !Z.div_div by lia. apply Z.div_small. lia.
Qed.

(** X7.  Once connect() has succeeded and the exchange has come back:
    a header of the form "<n> ..." with n from 1 to 2147483647 in decimal
    gives status n; and a header of the form "<token> <n>..." gives status
    n for every three-digit n (100 to 999), whenever the token holds no
    space and does not itself read as a number other than 0, as is the case
    of a protocol version such as HTTP/1.1. *)
Theorem status_line_gives_its_code :
  forall (W : Type) (C : Http.NetworkClient W) (RW : Z) (fuel : nat)
         (data method base_url path hdrs : Str) (port : Z)
         (m : Http.machine W) (r : Z) (w1 : W) (header : Str)
         (m' : Http.machine W),
    Http.net_connect base_url port (Http.world m) = (r, w1) ->
    r <> 0 ->
    Http.http_exchange RW fuel
      (Http.format_request data method base_url path hdrs)
      (Http.record (Http.EvConnect base_url port r) w1 m) = Ret (header, m') ->
    (forall n rest,
        1 <= n <= INT_MAX ->
        header = utoa n ++ SPACE :: rest ->
        Http.http_request RW fuel data method base_url path port hdrs m
        = Ret (n, m')) /\
    (forall token n rest,
        ~ In SPACE token -> toInt token = 0 ->
        100 <= n <= 999 ->
        header = token ++ SPACE :: utoa n ++ rest ->
        Http.http_request RW fuel data method base_url path port hdrs m
        = Ret (n, m')).
Proof.
  intros W C RW fuel data method base_url path hdrs port m r w1 header m'
         Hconn Hr Hx.
  pose proof (http_request_parses RW fuel data method base_url path port hdrs
                                  m r w1 header m' Hconn Hr Hx) as Hreq.
  pose proof (header_fits _ _ _ _ _ _ Hx) as Hfit.
  split.
  - intros n rest Hn E. rewrite Hreq. subst header.
    rewrite parse_status_split;
      [| apply utoa_holds_no_space; lia | exact Hfit].
    rewrite toInt_utoa by (unfold LONG_MAX; lia).
    destruct (Z.eqb_spec n 0); [lia | reflexivity].
  - intros token n rest Hno Hzero Hn E. rewrite Hreq. subst header.
    rewrite parse_status_split by assumption.
    rewrite Hzero. cbn [Z.eqb].
    assert (Hfirst : firstn 3 (utoa n ++ rest) = utoa n).
    { apply firstn_full_app. now apply utoa_three_digits. }
    rewrite Hfirst, toInt_utoa by (unfold LONG_MAX, INT_MAX; lia).
    reflexivity.
Qed.

Lemma status_line_witness :
  exists m',
    Http.http_request 3 50 (lit "t=21") (lit "GET") (lit "example.org")
                      (lit "/get") 80 (lit "") (Sim.boot bare_peer)
    = Ret (204, m').
Proof.
  edestruct (fun header m' =>
               status_line_gives_its_code
                 Sim.client Sim.client_is_network_client 3 50%nat
                 (lit "t=21") (lit "GET") (lit "example.org") (lit "/get")
                 (lit "") 80 (Sim.boot bare_peer) 1 _ header m' eq_refl
                 ltac:(discriminate))
    as (Hbare & _).
  - vm_compute. reflexivity.
  - eexists. apply (Hbare 204 (lit "No Content" ++ [LF])).
    + unfold INT_MAX. lia.
    + reflexivity.
Defined.

(** ** A client that is no longer connected when the read phase starts *)

Lemma read_header_disconnected {W} {C : Http.NetworkClient W}
      fuel (m2 : Http.machine W) :
  fst (Http.net_connected (Http.world m2)) = false ->
  Http.read_header (S fuel) m2
  = Ret ([], Http.mkMachine
               (Http.net_stop (snd (Http.net_connected (Http.world m2))))
               (Http._wait m2)
               (Http.calls m2 ++ [Http.EvConnected false; Http.EvStop])
               (Http.stores m2 ++ [(0, NUL)])).
Proof.
  intros Hdown. unfold Http.read_header.
  assert (Hloop : Http.read_loop (S fuel) Http.fresh_buffer 0 m2
                  = Ret (Http.fresh_buffer, 0,
                         Http.record (Http.EvConnected false)
                           (snd (Http.net_connected (Http.world m2))) m2)).
  { cbn [Http.read_loop]. unfold bind at 1, Http.connected.
    destruct (Http.net_connected (Http.world m2)) as [up w3].
    cbn [fst] in Hdown. subst up. reflexivity. }
  unfold bind at 1. rewrite Hloop. cbn [fst snd].
  unfold bind at 1, Http.store.
  change ((0 <=? 0) && (0 <? Http._HEADER_LEN + 1)) with true. cbv iota.
  unfold bind at 1, Http.stop.
  cbn [Http.world Http.record Http.calls Http.stores Http._wait].
  change (Http.cstr (Http.update Http.fresh_buffer (Z.to_nat 0) NUL))
    with (Some (@nil ascii)).
  cbv iota. unfold ret, Http.record.
  cbn [Http.world Http.calls Http.stores Http._wait].
  rewrite <- app_assoc. reflexivity.
Qed.

(** The whole call, when the wait is over and the client reports itself
    disconnected. *)
Lemma http_request_disconnected {W} {C : Http.NetworkClient W}
      RW fuel data method base_url path port hdrs (m : Http.machine W) b m2 :
  fst (Http.net_connect base_url port (Http.world m)) <> 0 ->
  Http.wait_loop RW fuel
    (after_send (Http.format_request data method base_url path hdrs)
                base_url port m) = Ret (b, m2) ->
  fst (Http.net_connected (Http.world m2)) = false ->
  exists m',
    Http.http_request RW fuel data method base_url path port hdrs m
    = Ret (0, m') /\
    Http.calls m' = Http.calls m2 ++ [Http.EvConnected false; Http.EvStop] /\
    Http.stores m' = Http.stores m ++ [(0, NUL)] /\
    Http.world m' = Http.net_stop (snd (Http.net_connected (Http.world m2))).
Proof.
  intros Hr Hwait Hdown.
  destruct fuel as [|fuel]; [discriminate Hwait|].
  eexists. split; [|split; [|split]].
  - unfold Http.http_request. unfold bind at 1, Http.connect.
    unfold after_send in Hwait. cbn zeta in Hwait.
    destruct (Http.net_connect base_url port (Http.world m)) as [r w1].
    cbn [fst snd] in Hr, Hwait.
    destruct (Z.eqb_spec r 0) as [E|_]; [contradiction|].
    unfold bind at 1, Http.http_exchange. unfold bind at 1, Http.println.
    cbn [Http.world Http.record]. unfold bind at 1. rewrite Hwait.
    rewrite (read_header_disconnected fuel m2 Hdown). reflexivity.
  - reflexivity.
  - cbn [Http.stores]. f_equal.
    pose proof (wait_loop_run RW (S fuel)
                  (after_send (Http.format_request data method base_url path
                                                   hdrs) base_url port m))
      as Hshape.
    rewrite Hwait in Hshape. destruct Hshape as (_ & _ & _ & Hs). exact Hs.
  - reflexivity.
Qed.

(** Status 0, nothing read, nothing captured: the shared part of what
    follows. *)
Lemma disconnected_read_phase_total {W} {C : Http.NetworkClient W}
      RW fuel data method base_url path port hdrs (m : Http.machine W) b m2 :
  fst (Http.net_connect base_url port (Http.world m)) <> 0 ->
  Http.wait_loop RW fuel
    (after_send (Http.format_request data method base_url path hdrs)
                base_url port m) = Ret (b, m2) ->
  fst (Http.net_connected (Http.world m2)) = false ->
  exists m',
    Http.http_request RW fuel data method base_url path port hdrs m
    = Ret (0, m') /\
    reads_of (new_calls m m') = [] /\
    captured m m' [] /\
    count is_stop (new_calls m m') = 1.
Proof.
  intros Hr Hwait Hdown.
  destruct (http_request_disconnected RW fuel data method base_url path port
                                      hdrs m b m2 Hr Hwait Hdown)
    as (m' & Hrun & Hc & Hs & _).
  exists m'. split; [exact Hrun|].
  pose proof (wait_loop_run RW fuel
                (after_send (Http.format_request data method base_url path hdrs)
                            base_url port m)) as Hshape.
  rewrite Hwait in Hshape. destruct Hshape as (wevs & Hc2 & Htw & _).
  unfold after_send in Hc2. cbn [Http.calls Http.record] in Hc2.
  assert (Hnew : new_calls m m'
                 = [Http.EvConnect base_url port
                      (fst (Http.net_connect base_url port (Http.world m)));
                    Http.EvPrintln
                      (Http.format_request data method base_url path hdrs)]
                   ++ wevs ++ [Http.EvConnected false; Http.EvStop]).
  { apply new_calls_app. rewrite Hc, Hc2, <- !app_assoc. reflexivity. }
  rewrite Hnew. split; [|split].
  - rewrite !reads_of_app, (wait_trace_no_read _ _ Htw). reflexivity.
  - exact Hs.
  - destruct (wait_trace_counts _ _ Htw) as (Hws & _ & _).
    rewrite !count_app, Hws. reflexivity.
Qed.

(** X8.  When the wait is over and the client reports itself
    disconnected at the first poll of the read phase, [http_request] reads
    nothing, stores only the NUL in cell 0, calls stop() once and returns
    status 0. *)
Theorem disconnected_client_gives_zero :
  forall (W : Type) (C : Http.NetworkClient W) (RW : Z) (fuel : nat)
         (data method base_url path hdrs : Str) (port : Z)
         (m : Http.machine W) (b : bool) (m2 : Http.machine W),
    fst (Http.net_connect base_url port (Http.world m)) <> 0 ->
    Http.wait_loop RW fuel
      (after_send (Http.format_request data method base_url path hdrs)
                  base_url port m) = Ret (b, m2) ->
    fst (Http.net_connected (Http.world m2)) = false ->
    exists m',
      Http.http_request RW fuel data method base_url path port hdrs m
      = Ret (0, m') /\
      reads_of (new_calls m m') = [] /\
      captured m m' [] /\
      count is_stop (new_calls m m') = 1.
Proof.
  intros W C RW fuel data method base_url path hdrs port m b m2.
  apply disconnected_read_phase_total.
Qed.

Lemma disconnected_client_witness :
  exists m',
    Http.http_request 3 20 (lit "t=21") (lit "GET") (lit "example.org")
                      (lit "/get") 80 (lit "") (Sim.boot closing_peer)
    = Ret (0, m') /\
    Http.stores m' = [(0, NUL)].
Proof.
  edestruct (fun b m2 =>
               disconnected_client_gives_zero
                 Sim.client Sim.client_is_network_client 3 20%nat
                 (lit "t=21") (lit "GET") (lit "example.org") (lit "/get")
                 (lit "") 80 (Sim.boot closing_peer) b m2 ltac:(discriminate))
    as (m' & Hrun & _ & Hcap & _).
  - vm_compute. reflexivity.
  - reflexivity.
  - exists m'. split; [exact Hrun | exact Hcap].
Defined.

(** ** The debug override of the network macros *)

(** X9.  With the debug header's macros (NETWORK_CONNECT true,
    NETWORK_CONNECTED false, NETWORK_STOP without effect) and the wait
    counter in its range, [http_request] given fuel for the wait always
    returns status 0 without reading a single byte from the stream,
    whatever the stream holds, and REQUEST_SEND always answers false. *)
Theorem debug_network_always_fails :
  forall (S : Type) (St : Stream S) (RW : Z) (fuel : nat)
         (data method base_url path hdrs : Str) (port : Z)
         (m : Http.machine S),
    0 <= RW <= INT_MAX - 2 ->
    0 <= Http._wait m <= RW + 1 ->
    RW + 2 - Http._wait m <= Z.of_nat fuel ->
    (exists m',
        @Http.http_request S (debug_network St) RW fuel data method base_url
                           path port hdrs m = Ret (0, m') /\
        reads_of (new_calls m m') = [] /\
        captured m m' []) /\
    (exists m',
        @Http.REQUEST_SEND S (debug_network St) RW method base_url path hdrs
                           port fuel data m = Ret (false, m')).
Proof.
  intros S St RW fuel data method base_url path hdrs port m Hrw Hw Hfuel.
  assert (Hzero : forall p,
             exists m',
               @Http.http_request S (debug_network St) RW fuel data method
                                  base_url p port hdrs m = Ret (0, m') /\
               reads_of (new_calls m m') = [] /\
               captured m m' []).
  { intros p.
    destruct (@wait_loop_total S (debug_network St) RW Hrw fuel
                (@after_send S (debug_network St)
                   (Http.format_request data method base_url p hdrs)
                   base_url port m) Hw Hfuel) as (b & m2 & Hwait).
    destruct (@disconnected_read_phase_total S (debug_network St) RW fuel data
                method base_url p port hdrs m b m2)
      as (m' & Hrun & Hrd & Hcap & _);
      [discriminate | exact Hwait | reflexivity |].
    exists m'. split; [exact Hrun|]. split; [exact Hrd | exact Hcap]. }
  split; [apply Hzero|].
  destruct (Hzero (lit "/" ++ path)) as (m' & Hrun & _).
  exists m'. unfold Http.REQUEST_SEND. unfold bind. rewrite Hrun. reflexivity.
Qed.

Lemma debug_network_witness :
  exists m',
    @Http.http_request unit (debug_network mute_stream) 100 102
      (lit "t=21") (lit "POST") (lit "example.org") (lit "/post") 80 (lit "")
      (Http.mkMachine tt 0 [] [])
    = Ret (0, m') /\
    reads_of (new_calls (Http.mkMachine tt 0 [] []) m') = [].
Proof.
  destruct (debug_network_always_fails
              unit mute_stream 100 102%nat
              (lit "t=21") (lit "POST") (lit "example.org") (lit "/post")
              (lit "") 80 (Http.mkMachine tt 0 [] []))
    as ((m' & Hrun & Hreads & _) & _).
  - unfold INT_MAX. lia.
  - simpl. lia.
  - simpl. lia.
  - exists m'. split; [exact Hrun | exact Hreads].
Defined.

(* ------------------------------------------------------------------ *)
(** * A client that stop() disconnects *)

Section StopDisconnects.

Import Http.
Context {W : Type} {C : NetworkClient W}.

Hypothesis stop_disconnects :
  forall w, fst (net_connected (net_stop w)) = false.

(** The read loop reads as long as bytes are waiting and is over with
    the first idle poll. *)
Lemma read_loop_ends_at_idle fuel :
  forall buf i m buf' i' m',
    read_loop fuel buf i m = Ret (buf', i', m') ->
    exists passes tail,
      calls m' = calls m ++ flat_map pass_events passes ++ tail /\
      Forall (fun p => fst p <> 0) passes /\
      (tail = [EvConnected false] \/
       tail = [EvConnected true; EvAvailable 0; EvStop; EvConnected false]).
Proof.
  induction fuel as [|fuel IH]; intros buf i m buf' i' m' Hrun;
    [discriminate Hrun|].
  cbn [read_loop] in Hrun. unfold bind at 1, connected in Hrun.
  destruct (net_connected (world m)) as [up w1].
  destruct up.
  2:{ injection Hrun as <- <- <-. exists [], [EvConnected false].
      split; [reflexivity|]. split; [constructor | now left]. }
  unfold bind at 1, available in Hrun. cbn [world record] in Hrun.
  destruct (net_available w1) as [n w2].
  destruct (Z.eqb_spec n 0) as [->|Hn]; cbn [negb] in Hrun.
  - (* idle: stop, and the next poll ends the loop *)
    unfold bind at 1, stop in Hrun. cbn [world record] in Hrun.
    destruct fuel as [|fuel]; [discriminate Hrun|].
    cbn [read_loop] in Hrun. unfold bind at 1, connected in Hrun.
    cbn [world record] in Hrun.
    pose proof (stop_disconnects w2) as Hdown.
    destruct (net_connected (net_stop w2)) as [up w3].
    cbn [fst] in Hdown. subst up.
    injection Hrun as <- <- <-. cbn [calls record].
    exists [], [EvConnected true; EvAvailable 0; EvStop; EvConnected false].
    split; [|split; [constructor | now right]].
    cbn [flat_map app]. rewrite <- !app_assoc. reflexivity.
  - unfold bind at 1, read in Hrun. cbn [world record] in Hrun.
    destruct (net_read w2) as [r w3].
    assert (Hrest : exists buf1 i1 m1,
               read_loop fuel buf1 i1 m1 = Ret (buf', i', m') /\
               calls m1 = calls m ++ pass_events (n, r)).
    { destruct (i <? _HEADER_LEN).
      - unfold bind at 1, store in Hrun.
        destruct ((0 <=? i) && (i <? _HEADER_LEN + 1));
          [|discriminate Hrun].
        eexists _, _, _. split; [exact Hrun|].
        cbn [calls record world]. rewrite <- !app_assoc. reflexivity.
      - eexists _, _, _. split; [exact Hrun|].
        cbn [calls record world]. rewrite <- !app_assoc. reflexivity. }
    destruct Hrest as (buf1 & i1 & m1 & Hrest & Hc1).
    destruct (IH _ _ _ _ _ _ Hrest) as (passes & tail & Hc & Hall & Htail).
    exists ((n, r) :: passes), tail. split; [|split; [|exact Htail]].
    + rewrite Hc, Hc1. cbn [flat_map]. rewrite <- !app_assoc. reflexivity.
    + constructor; [exact Hn | exact Hall].
Qed.

Lemma read_header_ends_at_idle fuel m header m' :
  read_header fuel m = Ret (header, m') ->
  exists passes tail,
    calls m' = calls m ++ flat_map pass_events passes ++ tail ++ [EvStop] /\
    Forall (fun p => fst p <> 0) passes /\
    (tail = [EvConnected false] \/
     tail = [EvConnected true; EvAvailable 0; EvStop; EvConnected false]).
Proof.
  intros Hrun. unfold read_header in Hrun. unfold bind at 1 in Hrun.
  destruct (read_loop fuel fresh_buffer 0 m) as [[[buf i] m1]| |] eqn:Hloop;
    try discriminate Hrun.
  destruct (read_loop_ends_at_idle _ _ _ _ _ _ _ Hloop)
    as (passes & tail & Hc & Hall & Htail).
  unfold bind at 1, store in Hrun. cbn [fst snd] in Hrun.
  destruct ((0 <=? i) && (i <? _HEADER_LEN + 1)); [|discriminate Hrun].
  unfold bind at 1, stop in Hrun. cbn [world record calls] in Hrun.
  destruct (cstr (update buf (Z.to_nat i) NUL)); [|discriminate Hrun].
  injection Hrun as _ <-. cbn [calls record world].
  exists passes, tail. split; [|split; assumption].
  rewrite Hc, <- !app_assoc. reflexivity.
Qed.

End StopDisconnects.

Lemma reads_of_passes passes :
  reads_of (flat_map pass_events passes)
  = map (fun p => char_of_int (snd p)) passes.
Proof.
  induction passes as [|p passes IH]; [reflexivity|].
  cbn [flat_map map]. rewrite reads_of_app, IH. reflexivity.
Qed.

Lemma count_stop_passes passes :
  count is_stop (flat_map pass_events passes) = 0.
Proof.
  induction passes as [|p passes IH]; [reflexivity|].
  cbn [flat_map]. rewrite count_app, IH. reflexivity.
Qed.

(** X10.  With a client that is disconnected once stop() has been called
    on it, the read phase of [http_request] is a run of reads, each made
    after an available() that was not 0, and is over at the first idle
    poll or when the peer has closed: nothing is read after an idle poll.
    What was read is what these reads returned, and stop is called once
    or twice in all. *)
Theorem reading_ends_at_first_idle_poll :
  forall (W : Type) (C : Http.NetworkClient W) (RW : Z) (fuel : nat)
         (data method base_url path hdrs : Str) (port : Z)
         (m m' : Http.machine W) (status : Z),
    (forall w, fst (Http.net_connected (Http.net_stop w)) = false) ->
    fst (Http.net_connect base_url port (Http.world m)) <> 0 ->
    Http.http_request RW fuel data method base_url path port hdrs m
    = Ret (status, m') ->
    exists b wevs passes tail,
      new_calls m m'
      = Http.EvConnect base_url port
          (fst (Http.net_connect base_url port (Http.world m)))
        :: Http.EvPrintln (Http.format_request data method base_url path hdrs)
        :: wevs ++ flat_map pass_events passes ++ tail ++ [Http.EvStop] /\
      wait_trace b wevs /\
      Forall (fun p => fst p <> 0) passes /\
      (tail = [Http.EvConnected false] \/
       tail = [Http.EvConnected true; Http.EvAvailable 0; Http.EvStop;
               Http.EvConnected false]) /\
      reads_of (new_calls m m') = map (fun p => char_of_int (snd p)) passes /\
      1 <= count is_stop (new_calls m m') <= 2.
Proof.
  intros W C RW fuel data method base_url path hdrs port m m' status
         Hstop Hr Hrun.
  destruct (http_request_phases RW fuel data method base_url path port hdrs
                                m status m' Hrun Hr)
    as (b & m2 & wevs & evs & header & Hwait & Hc2 & Htw & Hread & Hc3 & _
        & _ & _ & Hnew).
  destruct (read_header_ends_at_idle Hstop fuel m2 header m' Hread)
    as (passes & tail & Hc & Hall & Htail).
  assert (Hevs : evs ++ [Http.EvStop]
                 = flat_map pass_events passes ++ tail ++ [Http.EvStop]).
  { apply (app_inv_head (Http.calls m2)). now rewrite <- Hc3, <- Hc. }
  assert (Hshape :
            new_calls m m'
            = [Http.EvConnect base_url port
                 (fst (Http.net_connect base_url port (Http.world m)));
               Http.EvPrintln
                 (Http.format_request data method base_url path hdrs)]
              ++ wevs ++ flat_map pass_events passes ++ tail
              ++ [Http.EvStop]).
  { rewrite Hnew, Hevs. reflexivity. }
  exists b, wevs, passes, tail.
  split; [exact Hshape|]. split; [exact Htw|]. split; [exact Hall|].
  split; [exact Htail|].
  destruct (wait_trace_counts _ _ Htw) as (Hws & _ & _).
  rewrite Hshape, !reads_of_app, !count_app.
  rewrite (wait_trace_no_read _ _ Htw), reads_of_passes, Hws,
    count_stop_passes.
  destruct Htail as [-> | ->]; split; try reflexivity;
    try (cbn [reads_of flat_map app]; now rewrite app_nil_r);
    unfold count; cbn; lia.
Qed.

Lemma reading_ends_witness :
  exists m' (passes : list (Z * Z)),
    Http.http_request 100 200 (lit "t=21") (lit "POST") (lit "example.org")
                      (lit "/post") 80 (lit "") (Sim.boot bare_peer)
    = Ret (204, m') /\
    reads_of (new_calls (Sim.boot bare_peer) m')
    = map (fun p => char_of_int (snd p)) passes /\
    count is_stop (new_calls (Sim.boot bare_peer) m') <= 2.
Proof.
  eexists.
  edestruct (reading_ends_at_first_idle_poll
               Sim.client Sim.client_is_network_client 100 200%nat
               (lit "t=21") (lit "POST") (lit "example.org") (lit "/post")
               (lit "") 80 (Sim.boot bare_peer))
    as (b & wevs & passes & tail & _ & _ & _ & _ & Hreads & Hstops).
  - intros w. reflexivity.
  - simpl. discriminate.
  - vm_compute. reflexivity.
  - exists passes. split; [vm_compute; reflexivity|].
    split; [exact Hreads | apply Hstops].
Defined.

(* ------------------------------------------------------------------ *)
(** * network.h: the MAC address as text *)

Lemma update_length buf i c :
  List.length (Http.update buf i c) = List.length buf.
Proof.
  revert i; induction buf as [|x buf IH]; intros [|i]; cbn [Http.update List.length];
    try reflexivity.
  now rewrite IH.
Qed.

(** What sprintf leaves in [hex[0]] and [hex[1]]. *)
Lemma sprintf_x_byte v :
  exists hex,
    Network.sprintf_x Network.fresh_hex (Network.byte_value v) = Ret hex /\
    Network.peek hex 0 = Ret (hex_hi v) /\
    Network.peek hex 1 = Ret (hex_lo v).
Proof.
  destruct v; eexists; (split; [vm_compute; reflexivity|]);
    split; vm_compute; reflexivity.
Qed.

Lemma poke_Ret arr i c :
  0 <= i < Z.of_nat (List.length arr) ->
  Network.poke arr i c = Ret (Http.update arr (Z.to_nat i) c).
Proof.
  intros Hi. unfold Network.poke.
  destruct (Z.leb_spec 0 i); [|lia].
  destruct (Z.ltb_spec i (Z.of_nat (List.length arr))); [|lia].
  reflexivity.
Qed.

Lemma poke_Fault arr i c :
  Z.of_nat (List.length arr) <= i -> Network.poke arr i c = Fault.
Proof.
  intros Hi. unfold Network.poke.
  destruct (Z.ltb_spec i (Z.of_nat (List.length arr))); [lia|].
  now rewrite andb_false_r.
Qed.

Section MacLoop.

Import Network.
Local Open Scope run_scope.

(** One turn of the loop on a buffer with room for both characters. *)
Lemma mac_loop_turn f mac i buf v :
  0 <= i < 6 ->
  nth_error mac (Z.to_nat i) = Some v ->
  i * 2 + 1 < Z.of_nat (List.length buf) ->
  mac_loop (S f) mac i buf
  = mac_loop f mac (i + 1)
      (Http.update (Http.update buf (Z.to_nat (i * 2)) (hex_hi v))
                   (Z.to_nat (i * 2 + 1)) (hex_lo v)).
Proof.
  intros Hi Hv Hroom. cbn [mac_loop].
  destruct (Z.ltb_spec i 6); [|lia].
  unfold bind at 1, lift at 1, load.
  destruct (Z.ltb_spec i 0); [lia|]. rewrite Hv.
  destruct (sprintf_x_byte v) as (hex & Hhex & Hhi & Hlo).
  unfold bind at 1, lift at 1. rewrite Hhex.
  unfold bind at 1, lift at 1. rewrite Hhi.
  unfold bind at 1, set_buf at 1. rewrite poke_Ret by lia.
  unfold bind at 1, lift at 1. rewrite Hlo.
  unfold bind at 1, set_buf at 1.
  rewrite poke_Ret by (rewrite update_length; lia).
  rewrite to_int_small by (unfold INT_MIN, INT_MAX; lia). reflexivity.
Qed.

Lemma mac_loop_short_mac f mac i buf :
  0 <= i < 6 ->
  nth_error mac (Z.to_nat i) = None ->
  mac_loop (S f) mac i buf = Fault.
Proof.
  intros Hi Hv. cbn [mac_loop].
  destruct (Z.ltb_spec i 6); [|lia].
  unfold bind at 1, lift at 1, load.
  destruct (Z.ltb_spec i 0); [lia|]. rewrite Hv. reflexivity.
Qed.

Lemma mac_loop_short_buf f mac i buf :
  0 <= i < 6 ->
  Z.of_nat (List.length buf) <= i * 2 + 1 ->
  mac_loop (S f) mac i buf = Fault.
Proof.
  intros Hi Hroom. cbn [mac_loop].
  destruct (Z.ltb_spec i 6); [|lia].
  unfold bind at 1, lift at 1, load.
  destruct (Z.ltb_spec i 0); [lia|].
  destruct (nth_error mac (Z.to_nat i)) as [v|]; [|reflexivity].
  destruct (sprintf_x_byte v) as (hex & Hhex & Hhi & Hlo).
  unfold bind at 1, lift at 1. rewrite Hhex.
  unfold bind at 1, lift at 1. rewrite Hhi.
  unfold bind at 1, set_buf at 1.
  destruct (Z.lt_ge_cases (i * 2) (Z.of_nat (List.length buf))) as [Hlt|Hge].
  - rewrite poke_Ret by lia.
    unfold bind at 1, lift at 1. rewrite Hlo.
    unfold bind at 1, set_buf at 1.
    rewrite poke_Fault by (rewrite update_length; lia). reflexivity.
  - rewrite poke_Fault by lia. reflexivity.
Qed.

(** With [k] turns to go the loop ends in a result or in a [Fault], and
    the sizes of the two arrays decide which. *)
Lemma mac_loop_outcome k :
  forall f i mac buf,
    i = 6 - Z.of_nat k -> (k <= 6)%nat -> (k < f)%nat ->
    if (k =? 0)%nat
       || ((6 <=? List.length mac)%nat && (12 <=? List.length buf)%nat)
    then exists buf',
        mac_loop f mac i buf = Ret (tt, buf') /\
        List.length buf' = List.length buf
    else mac_loop f mac i buf = Fault.
Proof.
  induction k as [|k IH]; intros f i mac buf Hi Hk Hf.
  - cbn [Nat.eqb orb]. destruct f as [|f]; [lia|].
    exists buf. cbn [mac_loop]. destruct (Z.ltb_spec i 6); [lia|].
    split; reflexivity.
  - cbn [Nat.eqb orb]. destruct f as [|f]; [lia|].
    destruct (nth_error mac (Z.to_nat i)) as [v|] eqn:Hv.
    + assert (Hlen : (Z.to_nat i < List.length mac)%nat)
        by (apply nth_error_Some; congruence).
      destruct (Z.lt_ge_cases (i * 2 + 1) (Z.of_nat (List.length buf)))
        as [Hroom|Hroom].
      * rewrite (mac_loop_turn f mac i buf v) by (auto; lia).
        specialize (IH f (i + 1) mac
                       (Http.update
                          (Http.update buf (Z.to_nat (i * 2)) (hex_hi v))
                          (Z.to_nat (i * 2 + 1)) (hex_lo v))).
        rewrite !update_length in IH.
        specialize (IH ltac:(lia) ltac:(lia) ltac:(lia)).
        destruct k as [|k].
        -- cbn [Nat.eqb orb] in IH.
           destruct (Nat.leb_spec 6 (List.length mac)); [|lia].
           destruct (Nat.leb_spec 12 (List.length buf)); [|lia].
           exact IH.
        -- cbn [Nat.eqb orb] in IH. exact IH.
      * rewrite mac_loop_short_buf by lia.
        destruct (Nat.leb_spec 12 (List.length buf)); [lia|].
        now rewrite andb_false_r.
    + rewrite mac_loop_short_mac by (auto; lia).
      apply nth_error_None in Hv.
      destruct (Nat.leb_spec 6 (List.length mac)); [lia|]. reflexivity.
Qed.

End MacLoop.

(** The whole function: a result exactly when both arrays are large
    enough, a [Fault] otherwise. *)
Lemma _mac2str_outcome mac buf :
  if ((6 <=? List.length mac)%nat && (13 <=? List.length buf)%nat)
  then exists buf', Network._mac2str mac buf = Ret (tt, buf')
  else Network._mac2str mac buf = Fault.
Proof.
  unfold Network._mac2str. unfold bind.
  pose proof (mac_loop_outcome 6 7 0 mac buf eq_refl ltac:(lia) ltac:(lia))
    as Hloop.
  cbn [Nat.eqb orb] in Hloop.
  destruct (Nat.leb_spec 6 (List.length mac)); cbn [andb] in *;
    [|now rewrite Hloop].
  destruct (Nat.leb_spec 12 (List.length buf)).
  - destruct Hloop as (buf1 & -> & Hlen). unfold Network.set_buf.
    destruct (Nat.leb_spec 13 (List.length buf)).
    + rewrite poke_Ret by lia. eauto.
    + rewrite poke_Fault by lia. reflexivity.
  - rewrite Hloop. destruct (Nat.leb_spec 13 (List.length buf)); [lia|].
    reflexivity.
Qed.

(** What is left in [buf]. *)
Lemma _mac2str_run b0 b1 b2 b3 b4 b5 more mac buf :
  mac = b0 :: b1 :: b2 :: b3 :: b4 :: b5 :: more ->
  (13 <= List.length buf)%nat ->
  Network._mac2str mac buf
  = Ret (tt, map Some (flat_map pair_chars [b0; b1; b2; b3; b4; b5] ++ [NUL])
             ++ skipn 13 buf).
Proof.
  intros -> Hlen.
  do 13 (destruct buf as [|? buf]; [cbn [List.length] in Hlen; lia|]).
  unfold Network._mac2str. unfold bind.
  rewrite (mac_loop_turn _ _ 0 _ b0) by (cbn [List.length]; (reflexivity || lia)).
  rewrite (mac_loop_turn _ _ 1 _ b1)
    by (rewrite ?update_length; cbn [List.length]; (reflexivity || lia)).
  rewrite (mac_loop_turn _ _ 2 _ b2)
    by (rewrite ?update_length; cbn [List.length]; (reflexivity || lia)).
  rewrite (mac_loop_turn _ _ 3 _ b3)
    by (rewrite ?update_length; cbn [List.length]; (reflexivity || lia)).
  rewrite (mac_loop_turn _ _ 4 _ b4)
    by (rewrite ?update_length; cbn [List.length]; (reflexivity || lia)).
  rewrite (mac_loop_turn _ _ 5 _ b5)
    by (rewrite ?update_length; cbn [List.length]; (reflexivity || lia)).
  cbn [Network.mac_loop]. change (5 + 1 <? 6) with false. unfold ret.
  unfold Network.set_buf.
  rewrite poke_Ret by (rewrite ?update_length; cbn [List.length]; lia).
  reflexivity.
Qed.

Lemma two_digits_no_nul v : ~ In NUL (two_digits v).
Proof. destruct v; apply absent_by_check; vm_compute; reflexivity. Qed.

Lemma hex_hi_not_nul v : hex_hi v <> NUL.
Proof. destruct v; vm_compute; discriminate. Qed.

Lemma pair_chars_two_digits v :
  two_digit_byte v = true -> pair_chars v = two_digits v.
Proof.
  unfold two_digit_byte, pair_chars, hex_hi, hex_lo, two_digits.
  intros Hv. cbv zeta.
  destruct (Z.ltb_spec (Network.byte_value v) 16); [|reflexivity].
  apply Z.leb_le in Hv. lia.
Qed.

Lemma pair_chars_small v :
  Network.byte_value v < 16 ->
  pair_chars v = [Network.hex_digit (Network.byte_value v); NUL].
Proof.
  unfold pair_chars, hex_hi, hex_lo. intros Hv. cbv zeta.
  destruct (Z.ltb_spec (Network.byte_value v) 16); [reflexivity|lia].
Qed.

Lemma flat_map_two_digits vs :
  forallb two_digit_byte vs = true ->
  flat_map pair_chars vs = flat_map two_digits vs /\
  ~ In NUL (flat_map two_digits vs).
Proof.
  induction vs as [|v vs IH]; cbn [forallb flat_map]; intros Hall.
  - split; [reflexivity | intros []].
  - apply andb_true_iff in Hall. destruct Hall as (Hv & Hall).
    destruct (IH Hall) as (Heq & Hno).
    rewrite (pair_chars_two_digits v Hv), Heq. split; [reflexivity|].
    intros Hin. apply in_app_or in Hin. destruct Hin as [Hin|Hin];
      [exact (two_digits_no_nul v Hin) | exact (Hno Hin)].
Qed.

(** A C string ends at the first NUL. *)
Lemma c_string_app_nul front back :
  ~ In NUL front -> c_string (front ++ NUL :: back) = front.
Proof.
  induction front as [|c front IH]; intros Hno.
  - reflexivity.
  - cbn [app c_string].
    destruct (Ascii.eqb_spec c NUL) as [->|_];
      [exfalso; apply Hno; now left|].
    rewrite IH; [reflexivity|]. intros Hin. apply Hno. now right.
Qed.

(** The text of the address, as the program reads it back from
    [_macstr]. *)
Lemma mac_string_run mac :
  (6 <= List.length mac)%nat ->
  Network.mac_string mac
  = Ret (c_string (flat_map pair_chars (firstn 6 mac))).
Proof.
  intros Hlen.
  do 6 (destruct mac as [|? mac]; [cbn [List.length] in Hlen; lia|]).
  unfold Network.mac_string.
  erewrite _mac2str_run; [|reflexivity|cbn; lia].
  change (skipn 13 Network._macstr) with (@nil (option ascii)).
  rewrite map_app. cbn [map]. rewrite <- app_assoc. cbn [app].
  rewrite cstr_terminated. reflexivity.
Qed.

(** X11.  Given an address of at least six bytes and a buffer of at
    least thirteen cells, [_mac2str] returns; it has written the cells 0
    to 12 and no other: two characters for each of the first six bytes
    (the two hexadecimal digits of a byte from 16 on, the one digit and a
    NUL for a byte below 16) and a NUL in cell 12. *)
Theorem mac2str_fills_thirteen_cells :
  forall (macarr : list Byte.byte) (buf : Http.buffer),
    (6 <= List.length macarr)%nat ->
    (13 <= List.length buf)%nat ->
    Network._mac2str macarr buf
    = Ret (tt, map Some (flat_map pair_chars (firstn 6 macarr) ++ [NUL])
               ++ skipn 13 buf).
Proof.
  intros mac buf Hmac Hbuf.
  do 6 (destruct mac as [|? mac]; [cbn [List.length] in Hmac; lia|]).
  erewrite _mac2str_run; [reflexivity|reflexivity|exact Hbuf].
Qed.

Lemma mac2str_fills_witness :
  Network._mac2str Network.NETWORK_MAC (Network._macstr ++ [Some "!"%char])
  = Ret (tt, map Some (lit "deaddeadbeef" ++ [NUL]) ++ [Some "!"%char]).
Proof.
  rewrite (mac2str_fills_thirteen_cells
             Network.NETWORK_MAC (Network._macstr ++ [Some "!"%char]));
    [reflexivity | cbn; lia | cbn; lia].
Defined.

(** X12.  [_mac2str] ends in a memory fault exactly when the address has
    fewer than six bytes or the buffer fewer than thirteen cells; in
    every other case it returns. *)
Theorem mac2str_faults_iff_short :
  forall (macarr : list Byte.byte) (buf : Http.buffer),
    ((6 <= List.length macarr)%nat /\ (13 <= List.length buf)%nat /\
     exists buf', Network._mac2str macarr buf = Ret (tt, buf')) \/
    (((List.length macarr < 6)%nat \/ (List.length buf < 13)%nat) /\
     Network._mac2str macarr buf = Fault).
Proof.
  intros mac buf. pose proof (_mac2str_outcome mac buf) as Hout.
  destruct (Nat.leb_spec 6 (List.length mac));
    destruct (Nat.leb_spec 13 (List.length buf)); cbn [andb] in Hout.
  - left. auto.
  - right. auto.
  - right. auto.
  - right. auto.
Qed.

(** X13.  When each of the six bytes of the address is 16 or more, the
    string read back from [_macstr] is the twelve hexadecimal digits of
    the address, two for each byte, in lower case. *)
Theorem mac_string_of_two_digit_bytes :
  forall macarr : list Byte.byte,
    (6 <= List.length macarr)%nat ->
    forallb two_digit_byte (firstn 6 macarr) = true ->
    Network.mac_string macarr = Ret (flat_map two_digits (firstn 6 macarr)) /\
    List.length (flat_map two_digits (firstn 6 macarr)) = 12%nat.
Proof.
  intros mac Hlen Hall.
  rewrite (mac_string_run mac Hlen).
  destruct (flat_map_two_digits _ Hall) as (-> & Hno).
  rewrite (c_string_no_nul _ Hno). split; [reflexivity|].
  do 6 (destruct mac as [|? mac]; [cbn [List.length] in Hlen; lia|]).
  reflexivity.
Qed.

Lemma mac_string_default_witness :
  Network.mac_string Network.NETWORK_MAC = Ret (lit "deaddeadbeef").
Proof.
  destruct (mac_string_of_two_digit_bytes Network.NETWORK_MAC) as (-> & _);
    [cbn; lia | reflexivity | reflexivity].
Defined.

(** The first [n] elements of a list, split at one of them. *)
Lemma firstn_split_at (A : Type) (l : list A) :
  forall k n v,
    nth_error l k = Some v -> (k < n)%nat ->
    firstn n l = firstn k l ++ v :: firstn (n - S k) (skipn (S k) l).
Proof.
  induction l as [|b l IH]; intros [|k] [|n] v Hv Hk;
    try discriminate Hv; try lia.
  - cbn in Hv. injection Hv as ->.
    cbn [firstn skipn app]. do 2 f_equal. lia.
  - cbn [nth_error] in Hv. cbn [firstn app].
    rewrite (IH k n v Hv) by lia. reflexivity.
Qed.

(** X14.  A byte below 16 cuts the string short: when the first [k]
    bytes of the address are 16 or more and the next one, among the
    first six, is not, the string read back from [_macstr] is the
    2 * k digits of those [k] bytes and the one digit of that byte. *)
Theorem mac_string_cut_at_small_byte :
  forall (macarr : list Byte.byte) (k : nat) (v : Byte.byte),
    (6 <= List.length macarr)%nat ->
    (k < 6)%nat ->
    forallb two_digit_byte (firstn k macarr) = true ->
    nth_error macarr k = Some v ->
    Network.byte_value v < 16 ->
    Network.mac_string macarr
    = Ret (flat_map two_digits (firstn k macarr)
           ++ [Network.hex_digit (Network.byte_value v)]) /\
    List.length (flat_map two_digits (firstn k macarr)
                 ++ [Network.hex_digit (Network.byte_value v)])
    = (2 * k + 1)%nat.
Proof.
  intros mac k v Hlen Hk Hall Hv Hsmall.
  rewrite (mac_string_run mac Hlen).
  destruct (flat_map_two_digits _ Hall) as (Heq & Hno).
  pose proof (firstn_split_at _ mac k 6 v Hv Hk) as Hsplit.
  rewrite Hsplit, flat_map_app. cbn [flat_map].
  rewrite (pair_chars_small v Hsmall), Heq. cbn [app].
  match goal with
  | |- context [c_string (?A ++ ?d :: NUL :: ?r)] =>
      change (A ++ d :: NUL :: r) with (A ++ [d] ++ NUL :: r);
      rewrite (app_assoc A [d] (NUL :: r))
  end.
  rewrite c_string_app_nul.
  - split; [reflexivity|].
    rewrite List.length_app. cbn [List.length].
    assert (Hl : forall vs, List.length (flat_map two_digits vs)
                            = (2 * List.length vs)%nat).
    { induction vs as [|x vs IHvs]; [reflexivity|].
      cbn [flat_map]. rewrite List.length_app, IHvs. cbn [two_digits List.length].
      lia. }
    rewrite Hl, length_firstn. lia.
  - intros Hin. apply in_app_or in Hin. destruct Hin as [Hin|[Hin|[]]];
      [exact (Hno Hin)|].
    pose proof (hex_hi_not_nul v) as Hhi. unfold hex_hi in Hhi.
    cbv zeta in Hhi.
    destruct (Z.ltb_spec (Network.byte_value v) 16); [|lia].
    congruence.
Qed.

Lemma mac_string_cut_witness :
  Network.mac_string
    [Byte.xde; Byte.x0a; Byte.xde; Byte.xad; Byte.xbe; Byte.xef]
  = Ret (lit "dea").
Proof.
  destruct (mac_string_cut_at_small_byte
              [Byte.xde; Byte.x0a; Byte.xde; Byte.xad; Byte.xbe; Byte.xef]
              1%nat Byte.x0a) as (-> & _);
    [cbn; lia | lia | reflexivity | reflexivity | vm_compute; reflexivity
    | reflexivity].
Defined.

(* ------------------------------------------------------------------ *)
(** * network.h in WiFi mode *)

Lemma wifi_replay_app {W} {St : WiFi.Station W} (evs more : list WiFi.event) :
  forall w : W,
    wifi_replay w (evs ++ more)
    = match wifi_replay w evs with
      | Some w1 => wifi_replay w1 more
      | None => None
      end.
Proof.
  induction evs as [|e evs IH]; intros w; [reflexivity|].
  destruct e as [ssid pass | st | [[[a b] c] d] | ms | msg];
    cbn [app wifi_replay]; try apply IH.
  - destruct (WiFi.wifi_status w) as [st' w'].
    destruct (st =? st'); [apply IH | reflexivity].
  - destruct (WiFi.wifi_localIP w) as [[[[a' b'] c'] d'] w'].
    destruct ((a =? a') && (b =? b') && (c =? c') && (d =? d'));
      [apply IH | reflexivity].
Qed.

Section WiFiLoops.

Import WiFi.
Context {W : Type} {St : Station W}.
Variable DEBUG_MODE : Z.
Variables SSID PASSWORD : Str.
Variable WL_CONNECTED : Z.

(** DBG(msg) adds [dbg_events] to the log and leaves the station alone. *)
Lemma DBG_run msg (m : machine W) :
  DBG DEBUG_MODE msg m
  = Ret (tt, mkMachine (world m) (calls m ++ dbg_events DEBUG_MODE msg)).
Proof.
  unfold DBG, dbg_events. destruct (DEBUG_MODE =? 1); [reflexivity|].
  unfold ret. rewrite app_nil_r. now destruct m.
Qed.

(** A run of the status loop that returns has polled until the status
    was WL_CONNECTED, sleeping 500 ms after every other answer; these are
    the calls it made, with the answers the station gave. *)
Lemma status_loop_run fuel :
  forall m m',
    status_loop DEBUG_MODE WL_CONNECTED fuel m = Ret (tt, m') ->
    exists failed,
      calls m'
      = calls m ++ failed_polls DEBUG_MODE failed ++ [WfStatus WL_CONNECTED] /\
      Forall (fun st => st <> WL_CONNECTED) failed /\
      wifi_replay (world m)
                  (failed_polls DEBUG_MODE failed ++ [WfStatus WL_CONNECTED])
      = Some (world m').
Proof.
  induction fuel as [|fuel IH]; intros m m' Hrun; [discriminate Hrun|].
  cbn [status_loop] in Hrun. unfold bind at 1, status in Hrun.
  destruct (wifi_status (world m)) as [st w1] eqn:Hst.
  destruct (Z.eqb_spec st WL_CONNECTED) as [->|Hne]; cbn [negb] in Hrun.
  - injection Hrun as <-. exists []. split; [reflexivity|].
    split; [constructor|].
    cbn [failed_polls flat_map app wifi_replay world record].
    rewrite Hst, Z.eqb_refl. reflexivity.
  - unfold bind at 1, delay in Hrun. cbn [world record] in Hrun.
    unfold bind at 1 in Hrun. rewrite DBG_run in Hrun.
    cbn [world calls record] in Hrun.
    destruct (IH _ _ Hrun) as (failed & Hc & Hall & Hre).
    cbn [calls world record] in Hc, Hre.
    exists (st :: failed). split; [|split; [now constructor|]].
    + rewrite Hc. cbn [failed_polls flat_map]. rewrite <- !app_assoc.
      reflexivity.
    + cbn [failed_polls flat_map]. rewrite <- !app_assoc.
      cbn [app wifi_replay]. rewrite Hst, Z.eqb_refl.
      rewrite wifi_replay_app.
      assert (Hdbg : forall w : W,
                 wifi_replay w (dbg_events DEBUG_MODE
                                  (lit "Connecting to WiFi..." ++ [LF]))
                 = Some w).
      { intros w. unfold dbg_events. now destruct (DEBUG_MODE =? 1). }
      rewrite Hdbg. exact Hre.
Qed.

(** While the status is never WL_CONNECTED the loop does not end. *)
Lemma status_loop_blocks fuel :
  (forall w, fst (wifi_status w) <> WL_CONNECTED) ->
  forall m, status_loop DEBUG_MODE WL_CONNECTED fuel m = OutOfFuel.
Proof.
  intros Hnever. induction fuel as [|fuel IH]; intros m; [reflexivity|].
  cbn [status_loop]. unfold bind at 1, status.
  pose proof (Hnever (world m)) as Hst.
  destruct (wifi_status (world m)) as [st w1]. cbn [fst] in Hst.
  destruct (Z.eqb_spec st WL_CONNECTED) as [E|_]; [contradiction|].
  cbn [negb]. unfold bind at 1, delay.
  unfold bind at 1. rewrite DBG_run. apply IH.
Qed.

(** What follows the loop in NETWORK_SETUP. *)
Lemma connected_report_run (m : machine W) :
  (DBG DEBUG_MODE (lit "Connected to the WiFi network" ++ [LF]) ;;
   DBG DEBUG_MODE (lit "IP: ") ;;
   DBG_NETWORK_IP DEBUG_MODE ;;
   DBG DEBUG_MODE [LF])%run m
  = Ret (tt, mkMachine
               (if DEBUG_MODE =? 1 then snd (wifi_localIP (world m))
                else world m)
               (calls m
                ++ connected_report DEBUG_MODE
                     (fst (wifi_localIP (world m))))).
Proof.
  unfold DBG, DBG_NETWORK_IP, connected_report.
  destruct (DEBUG_MODE =? 1).
  - unfold bind, serial_print, localIP. cbn [world calls record].
    destruct (wifi_localIP (world m)) as [ip w1].
    unfold record. cbn [fst snd world calls]. rewrite <- !app_assoc.
    reflexivity.
  - unfold bind, ret. rewrite app_nil_r. now destruct m.
Qed.

End WiFiLoops.

(** X15.  In WiFi mode a NETWORK_SETUP that returns has called begin
    once, first, with the configured SSID and password, and has then
    polled status() until the answer was WL_CONNECTED, making one
    delay(500) after each other answer.  With DEBUG_MODE other than 1
    these are all its calls.  With DEBUG_MODE 1 each delay is followed by
    a print of "Connecting to WiFi...", and the last poll by the prints
    of "Connected to the WiFi network", "IP: ", the address that one
    localIP() call returned, and a newline.  The log holds the calls made
    on the station, in this order, with the answers the station gave,
    and the station is left as the last of them left it. *)
Theorem wifi_setup_polls_until_connected :
  forall (W : Type) (St : WiFi.Station W) (debug_mode : Z)
         (ssid password : Str) (wl_connected : Z) (fuel : nat)
         (m m' : WiFi.machine W),
    WiFi.NETWORK_SETUP debug_mode ssid password wl_connected fuel m
    = Ret (tt, m') ->
    exists failed ip,
      WiFi.calls m'
      = WiFi.calls m
        ++ wifi_setup_events debug_mode ssid password wl_connected failed ip /\
      Forall (fun st => st <> wl_connected) failed /\
      wifi_replay (WiFi.world m)
        (wifi_setup_events debug_mode ssid password wl_connected failed ip)
      = Some (WiFi.world m').
Proof.
  intros W St dm ssid password wl fuel m m' Hrun.
  unfold WiFi.NETWORK_SETUP in Hrun. unfold bind at 1, WiFi.begin in Hrun.
  unfold bind at 1 in Hrun.
  match type of Hrun with
  | match WiFi.status_loop _ _ _ ?m1 with _ => _ end = _ =>
      destruct (WiFi.status_loop dm wl fuel m1) as [[[] m2]| |] eqn:Hloop;
        try discriminate Hrun
  end.
  destruct (status_loop_run dm wl fuel _ _ Hloop) as (failed & Hc & Hall & Hre).
  cbn [WiFi.calls WiFi.world WiFi.record] in Hc, Hre.
  rewrite connected_report_run in Hrun. injection Hrun as <-.
  exists failed, (fst (WiFi.wifi_localIP (WiFi.world m2))).
  cbn [WiFi.calls WiFi.world]. unfold wifi_setup_events.
  split; [|split; [exact Hall|]].
  - rewrite Hc, <- !app_assoc. reflexivity.
  - cbn [wifi_replay]. rewrite app_assoc, wifi_replay_app, Hre.
    unfold connected_report. destruct (dm =? 1); [|reflexivity].
    cbn [wifi_replay].
    destruct (WiFi.wifi_localIP (WiFi.world m2)) as [[[[a b] c] d] w3].
    cbn [fst snd]. rewrite !Z.eqb_refl. reflexivity.
Qed.

Lemma wifi_setup_witness :
  exists m',
    WiFi.NETWORK_SETUP 1 (lit "myssid") (lit "12345678") 3 5
                       (WiFi.mkMachine 2%nat []) = Ret (tt, m') /\
    exists failed ip,
      WiFi.calls m'
      = wifi_setup_events 1 (lit "myssid") (lit "12345678") 3 failed ip /\
      wifi_replay 2%nat
        (wifi_setup_events 1 (lit "myssid") (lit "12345678") 3 failed ip)
      = Some (WiFi.world m').
Proof.
  eexists. split; [vm_compute; reflexivity|].
  edestruct (wifi_setup_polls_until_connected
               nat countdown_station 1 (lit "myssid") (lit "12345678") 3
               5%nat (WiFi.mkMachine 2%nat []))
    as (failed & ip & Hc & _ & Hre).
  - vm_compute. reflexivity.
  - exists failed, ip. split; [exact Hc | exact Hre].
Defined.

(** X16.  NETWORK_SETUP, and NETWORK_LOOP with it, has no way out but a
    status() that answers WL_CONNECTED: on a station that never gives
    that answer neither returns, whatever the fuel and whatever
    DEBUG_MODE. *)
Theorem wifi_setup_blocks_while_down :
  forall (W : Type) (St : WiFi.Station W) (debug_mode : Z)
         (ssid password : Str) (wl_connected : Z),
    (forall w, fst (WiFi.wifi_status w) <> wl_connected) ->
    forall (fuel : nat) (m : WiFi.machine W),
      WiFi.NETWORK_SETUP debug_mode ssid password wl_connected fuel m
      = OutOfFuel /\
      WiFi.NETWORK_LOOP debug_mode ssid password wl_connected fuel m
      = OutOfFuel.
Proof.
  intros W St dm ssid password wl Hnever fuel m.
  assert (Hsetup : forall m0 : WiFi.machine W,
             WiFi.NETWORK_SETUP dm ssid password wl fuel m0 = OutOfFuel).
  { intros m0. unfold WiFi.NETWORK_SETUP. unfold bind at 1, WiFi.begin.
    unfold bind at 1. now rewrite status_loop_blocks. }
  split; [apply Hsetup|].
  unfold WiFi.NETWORK_LOOP. unfold bind at 1, WiFi.status.
  pose proof (Hnever (WiFi.world m)) as Hst.
  destruct (WiFi.wifi_status (WiFi.world m)) as [st w1]. cbn [fst] in Hst.
  destruct (Z.eqb_spec st wl) as [E|_]; [contradiction|].
  cbn [negb]. unfold bind at 1. rewrite DBG_run. apply Hsetup.
Qed.

Lemma wifi_setup_blocks_witness :
  @WiFi.NETWORK_SETUP unit lost_station 1 (lit "myssid") (lit "12345678") 3
                      40 (WiFi.mkMachine tt []) = OutOfFuel /\
  @WiFi.NETWORK_LOOP unit lost_station 1 (lit "myssid") (lit "12345678") 3
                     40 (WiFi.mkMachine tt []) = OutOfFuel.
Proof.
  refine (wifi_setup_blocks_while_down unit lost_station 1 (lit "myssid")
            (lit "12345678") 3 _ 40%nat (WiFi.mkMachine tt [])).
  intros w. simpl. discriminate.
Defined.

(* ------------------------------------------------------------------ *)
(** * MQTT mode: REQUEST_LOOP and REQUEST_SEND *)

(** The log of a REQUEST_SETUP that returns, and the state it leaves
    the client in. *)
Lemma request_setup_shape {W} {C : Mqtt.PubSubClient W}
      url id user pass port fuel (m m' : Mqtt.machine W) :
  Mqtt.REQUEST_SETUP url id user pass port fuel m = Ret (tt, m') ->
  exists rounds,
    Mqtt.calls m' = Mqtt.calls m ++ setup_events url port id user pass rounds /\
    replay (Mqtt.world m) (setup_events url port id user pass rounds)
    = Some (Mqtt.world m').
Proof.
  intros Hrun.
  unfold Mqtt.REQUEST_SETUP in Hrun. unfold bind at 1, Mqtt.setServer in Hrun.
  match type of Hrun with
  | Mqtt.connect_loop _ _ _ _ ?m1 = _ =>
      pose proof (connect_loop_run id user pass fuel m1) as Hpost
  end.
  rewrite Hrun in Hpost. destruct Hpost as (rounds & Hc & Hre & _).
  cbn [Mqtt.calls Mqtt.world Mqtt.record] in Hc, Hre.
  exists rounds. unfold setup_events. split; [|exact Hre].
  rewrite Hc, <- app_assoc. reflexivity.
Qed.

(** X17.  One turn of the sketch's loop in MQTT mode, REQUEST_LOOP and
    then REQUEST_SEND: when it returns, its calls are those of a whole
    REQUEST_SETUP, which end with a connected() that answered true, then
    one loop(), then one publish to REQUEST_PATH of the data as a C
    string; with DEBUG_MODE 1 one print of "Sent <data> to <path> topic
    on <url>" follows, and nothing with any other DEBUG_MODE.  These are
    the calls made on the client, each with the answer it gave: loop()
    was called on the client as the setup left it, publish on the client
    as loop() left it.  The publish is made whatever loop() answered, and
    its own answer is the value of REQUEST_SEND. *)
Theorem mqtt_turn_publishes_once_after_setup :
  forall (W : Type) (C : Mqtt.PubSubClient W) (P : MqttSession.Publisher W)
         (debug_mode : Z) (url path id user pass : Str) (port : Z)
         (fuel : nat) (data : Str)
         (m m' : MqttSession.machine W) (sent : bool),
    bind (MqttSession.REQUEST_LOOP url id user pass port fuel)
         (fun _ => MqttSession.REQUEST_SEND url path debug_mode data) m
    = Ret (sent, m') ->
    exists rounds looped ws wl,
      MqttSession.calls m'
      = MqttSession.calls m
        ++ map MqttSession.Setup (setup_events url port id user pass rounds)
        ++ [MqttSession.Loop looped;
            MqttSession.Publish path (c_string data) sent]
        ++ (if debug_mode =? 1
            then [MqttSession.SerialPrint
                    (lit "Sent " ++ data ++ lit " to " ++ path
                     ++ lit " topic on " ++ url ++ [LF])]
            else []) /\
      replay (MqttSession.world m) (setup_events url port id user pass rounds)
      = Some ws /\
      MqttSession.mq_loop ws = (looped, wl) /\
      MqttSession.mq_publish path (c_string data) wl
      = (sent, MqttSession.world m').
Proof.
  intros W C P dm url path id user pass port fuel data m m' sent Hrun.
  unfold bind at 1 in Hrun. unfold MqttSession.REQUEST_LOOP in Hrun.
  unfold bind at 1 in Hrun. unfold MqttSession.REQUEST_SETUP in Hrun.
  destruct (Mqtt.REQUEST_SETUP url id user pass port fuel
              (Mqtt.mkMachine (MqttSession.world m) []))
    as [[[] s]| |] eqn:Hsetup; try discriminate Hrun.
  destruct (request_setup_shape _ _ _ _ _ _ _ _ Hsetup) as (rounds & Hc & Hre).
  cbn [Mqtt.calls Mqtt.world app] in Hc, Hre.
  unfold MqttSession.loop in Hrun. cbn [MqttSession.world] in Hrun.
  destruct (MqttSession.mq_loop (Mqtt.world s)) as [looped w1] eqn:Hloop.
  unfold MqttSession.REQUEST_SEND in Hrun.
  unfold bind at 1, MqttSession.publish in Hrun.
  cbn [MqttSession.world MqttSession.calls] in Hrun.
  destruct (MqttSession.mq_publish path (c_string data) w1) as [ok w2]
    eqn:Hpub.
  unfold bind at 1, MqttSession.DBG, ret in Hrun.
  cbn [MqttSession.world MqttSession.calls] in Hrun.
  exists rounds, looped, (Mqtt.world s), w1.
  destruct (dm =? 1); injection Hrun as -> <-;
    cbn [MqttSession.calls MqttSession.world];
    (split; [rewrite Hc, <- !app_assoc; reflexivity|]);
    (split; [exact Hre|]); (split; [exact Hloop | exact Hpub]).
Qed.

Lemma mqtt_turn_witness :
  exists m' rounds looped,
    bind (MqttSession.REQUEST_LOOP (lit "broker.emqx.io") (lit "esp-client-")
                                   (lit "emqx") (lit "123") 1883 5)
         (fun _ => MqttSession.REQUEST_SEND (lit "broker.emqx.io")
                     (lit "esp32/test") 1 (lit "[data]"))
         (MqttSession.mkMachine (Sim.mkBroker 2 false) [])
    = Ret (true, m') /\
    MqttSession.calls m'
    = map MqttSession.Setup
          (setup_events (lit "broker.emqx.io") 1883 (lit "esp-client-")
                        (lit "emqx") (lit "123") rounds)
      ++ [MqttSession.Loop looped;
          MqttSession.Publish (lit "esp32/test") (lit "[data]") true;
          MqttSession.SerialPrint
            (lit "Sent [data] to esp32/test topic on broker.emqx.io"
             ++ [LF])].
Proof.
  eexists.
  edestruct (mqtt_turn_publishes_once_after_setup
               Sim.broker Sim.broker_is_pubsub broker_is_publisher 1
               (lit "broker.emqx.io") (lit "esp32/test") (lit "esp-client-")
               (lit "emqx") (lit "123") 1883 5%nat (lit "[data]")
               (MqttSession.mkMachine (Sim.mkBroker 2 false) []))
    as (rounds & looped & ws & wl & Hc & _).
  - vm_compute. reflexivity.
  - exists rounds, looped. split; [vm_compute; reflexivity | exact Hc].
Defined.

(** X18.  On a client that is connected already, REQUEST_LOOP returns
    with a single unit of fuel after exactly three calls: setServer, one
    connected(), and loop(), whose answer it yields; it makes no
    connect(), no delay and prints nothing. *)
Theorem mqtt_loop_on_connected_client :
  forall (W : Type) (C : Mqtt.PubSubClient W) (P : MqttSession.Publisher W)
         (url id user pass : Str) (port : Z) (fuel : nat)
         (m : MqttSession.machine W),
    fst (Mqtt.mq_connected
           (Mqtt.mq_setServer url port (MqttSession.world m))) = true ->
    exists looped w,
      MqttSession.REQUEST_LOOP url id user pass port (S fuel) m
      = Ret (looped,
             MqttSession.mkMachine w
               (MqttSession.calls m
                ++ [MqttSession.Setup (Mqtt.MqSetServer url port);
                    MqttSession.Setup (Mqtt.MqConnected true);
                    MqttSession.Loop looped])).
Proof.
  intros W C P url id user pass port fuel m Hup.
  unfold MqttSession.REQUEST_LOOP. unfold bind at 1.
  unfold MqttSession.REQUEST_SETUP, Mqtt.REQUEST_SETUP.
  unfold bind at 1. unfold Mqtt.setServer. cbn [Mqtt.world Mqtt.calls].
  cbn [Mqtt.connect_loop]. unfold bind at 1. unfold Mqtt.connected.
  cbn [Mqtt.world Mqtt.record Mqtt.calls].
  destruct (Mqtt.mq_connected
              (Mqtt.mq_setServer url port (MqttSession.world m)))
    as [up w1]. cbn [fst] in Hup. subst up. cbn [negb]. unfold ret.
  unfold MqttSession.loop.
  cbn [Mqtt.world Mqtt.calls Mqtt.record map app
       MqttSession.world MqttSession.calls].
  destruct (MqttSession.mq_loop w1) as [looped w2].
  exists looped, w2. rewrite <- app_assoc. reflexivity.
Qed.

Lemma mqtt_loop_connected_witness :
  exists looped w,
    MqttSession.REQUEST_LOOP (lit "broker.emqx.io") (lit "esp-client-")
                             (lit "emqx") (lit "123") 1883 1
                             (MqttSession.mkMachine (Sim.mkBroker 0 true) [])
    = Ret (looped,
           MqttSession.mkMachine w
             [MqttSession.Setup (Mqtt.MqSetServer (lit "broker.emqx.io") 1883);
              MqttSession.Setup (Mqtt.MqConnected true);
              MqttSession.Loop looped]).
Proof.
  exact (mqtt_loop_on_connected_client
           Sim.broker Sim.broker_is_pubsub broker_is_publisher
           (lit "broker.emqx.io") (lit "esp-client-") (lit "emqx") (lit "123")
           1883 0%nat (MqttSession.mkMachine (Sim.mkBroker 0 true) [])
           eq_refl).
Defined.

(** The loop of REQUEST_SETUP has no way out but a connected() that
    answers true. *)
Lemma connect_loop_blocks {W} {C : Mqtt.PubSubClient W} id user pass fuel :
  (forall w, fst (Mqtt.mq_connected w) = false) ->
  forall m : Mqtt.machine W, Mqtt.connect_loop id user pass fuel m = OutOfFuel.
Proof.
  intros Hnever. induction fuel as [|fuel IH]; intros m; [reflexivity|].
  cbn [Mqtt.connect_loop]. unfold bind at 1, Mqtt.connected.
  pose proof (Hnever (Mqtt.world m)) as Hup.
  destruct (Mqtt.mq_connected (Mqtt.world m)) as [up w1]. cbn [fst] in Hup.
  subst up. cbn [negb]. unfold bind at 1, Mqtt.connect.
  destruct (Mqtt.mq_connect id user pass _) as [[|] w2].
  - unfold bind at 1, Mqtt.serial. apply IH.
  - unfold bind at 1, Mqtt.serial. unfold bind at 1, Mqtt.state.
    destruct (Mqtt.mq_state _) as [st w3].
    unfold bind at 1, Mqtt.serial. unfold bind at 1, Mqtt.delay. apply IH.
Qed.

(** X19.  REQUEST_SETUP and REQUEST_LOOP do not give up: on a client
    whose connected() never answers true they do not return, whatever
    the fuel, and loop() is not reached. *)
Theorem mqtt_setup_blocks_while_down :
  forall (W : Type) (C : Mqtt.PubSubClient W) (P : MqttSession.Publisher W)
         (url id user pass : Str) (port : Z),
    (forall w, fst (Mqtt.mq_connected w) = false) ->
    forall (fuel : nat) (m : Mqtt.machine W) (s : MqttSession.machine W),
      Mqtt.REQUEST_SETUP url id user pass port fuel m = OutOfFuel /\
      MqttSession.REQUEST_LOOP url id user pass port fuel s = OutOfFuel.
Proof.
  intros W C P url id user pass port Hnever fuel m s.
  assert (Hsetup : forall m0 : Mqtt.machine W,
             Mqtt.REQUEST_SETUP url id user pass port fuel m0 = OutOfFuel).
  { intros m0. unfold Mqtt.REQUEST_SETUP. unfold bind at 1, Mqtt.setServer.
    now apply connect_loop_blocks. }
  split; [apply Hsetup|].
  unfold MqttSession.REQUEST_LOOP. unfold bind at 1.
  unfold MqttSession.REQUEST_SETUP. now rewrite Hsetup.
Qed.

Lemma mqtt_setup_blocks_witness :
  @Mqtt.REQUEST_SETUP unit deaf_broker (lit "broker.emqx.io")
    (lit "esp-client-") (lit "emqx") (lit "123") 1883 40
    (Mqtt.mkMachine tt []) = OutOfFuel /\
  @MqttSession.REQUEST_LOOP unit deaf_broker
    {| MqttSession.mq_loop := fun w => (false, w);
       MqttSession.mq_publish := fun _ _ w => (false, w) |}
    (lit "broker.emqx.io") (lit "esp-client-") (lit "emqx") (lit "123") 1883
    40 (MqttSession.mkMachine tt []) = OutOfFuel.
Proof.
  refine (mqtt_setup_blocks_while_down unit deaf_broker _ (lit "broker.emqx.io")
            (lit "esp-client-") (lit "emqx") (lit "123") 1883 _ 40%nat
            (Mqtt.mkMachine tt []) (MqttSession.mkMachine tt [])).
  intros w. reflexivity.
Defined.
